(** * Phisherman: the audio pipeline, the Gemini service wrappers, the
      deepfake challenge handlers and the results endpoint

    A shallow embedding of
    - [src/services/geminiService.ts]: [createWavHeader], [writeString],
      [playAudio], [generateDeepfakeAudio], [analyzeSimulationResponse];
    - [src/App.tsx]: [startDeepfakeChallenge], [handleDeepfakeGuess],
      [submitAnalysis];
    - the Express server: the tables, [seed] and the write endpoints
      [POST /api/results] and [POST /api/admin/campaigns].

    JavaScript numbers that the code uses as lengths, offsets, sample rates
    and row ids are integers here ([Z]); numbers inside JSON documents are
    rationals ([Q]); a byte of an [ArrayBuffer] is a [Byte.byte]; a
    JavaScript string is the list of its UTF-16 code units. An [async]
    function is modelled in direct style: [await] is sequencing, a rejected
    promise is a thrown error. *)

From Stdlib Require Import ZArith QArith Qround List Strings.String Strings.Ascii
  Strings.Byte Lia Bool.
From stdpp Require Import base option list gmap pretty.

Close Scope Q_scope.
Local Open Scope string_scope.
Local Open Scope list_scope.
Local Open Scope stdpp_scope.
Local Open Scope Z_scope.

(** ** JavaScript basics *)

Module JS.

(** A string is the sequence of its code units. *)
Abbreviation jsstring := (list Z).

(** A literal of the source, written as a Rocq string. *)
Definition lit (s : string) : jsstring :=
  (λ a, Z.of_N (N_of_ascii a)) <$> list_ascii_of_string s.

(** [s.charCodeAt(i)]; out of range JavaScript answers NaN, which every
    integer conversion below maps to 0. *)
Definition charCodeAt (s : jsstring) (i : nat) : Z := default 0 (s !! i).

(** Errors that the modelled code can raise or receive. *)
Inductive error : Type :=
  | RangeError
  | TypeError
  | InvalidCharacterError
  | SyntaxError
  | ErrorMsg (msg : string)
  | ApiError (code : Z).

(** The outcome of evaluating a piece of code: a value or a thrown error. *)
Inductive completion (A : Type) : Type :=
  | Normal (a : A)
  | Throw (e : error).
Global Arguments Normal {A} a.
Global Arguments Throw {A} e.

Global Instance completion_ret : MRet completion := λ A a, Normal a.
Global Instance completion_bind : MBind completion := λ A B f m,
  match m with
  | Normal a => f a
  | Throw e => Throw e
  end.

Definition is_Normal {A} (m : completion A) : Prop := ∃ a, m = Normal a.

(** *** Integer conversions of typed arrays and [DataView] *)

Definition ToUint8 (v : Z) : Z := v mod 2 ^ 8.
Definition ToUint16 (v : Z) : Z := v mod 2 ^ 16.
Definition ToUint32 (v : Z) : Z := v mod 2 ^ 32.

(** The byte holding an integer below 256. *)
Definition byte_of_Z (v : Z) : byte :=
  default x00 (Byte.of_N (Z.to_N (ToUint8 v))).

Definition Z_of_byte (b : byte) : Z := Z.of_N (Byte.to_N b).

(** *** [ArrayBuffer], [DataView] and [Uint8Array]

    All three are views of one sequence of bytes; a write returns the
    sequence after the write. Writes outside the buffer throw a RangeError. *)

Definition ArrayBuffer (n : nat) : list byte := replicate n x00.

Definition fits (view : list byte) (offset size : nat) : bool :=
  (offset + size <=? length view)%nat.

Definition setUint8 (view : list byte) (offset : nat) (v : Z)
    : completion (list byte) :=
  if fits view offset 1
  then Normal (<[offset := byte_of_Z v]> view)
  else Throw RangeError.

Definition setUint16 (view : list byte) (offset : nat) (v : Z)
    (littleEndian : bool) : completion (list byte) :=
  if fits view offset 2 then
    let w := ToUint16 v in
    let b0 := byte_of_Z w in
    let b1 := byte_of_Z (w / 2 ^ 8) in
    Normal (if littleEndian
            then <[S offset := b1]> (<[offset := b0]> view)
            else <[S offset := b0]> (<[offset := b1]> view))
  else Throw RangeError.

Definition setUint32 (view : list byte) (offset : nat) (v : Z)
    (littleEndian : bool) : completion (list byte) :=
  if fits view offset 4 then
    let w := ToUint32 v in
    let b0 := byte_of_Z w in
    let b1 := byte_of_Z (w / 2 ^ 8) in
    let b2 := byte_of_Z (w / 2 ^ 16) in
    let b3 := byte_of_Z (w / 2 ^ 24) in
    Normal (if littleEndian
            then <[S (S (S offset)) := b3]> (<[S (S offset) := b2]>
                   (<[S offset := b1]> (<[offset := b0]> view)))
            else <[S (S (S offset)) := b0]> (<[S (S offset) := b1]>
                   (<[S offset := b2]> (<[offset := b3]> view))))
  else Throw RangeError.

(** The readers of [DataView], little-endian, as a WAV parser uses them. *)
Definition getUint16_le (view : list byte) (offset : nat) : option Z :=
  match view !! offset, view !! S offset with
  | Some b0, Some b1 => Some (Z_of_byte b0 + 2 ^ 8 * Z_of_byte b1)
  | _, _ => None
  end.

Definition getUint32_le (view : list byte) (offset : nat) : option Z :=
  match view !! offset, view !! S offset,
        view !! S (S offset), view !! S (S (S offset)) with
  | Some b0, Some b1, Some b2, Some b3 =>
      Some (Z_of_byte b0 + 2 ^ 8 * Z_of_byte b1
            + 2 ^ 16 * Z_of_byte b2 + 2 ^ 24 * Z_of_byte b3)
  | _, _, _, _ => None
  end.

(** [view.slice(from, from + n)]. *)
Definition slice (view : list byte) (from n : nat) : list byte :=
  take n (drop from view).

(** [new Uint8Array(n)] and [target.set(source, offset)]. *)
Definition Uint8Array (n : nat) : list byte := replicate n x00.

Definition set (target source : list byte) (offset : nat)
    : completion (list byte) :=
  if fits target offset (length source)
  then Normal (take offset target ++ source
               ++ drop (offset + length source)%nat target)
  else Throw RangeError.

(** *** JSON values, as [JSON.parse] and [express.json] produce them *)

#[local] Unset Elimination Schemes.
Inductive json : Type :=
  | JNull
  | JBool (b : bool)
  | JNum (q : Q)
  | JStr (s : jsstring)
  | JArr (items : list json)
  | JObj (fields : list (string * json)).
#[local] Set Elimination Schemes.

(** A value that may be [undefined] is an [option json].

    [o[k]] on an association list: the last binding of a key wins, as in
    a parsed object. *)
Fixpoint assoc (k : string) (fields : list (string * json)) : option json :=
  match fields with
  | [] => None
  | (k', v) :: rest =>
      match assoc k rest with
      | Some v' => Some v'
      | None => if String.eqb k k' then Some v else None
      end
  end.

(** [v.k]: reading a property of [null] throws; a value that is not an
    object has none of the properties the code reads. *)
Definition get (v : json) (k : string) : completion (option json) :=
  match v with
  | JNull => Throw TypeError
  | JObj fields => Normal (assoc k fields)
  | _ => Normal None
  end.

(** Truthiness: [!v] is [negb (truthy v)]. *)
Definition truthy (v : option json) : bool :=
  match v with
  | None => false
  | Some JNull => false
  | Some (JBool b) => b
  | Some (JNum q) => negb (Qeq_bool q 0)
  | Some (JStr s) => negb (bool_decide (s = []))
  | Some (JArr _) => true
  | Some (JObj _) => true
  end.

(** [a || b]. *)
Definition or_else (a : option json) (b : option json) : option json :=
  if truthy a then a else b.

End JS.

(** ** Effects: state and exceptions

    Code that logs, calls the network or updates a store is a function from
    the state before to an outcome and the state after; what a thrown error
    leaves behind in the state stays. *)

Module Eff.
Import JS.

Definition M (S A : Type) : Type := S → completion A * S.

Global Instance M_ret {S} : MRet (M S) := λ A a s, (Normal a, s).
Global Instance M_bind {S} : MBind (M S) := λ A B f m s,
  match m s with
  | (Normal a, s') => f a s'
  | (Throw e, s') => (Throw e, s')
  end.

Definition throw {S A} (e : error) : M S A := λ s, (Throw e, s).

Definition lift {S A} (c : completion A) : M S A := λ s, (c, s).

Definition gets {S A} (f : S → A) : M S A := λ s, (Normal (f s), s).

Definition modify {S} (f : S → S) : M S unit := λ s, (Normal (), f s).

(** [try { body } catch (e) { handler e }] *)
Definition try_catch {S A} (body : M S A) (handler : error → M S A)
    : M S A := λ s,
  match body s with
  | (Normal a, s') => (Normal a, s')
  | (Throw e, s') => handler e s'
  end.

(** [try { body } finally { fin }] *)
Definition try_finally {S A} (body : M S A) (fin : M S unit) : M S A := λ s,
  match body s with
  | (r, s') =>
      match fin s' with
      | (Normal _, s'') => (r, s'')
      | (Throw e, s'') => (Throw e, s'')
      end
  end.

(** Running a computation on the second component of a pair of states. *)
Definition on_snd {S1 S2 A} (m : M S2 A) : M (S1 * S2) A := λ s,
  match m (snd s) with
  | (r, s2) => (r, (fst s, s2))
  end.

Definition on_fst {S1 S2 A} (m : M S1 A) : M (S1 * S2) A := λ s,
  match m (fst s) with
  | (r, s1) => (r, (s1, snd s))
  end.

(** A computation keeps a property of the state, whatever its outcome. *)
Definition keeps {S A} (P : S → Prop) (m : M S A) : Prop :=
  ∀ s, P s → P (snd (m s)).

End Eff.

(** ** The WAV header of [geminiService.ts] *)

Module Wav.
Import JS.

(** The loop of [writeString]: [n] iterations are left, the next index is
    [i]. *)
Fixpoint writeString_loop (view : list byte) (offset : nat) (s : jsstring)
    (n i : nat) : completion (list byte) :=
  match n with
  | O => Normal view
  | S n' =>
      view' ← setUint8 view (offset + i)%nat (charCodeAt s i);
      writeString_loop view' offset s n' (S i)
  end.

Definition writeString (view : list byte) (offset : nat) (s : jsstring)
    : completion (list byte) :=
  writeString_loop view offset s (length s) 0%nat.

Definition createWavHeader (dataLength sampleRate : Z)
    : completion (list byte) :=
  let header := ArrayBuffer 44 in
  (* RIFF identifier *)
  view ← writeString header 0 (lit "RIFF");
  (* file length *)
  view ← setUint32 view 4 (36 + dataLength) true;
  (* RIFF type *)
  view ← writeString view 8 (lit "WAVE");
  (* format chunk identifier *)
  view ← writeString view 12 (lit "fmt ");
  (* format chunk length *)
  view ← setUint32 view 16 16 true;
  (* sample format (raw) *)
  view ← setUint16 view 20 1 true;
  (* channel count *)
  view ← setUint16 view 22 1 true;
  (* sample rate *)
  view ← setUint32 view 24 sampleRate true;
  (* byte rate (sample rate * block align) *)
  view ← setUint32 view 28 (sampleRate * 2) true;
  (* block align (channel count * bytes per sample) *)
  view ← setUint16 view 32 2 true;
  (* bits per sample *)
  view ← setUint16 view 34 16 true;
  (* data chunk identifier *)
  view ← writeString view 36 (lit "data");
  (* data chunk length *)
  view ← setUint32 view 40 dataLength true;
  Normal view.

End Wav.

(** ** The world outside the code: console, object URLs, network *)

Module Env.
Import JS Eff.

(** A request to [ai.models.generateContent]. *)
Inductive request_config : Type :=
  | JsonResponse (required : list string)
  | SystemInstruction (text : string)
  | Speech (voiceName : string).

Record GenerateContentRequest : Type := {
  model : string;
  contents : jsstring;
  config : request_config
}.

(** The part of a response that the code reads:
    [response.candidates?.[0]?.content?.parts?.[0]?.inlineData?.data] and
    [response.text]. Every link of the chain may be missing. *)
Record InlineData : Type := { data : option jsstring }.
Record Part : Type := { inlineData : option InlineData }.
Record Content : Type := { parts : option (list Part) }.
Record Candidate : Type := { content : option Content }.
Record GenerateContentResponse : Type := {
  candidates : option (list Candidate);
  text : option jsstring
}.

Record Blob : Type := {
  blob_bytes : list byte;
  blob_type : string
}.

(** An audio element and the object URL it plays. *)
Record HTMLAudioElement : Type := { src : nat }.

(** What the code does to the outside, in order (latest first). *)
Inductive event : Type :=
  | ConsoleError (msg : string) (e : option error)
  | Alert (msg : string)
  | Play (url : nat)
  | ApiCall (req : GenerateContentRequest)
  | HttpGet (path : string)
  | HttpPost (path : string) (body : json).

Record world : Type := {
  trace : list event;
  object_urls : list Blob
}.

Definition emit (ev : event) : M world unit :=
  modify (λ w, {| trace := ev :: trace w; object_urls := object_urls w |}).

Definition console_error (msg : string) (e : option error) : M world unit :=
  emit (ConsoleError msg e).

(** [URL.createObjectURL(blob)]: the new URL is the index of the blob in
    the store. *)
Definition createObjectURL (blob : Blob) : M world nat := λ w,
  (Normal (length (object_urls w)),
   {| trace := trace w; object_urls := object_urls w ++ [blob] |}).

(** [new Audio(url)] *)
Definition Audio (url : nat) : HTMLAudioElement := {| src := url |}.

(** [audio.play()]; a later rejection of the promise only logs, through
    the [.catch] of the caller, and is not part of the call. *)
Definition play (audio : HTMLAudioElement) : M world unit :=
  emit (Play (src audio)).

(** The bytes an audio element plays. *)
Definition audio_bytes (w : world) (audio : HTMLAudioElement)
    : option (list byte) :=
  blob_bytes <$> object_urls w !! src audio.

Definition is_ApiCall (ev : event) : bool :=
  match ev with ApiCall _ => true | _ => false end.

(** The calls of the generative API in a trace. *)
Definition api_calls (w : world) : list event := filter is_ApiCall (trace w).

End Env.

(** ** [playAudio] *)

Module Playback.
Import JS Eff Wav Env.

(** The loop that copies the decoded string into the byte array: [n]
    iterations are left, the next index is [i]. *)
Fixpoint copy_loop (bytes : list byte) (binaryString : jsstring)
    (n i : nat) : list byte :=
  match n with
  | O => bytes
  | S n' =>
      copy_loop (<[i := byte_of_Z (charCodeAt binaryString i)]> bytes)
        binaryString n' (S i)
  end.

Section PlayAudio.
(** [window.atob]: the decoded binary string, or an
    InvalidCharacterError. *)
Variable atob : jsstring → completion jsstring.

Definition playAudio (base64 : jsstring)
    : M world (option HTMLAudioElement) :=
  try_catch
    (binaryString ← lift (atob base64);
     let len := length binaryString in
     let bytes := Uint8Array len in
     let bytes := copy_loop bytes binaryString len 0 in
     (* Gemini TTS returns raw 16-bit PCM at 24kHz.
        We need to wrap it in a WAV header for the browser to play it. *)
     wavHeader ← lift (createWavHeader (Z.of_nat len) 24000);
     let wavBytes := Uint8Array (length wavHeader + len) in
     wavBytes ← lift (set wavBytes wavHeader 0);
     wavBytes ← lift (set wavBytes bytes (length wavHeader));
     let blob := {| blob_bytes := wavBytes; blob_type := "audio/wav" |} in
     url ← createObjectURL blob;
     let audio := Audio url in
     play audio;;
     mret (Some audio))
    (λ e,
     console_error "Audio processing failed:" (Some e);;
     mret None).
End PlayAudio.

End Playback.

(** ** The Gemini service wrappers of [geminiService.ts] *)

Module Gemini.
Import JS Eff Env.

(** White space and line terminators, the code units that [trim] strips. *)
Definition is_white_space (c : Z) : bool :=
  bool_decide (c ∈ [9; 10; 11; 12; 13; 32; 160; 5760; 8232; 8233; 8239;
                    8287; 12288; 65279])
  || ((8192 <=? c) && (c <=? 8202)).

Fixpoint trimStart (s : jsstring) : jsstring :=
  match s with
  | [] => []
  | c :: s' => if is_white_space c then trimStart s' else s
  end.

Definition trimEnd (s : jsstring) : jsstring :=
  reverse (trimStart (reverse s)).

Definition trim (s : jsstring) : jsstring := trimEnd (trimStart s).

(** [!s] for a string that may be undefined. *)
Definition falsy_string (s : option jsstring) : bool :=
  match s with
  | None => true
  | Some s => bool_decide (s = [])
  end.

(** [flags.join(sep)] *)
Fixpoint join (sep : jsstring) (l : list jsstring) : jsstring :=
  match l with
  | [] => []
  | [x] => x
  | x :: rest => x ++ sep ++ join sep rest
  end.

Record GoogleGenAI : Type := { apiKey : jsstring }.

Section Service.
(** [process.env.GEMINI_API_KEY] *)
Variable GEMINI_API_KEY : option jsstring.
(** The remote model behind [ai.models.generateContent]. *)
Variable generateContent :
  GenerateContentRequest → completion GenerateContentResponse.
(** [JSON.parse], applied to a text that may be undefined. *)
Variable JSON_parse : option jsstring → completion json.

Definition getAI : completion GoogleGenAI :=
  let apiKey := GEMINI_API_KEY in
  if falsy_string apiKey
  then Throw (ErrorMsg "GEMINI_API_KEY is not set")
  else Normal {| apiKey := default [] apiKey |}.

(** A call of the remote model: the call is recorded, then it answers or
    fails. *)
Definition models_generateContent (ai : GoogleGenAI)
    (req : GenerateContentRequest) : M world GenerateContentResponse :=
  emit (ApiCall req);;
  lift (generateContent req).

(** [response.candidates?.[0]?.content?.parts?.[0]?.inlineData?.data] *)
Definition first_inline_data (response : GenerateContentResponse)
    : option jsstring :=
  cs ← candidates response;
  c ← cs !! 0%nat;
  ct ← content c;
  ps ← parts ct;
  p ← ps !! 0%nat;
  i ← inlineData p;
  data i.

Definition generateDeepfakeAudio (text : jsstring) : M world jsstring :=
  ai ← lift getAI;
  try_catch
    ((* Ensure text is not empty *)
     (if falsy_string (Some text) || bool_decide (length (trim text) = 0%nat)
      then throw (ErrorMsg "Text for audio generation cannot be empty")
      else mret ());;
     response ← models_generateContent ai
       {| model := "gemini-2.5-flash-preview-tts";
          contents := text;
          config := Speech "Charon" |};
     let base64Audio := first_inline_data response in
     if falsy_string base64Audio then
       console_error "Gemini TTS returned no audio data. Response:" None;;
       throw (ErrorMsg "No audio data received from Gemini API")
     else mret (default [] base64Audio))
    (λ error,
     console_error "Deepfake audio generation failed:" (Some error);;
     (* Re-throw to allow UI to handle it *)
     throw error).

Definition analyzeSimulationResponse (simulationContent : jsstring)
    (userFlags : list jsstring) : M world json :=
  ai ← lift getAI;
  let prompt :=
    lit "Analyze a user's response to a phishing simulation.
  Simulation Content: " ++ simulationContent ++ lit "
  User Identified Flags: " ++ join (lit ", ") userFlags ++ lit "
  
  Provide feedback on:
  - What they missed.
  - What they correctly identified.
  - Overall score (0-100).
  - Encouraging advice." in
  response ← models_generateContent ai
    {| model := "gemini-3.1-pro-preview";
       contents := prompt;
       config := JsonResponse
                   ["score"; "missedFlags"; "correctFlags"; "feedback"] |};
  lift (JSON_parse (text response)).
End Service.

End Gemini.

(** ** The simulation handlers of [App.tsx] *)

Module App.
Import JS Eff Env Gemini.

Inductive Solution : Type := authentic | synthetic.

Global Instance Solution_eq_dec : EqDecision Solution.
Proof. solve_decision. Defined.

Inductive View : Type :=
  | dashboard | email_sim | deepfake_sim | phone_sim | analytics | reports
  | admin_dashboard | admin_campaigns | admin_departments.

Global Instance View_eq_dec : EqDecision View.
Proof. solve_decision. Defined.

(** The hooks that the three handlers read or write; [null] is [JNull] or
    [None]. *)
Record AppState : Type := {
  currentView : View;
  emailSim : json;
  phoneSim : json;
  deepfakeAudio : option jsstring;
  deepfakeSolution : option Solution;
  loading : bool;
  selectedFlags : list jsstring;
  feedback : json
}.

Definition setCurrentView (v : View) : M (AppState * world) unit :=
  on_fst (modify (λ st,
    {| currentView := v; emailSim := emailSim st; phoneSim := phoneSim st;
       deepfakeAudio := deepfakeAudio st;
       deepfakeSolution := deepfakeSolution st; loading := loading st;
       selectedFlags := selectedFlags st; feedback := feedback st |})).

Definition setDeepfakeAudio (a : option jsstring)
    : M (AppState * world) unit :=
  on_fst (modify (λ st,
    {| currentView := currentView st; emailSim := emailSim st;
       phoneSim := phoneSim st; deepfakeAudio := a;
       deepfakeSolution := deepfakeSolution st; loading := loading st;
       selectedFlags := selectedFlags st; feedback := feedback st |})).

Definition setDeepfakeSolution (s : option Solution)
    : M (AppState * world) unit :=
  on_fst (modify (λ st,
    {| currentView := currentView st; emailSim := emailSim st;
       phoneSim := phoneSim st; deepfakeAudio := deepfakeAudio st;
       deepfakeSolution := s; loading := loading st;
       selectedFlags := selectedFlags st; feedback := feedback st |})).

Definition setLoading (b : bool) : M (AppState * world) unit :=
  on_fst (modify (λ st,
    {| currentView := currentView st; emailSim := emailSim st;
       phoneSim := phoneSim st; deepfakeAudio := deepfakeAudio st;
       deepfakeSolution := deepfakeSolution st; loading := b;
       selectedFlags := selectedFlags st; feedback := feedback st |})).

Definition setFeedback (f : json) : M (AppState * world) unit :=
  on_fst (modify (λ st,
    {| currentView := currentView st; emailSim := emailSim st;
       phoneSim := phoneSim st; deepfakeAudio := deepfakeAudio st;
       deepfakeSolution := deepfakeSolution st; loading := loading st;
       selectedFlags := selectedFlags st; feedback := f |})).

(** [fetchStats()] and [fetchReports()] are started and not awaited; each
    catches its own errors. Only the request is recorded. *)
Definition fetchStats : M (AppState * world) unit :=
  on_snd (emit (HttpGet "/api/stats")).

Definition fetchReports : M (AppState * world) unit :=
  on_snd (emit (HttpGet "/api/reports")).

Section Handlers.
Variable GEMINI_API_KEY : option jsstring.
Variable generateContent :
  GenerateContentRequest → completion GenerateContentResponse.
Variable JSON_parse : option jsstring → completion json.
Variable JSON_stringify : json → jsstring.
(** The number a value converts to; [None] is NaN. *)
Variable ToNumber : option json → option Q.
(** The backend as the page sees it: a POST succeeds or is rejected. *)
Variable fetch : string → json → completion unit.

(** [v > n] *)
Definition greater_than (v : option json) (n : Q) : bool :=
  match ToNumber v with
  | Some q => negb (Qle_bool q n)
  | None => false
  end.

(** [await fetch(path, { method: 'POST', ..., body })] *)
Definition fetch_POST (path : string) (body : json)
    : M (AppState * world) unit :=
  on_snd (emit (HttpPost path body));;
  lift (fetch path body).

Definition startDeepfakeChallenge : M (AppState * world) unit :=
  setLoading true;;
  setFeedback JNull;;
  try_finally
    (try_catch
       (let text := lit "This is a highly confidential message from the executive office. We need you to authorize the transfer immediately to avoid any legal complications." in
        audio ← on_snd
          (generateDeepfakeAudio GEMINI_API_KEY generateContent text);
        setDeepfakeAudio (if falsy_string (Some audio) then None
                          else Some audio);;
        (* Currently always synthetic for the demo *)
        setDeepfakeSolution (Some synthetic);;
        setCurrentView deepfake_sim)
       (λ e,
        on_snd (console_error "" (Some e));;
        on_snd (emit (Alert "Failed to generate deepfake challenge. Please check your connection."))))
    (setLoading false).

Definition handleDeepfakeGuess (guess : Solution)
    : M (AppState * world) unit :=
  solution ← gets (λ s, deepfakeSolution (fst s));
  match solution with
  | None => mret ()
  | Some solution =>
      let isCorrect := bool_decide (guess = solution) in
      let feedbackMsg :=
        if isCorrect
        then lit "Correct! You identified the synthetic patterns in the voice. Notice the slight lack of natural breathing and the consistent pitch."
        else lit "Incorrect. This was an AI-generated clone. Modern deepfakes can be extremely convincing, but often lack the subtle emotional variance of human speech." in
      let result := JObj
        [("score", JNum (if isCorrect then 100 else 0)%Q);
         ("feedback", JStr feedbackMsg);
         ("correctFlags",
          JArr (if isCorrect then [JStr (lit "AI Voice Pattern")] else []));
         ("missedFlags",
          JArr (if isCorrect then []
                else [JStr (lit "Synthetic Pitch Consistency")]))] in
      setFeedback result;;
      (* Save to DB *)
      fetch_POST "/api/results" (JObj
        [("simulation_id", JNum 3%Q); (* Deepfake Lab ID *)
         ("is_correct", JBool isCorrect);
         ("response_time", JNum 15000%Q);
         ("feedback", JStr feedbackMsg)]);;
      fetchStats;;
      fetchReports
  end.

Definition submitAnalysis : M (AppState * world) unit :=
  st ← gets fst;
  let currentSim :=
    if bool_decide (currentView st = email_sim)
    then emailSim st else phoneSim st in
  if negb (truthy (Some currentSim)) then mret ()
  else
    setLoading true;;
    try_finally
      (try_catch
         (result ← on_snd
            (analyzeSimulationResponse GEMINI_API_KEY generateContent
               JSON_parse (JSON_stringify currentSim) (selectedFlags st));
          setFeedback result;;
          (* Save to DB *)
          score ← lift (get result "score");
          fb ← lift (get result "feedback");
          fetch_POST "/api/results" (JObj
            ([("simulation_id",
               JNum (if bool_decide (currentView st = email_sim)
                     then 1 else 2)%Q);
              ("is_correct", JBool (greater_than score 70%Q));
              ("response_time", JNum 45000%Q)]
             ++ match fb with
                | Some f => [("feedback", f)]
                | None => []
                end));;
          fetchStats;;
          fetchReports)
         (λ e, on_snd (console_error "" (Some e))))
      (setLoading false).
End Handlers.

End App.

(** ** The database and the write endpoints of the Express server *)

Module Server.
Import JS Eff.

(** A value bound to a statement or stored in a column. *)
Inductive sqlvalue : Type :=
  | SqlNull
  | SqlNum (q : Q)
  | SqlText (s : jsstring).

(** The binder of better-sqlite3, behind [statement.run(...args)].

    One value for one parameter: a number, a string, or null and
    undefined, which both bind NULL; any other value is a TypeError. *)
Definition bind_value (v : option json) : completion sqlvalue :=
  match v with
  | None | Some JNull => Normal SqlNull
  | Some (JNum q) => Normal (SqlNum q)
  | Some (JStr s) => Normal (SqlText s)
  | _ => Throw TypeError
  end.

(** Values for the next parameters, after those in [bound]: the type of a
    value is looked at first, then whether a parameter is left for it,
    which is a RangeError ("Too many parameter values were provided") if
    not. *)
Fixpoint bind_values (params : nat) (bound : list sqlvalue)
    (items : list (option json)) : completion (list sqlvalue) :=
  match items with
  | [] => Normal bound
  | v :: rest =>
      x ← bind_value v;
      if (length bound <? params)%nat
      then bind_values params (bound ++ [x]) rest
      else Throw RangeError
  end.

(** The arguments from left to right: an array gives its elements as
    values; a plain object gives the named parameters, of which the
    statements of this server have none, and may come once only
    (TypeError); any other argument is one value. At the end a parameter
    without a value is a RangeError ("Too few parameter values were
    provided"). *)
Fixpoint bind_args (params : nat) (bound : list sqlvalue)
    (bound_object : bool) (args : list (option json))
    : completion (list sqlvalue) :=
  match args with
  | [] =>
      if (length bound <? params)%nat then Throw RangeError
      else Normal bound
  | Some (JArr items) :: rest =>
      bound' ← bind_values params bound (Some <$> items);
      bind_args params bound' bound_object rest
  | Some (JObj _) :: rest =>
      if bound_object then Throw TypeError
      else bind_args params bound true rest
  | v :: rest =>
      bound' ← bind_values params bound [v];
      bind_args params bound' bound_object rest
  end.

(** The values of the [params] parameters of a statement, in order. *)
Definition bind (params : nat) (args : list (option json))
    : completion (list sqlvalue) :=
  bind_args params [] false args.

(** The value of the i-th parameter; [bind] gives one for each. *)
Definition parameter (i : nat) (values : list sqlvalue) : sqlvalue :=
  nth i values SqlNull.

Record department : Type := {
  dept_name : jsstring;
  risk_score : Z
}.

Record employee : Type := {
  name : jsstring;
  email : jsstring;
  dept_id : option Z;
  security_score : Z
}.

Record simulation : Type := {
  sim_type : jsstring;
  difficulty : Z
}.

Record campaign : Type := {
  campaign_name : sqlvalue;
  status : jsstring;
  target_dept_id : sqlvalue;
  campaign_sim_type : sqlvalue
}.

Record result : Type := {
  employee_id : sqlvalue;
  simulation_id : sqlvalue;
  campaign_id : sqlvalue;
  is_correct : sqlvalue;
  response_time : sqlvalue;
  feedback : sqlvalue
}.

(** A table with an [INTEGER PRIMARY KEY AUTOINCREMENT]: the rows by id
    and the largest id ever given out. *)
Record table (A : Type) : Type := {
  rows : gmap Z A;
  seq : Z
}.
Global Arguments rows {A} t.
Global Arguments seq {A} t.

Definition empty_table {A} : table A := {| rows := ∅; seq := 0 |}.

(** [INSERT]: the new row and its id, [lastInsertRowid]. *)
Definition insert_row {A} (r : A) (t : table A) : table A * Z :=
  ({| rows := <[seq t + 1 := r]> (rows t); seq := seq t + 1 |}, seq t + 1).

Record db : Type := {
  departments : table department;
  employees : table employee;
  simulations : table simulation;
  campaigns : table campaign;
  results : table result
}.

Definition empty_db : db :=
  {| departments := empty_table; employees := empty_table;
     simulations := empty_table; campaigns := empty_table;
     results := empty_table |}.

Definition with_employees (f : table employee → table employee) (d : db)
    : db :=
  {| departments := departments d; employees := f (employees d);
     simulations := simulations d; campaigns := campaigns d;
     results := results d |}.

Definition with_score (s : Z) (e : employee) : employee :=
  {| name := name e; email := email e; dept_id := dept_id e;
     security_score := s |}.

Section Database.
(** Whether the connection enforces foreign keys. *)
Variable foreign_keys : bool.
(** The integer that SQLite reads in a text compared with an integer
    column, if the text is one. *)
Variable text_to_int : jsstring → option Z.

(** The row id that a bound value equals in [WHERE id = ?]. *)
Definition sql_int (v : sqlvalue) : option Z :=
  match v with
  | SqlNull => None
  | SqlNum q =>
      if Qeq_bool q (inject_Z (Qfloor q)) then Some (Qfloor q) else None
  | SqlText s => text_to_int s
  end.

(** A foreign key holds when the value is NULL or names a parent row. *)
Definition references {A} (parent : table A) (v : sqlvalue) : bool :=
  match v with
  | SqlNull => true
  | _ =>
      match sql_int v with
      | Some id => bool_decide (is_Some (rows parent !! id))
      | None => false
      end
  end.

(** [SELECT id FROM departments WHERE name = ?] *)
Definition department_id (d : db) (n : jsstring) : option Z :=
  fst <$> head (filter (λ kv, dept_name (snd kv) = n)
                  (map_to_list (rows (departments d)))).

(** [INSERT INTO departments (name, risk_score)]; names are unique. *)
Definition insert_department (n : jsstring) (risk : Z) : M db Z := λ d,
  if bool_decide (is_Some (department_id d n))
  then (Throw (ErrorMsg "UNIQUE constraint failed: departments.name"), d)
  else
    let '(t, id) :=
      insert_row {| dept_name := n; risk_score := risk |} (departments d) in
    (Normal id,
     {| departments := t; employees := employees d;
        simulations := simulations d; campaigns := campaigns d;
        results := results d |}).

(** [INSERT INTO employees (name, email, dept_id)]: the score takes its
    default, 100; emails are unique. *)
Definition insert_employee (n e dept : jsstring) : M db Z := λ d,
  if bool_decide (Exists (λ kv, email (snd kv) = e)
                    (map_to_list (rows (employees d))))
  then (Throw (ErrorMsg "UNIQUE constraint failed: employees.email"), d)
  else
    let '(t, id) :=
      insert_row {| name := n; email := e; dept_id := department_id d dept;
                    security_score := 100 |} (employees d) in
    (Normal id, with_employees (λ _, t) d).

(** [INSERT INTO simulations (type, difficulty)] *)
Definition insert_simulation (ty : jsstring) (diff : Z) : M db Z := λ d,
  let '(t, id) :=
    insert_row {| sim_type := ty; difficulty := diff |} (simulations d) in
  (Normal id,
   {| departments := departments d; employees := employees d;
      simulations := t; campaigns := campaigns d; results := results d |}).

(** Storing a row of [results], with its three foreign keys. *)
Definition store_result (r : result) : M db Z := λ d,
  if foreign_keys
     && negb (references (employees d) (employee_id r)
              && references (simulations d) (simulation_id r)
              && references (campaigns d) (campaign_id r))
  then (Throw (ErrorMsg "FOREIGN KEY constraint failed"), d)
  else
    let '(t, id) := insert_row r (results d) in
    (Normal id,
     {| departments := departments d; employees := employees d;
        simulations := simulations d; campaigns := campaigns d;
        results := t |}).

(** The row of [results] with the values of the six parameters. *)
Definition result_row (values : list sqlvalue) : result :=
  {| employee_id := parameter 0 values;
     simulation_id := parameter 1 values;
     campaign_id := parameter 2 values;
     is_correct := parameter 3 values;
     response_time := parameter 4 values;
     feedback := parameter 5 values |}.

(** [INSERT INTO results (...) VALUES (?, ?, ?, ?, ?, ?)], run with six
    arguments, of which the fourth is the number [correct]. A column holds
    the value bound to it; the affinity of the column is not applied. *)
Definition insert_result (emp sim camp : option json) (correct : Z)
    (time fb : option json) : M db Z :=
  values ← lift (bind 6 [emp; sim; camp; Some (JNum (inject_Z correct));
                         time; fb]);
  store_result (result_row values).

(** [UPDATE employees SET security_score = f(security_score)
    WHERE id = ?] *)
Definition update_score (f : Z → Z) (id : option json) : M db unit :=
  values ← lift (bind 1 [id]);
  modify (with_employees (λ t,
    match sql_int (parameter 0 values) with
    | Some k =>
        {| rows := alter (λ e, with_score (f (security_score e)) e) k
                     (rows t);
           seq := seq t |}
    | None => t
    end)).

(** Storing a row of [campaigns], with its foreign key. *)
Definition store_campaign (c : campaign) : M db Z := λ d,
  if foreign_keys && negb (references (departments d) (target_dept_id c))
  then (Throw (ErrorMsg "FOREIGN KEY constraint failed"), d)
  else
    let '(t, id) := insert_row c (campaigns d) in
    (Normal id,
     {| departments := departments d; employees := employees d;
        simulations := simulations d; campaigns := t;
        results := results d |}).

(** [INSERT INTO campaigns (name, target_dept_id, sim_type, status)
    VALUES (?, ?, ?, 'active')] *)
Definition insert_campaign (n dept ty : option json) : M db Z :=
  values ← lift (bind 3 [n; dept; ty]);
  store_campaign {| campaign_name := parameter 0 values;
                    status := lit "active";
                    target_dept_id := parameter 1 values;
                    campaign_sim_type := parameter 2 values |}.

(** Seed initial data if empty. [random i] is the value of
    [Math.floor(Math.random() * 40)] at the i-th department. *)
Definition seed (random : nat → Z) : M db unit :=
  deptCount ← gets (λ d, size (rows (departments d)));
  if bool_decide (deptCount = 0%nat) then
    let depts := [lit "Engineering"; lit "Finance"; lit "Marketing";
                  lit "HR"; lit "Sales"] in
    (fix forEach (l : list jsstring) (i : nat) : M db unit :=
       match l with
       | [] => mret ()
       | dn :: l' =>
           insert_department dn (random i + 60);; forEach l' (S i)
       end) depts 0%nat;;
    insert_employee (lit "Alice Chen") (lit "alice@corp.com")
      (lit "Engineering");;
    insert_employee (lit "Bob Smith") (lit "bob@corp.com")
      (lit "Finance");;
    insert_employee (lit "Charlie Day") (lit "charlie@corp.com")
      (lit "Marketing");;
    mret ()
  else mret ().

(** [app.post("/api/admin/campaigns", ...)] *)
Definition post_campaigns (body : json) : M db json :=
  n ← lift (get body "name");
  dept ← lift (get body "target_dept_id");
  ty ← lift (get body "sim_type");
  id ← insert_campaign n dept ty;
  mret (JObj [("id", JNum (inject_Z id))]).

(** [app.post("/api/results", ...)] *)
Definition post_results (body : json) : M db json :=
  employee_id ← lift (get body "employee_id");
  simulation_id ← lift (get body "simulation_id");
  campaign_id ← lift (get body "campaign_id");
  is_correct ← lift (get body "is_correct");
  response_time ← lift (get body "response_time");
  feedback ← lift (get body "feedback");
  simId ← (if negb (truthy simulation_id) then
             id ← insert_simulation (lit "unknown") 1;
             mret (Some (JNum (inject_Z id)))
           else mret simulation_id);
  id ← insert_result (or_else employee_id (Some (JNum 1%Q))) simId
         (or_else campaign_id (Some JNull))
         (if truthy is_correct then 1 else 0)
         (or_else response_time (Some (JNum 0%Q)))
         (or_else feedback (Some (JStr [])));
  (* Update employee score *)
  (if negb (truthy is_correct) then
     update_score (λ s, Z.max 0 (s - 5))
       (or_else employee_id (Some (JNum 1%Q)))
   else
     update_score (λ s, Z.min 100 (s + 2))
       (or_else employee_id (Some (JNum 1%Q))));;
  mret (JObj [("id", JNum (inject_Z id))]).

(** The states of the database: the first start seeds the empty
    database; then the server restarts or serves a write request. *)
Inductive reachable : db → Prop :=
  | reach_start random :
      reachable (snd (seed random empty_db))
  | reach_restart random d :
      reachable d → reachable (snd (seed random d))
  | reach_results body d :
      reachable d → reachable (snd (post_results body d))
  | reach_campaigns body d :
      reachable d → reachable (snd (post_campaigns body d)).
End Database.

(** A property of every row of [employees]. *)
Definition every_employee (φ : employee → Prop) (d : db) : Prop :=
  ∀ id e, rows (employees d) !! id = Some e → φ e.

(** The invariant: every security score lies between 0 and 100. *)
Definition scores_in_range : db → Prop :=
  every_employee (λ e, 0 ≤ security_score e ≤ 100).

(** The score after a result: two points more for a correct answer, five
    less for a wrong one, kept within 0 and 100. *)
Definition new_score (correct : bool) (s : Z) : Z :=
  if correct then Z.min 100 (s + 2) else Z.max 0 (s - 5).

End Server.

(** ** [window.atob]

    The decoder of the HTML standard (forgiving-base64 decode), used to run
    [playAudio] on concrete strings: ASCII white space is dropped, up to two
    trailing [=] are dropped when the length is a multiple of four, a
    remaining length of 1 modulo 4 or a character outside the alphabet is an
    InvalidCharacterError, and every four characters give three bytes. *)

Module Base64.
Import JS.

Definition is_ascii_whitespace (c : Z) : bool :=
  bool_decide (c ∈ [9; 10; 12; 13; 32]).

Definition digit (c : Z) : option Z :=
  if (65 <=? c) && (c <=? 90) then Some (c - 65)
  else if (97 <=? c) && (c <=? 122) then Some (c - 71)
  else if (48 <=? c) && (c <=? 57) then Some (c + 4)
  else if c =? 43 then Some 62
  else if c =? 47 then Some 63
  else None.

Definition strip_padding (s : jsstring) : jsstring :=
  if bool_decide (length s `mod` 4 = 0)%nat then
    match reverse s with
    | 61 :: 61 :: r => reverse r
    | 61 :: r => reverse r
    | _ => s
    end
  else s.

Fixpoint groups (ds : list Z) : jsstring :=
  match ds with
  | a :: b :: c :: d :: rest =>
      (a * 4 + b / 16) :: (b mod 16 * 16 + c / 4) :: (c mod 4 * 64 + d)
      :: groups rest
  | [a; b; c] => [a * 4 + b / 16; b mod 16 * 16 + c / 4]
  | [a; b] => [a * 4 + b / 16]
  | _ => []
  end.

Definition atob (s : jsstring) : completion jsstring :=
  let s := strip_padding (filter (λ c, is_ascii_whitespace c = false) s) in
  if bool_decide (length s `mod` 4 = 1)%nat then Throw InvalidCharacterError
  else
    match mapM digit s with
    | Some ds => Normal (groups ds)
    | None => Throw InvalidCharacterError
    end.

End Base64.

(** ** A reader of RIFF/WAVE files

    The reference reader against which the header is checked, written from
    the RIFF container format: a file is the tag "RIFF", a little-endian
    uint32 size, and that many bytes of content; the content is the form
    type "WAVE" followed by chunks, each a four-byte tag, a uint32 size and
    that many bytes, padded to an even length when another chunk follows.
    The "fmt " chunk carries the PCM parameters; the "data" chunk carries
    the samples. *)

Module WavReader.
Import JS.

Record fmt_chunk : Type := {
  audioFormat : Z;
  numChannels : Z;
  sampleRate : Z;
  byteRate : Z;
  blockAlign : Z;
  bitsPerSample : Z
}.

Record wav_file : Type := {
  format : fmt_chunk;
  data_chunk : list byte
}.

Fixpoint bytes_eqb (a b : list byte) : bool :=
  match a, b with
  | [], [] => true
  | x :: a', y :: b' => Byte.eqb x y && bytes_eqb a' b'
  | _, _ => false
  end.

Definition has_tag (buf : list byte) (offset : nat) (tag : string) : bool :=
  bytes_eqb (slice buf offset 4) (list_byte_of_string tag).

Definition parse_fmt (body : list byte) : option fmt_chunk :=
  af ← getUint16_le body 0;
  ch ← getUint16_le body 2;
  sr ← getUint32_le body 4;
  br ← getUint32_le body 8;
  ba ← getUint16_le body 12;
  bits ← getUint16_le body 14;
  Some {| audioFormat := af; numChannels := ch; sampleRate := sr;
          byteRate := br; blockAlign := ba; bitsPerSample := bits |}.

(** Reads chunks until the data chunk; [fmt] is the format chunk seen so
    far. Every round consumes at least the eight bytes of a chunk header,
    so the length of the content is enough fuel. *)
Fixpoint parse_chunks (fuel : nat) (fmt : option fmt_chunk)
    (buf : list byte) : option wav_file :=
  match fuel with
  | O => None
  | S fuel' =>
      size ← getUint32_le buf 4;
      let n := Z.to_nat size in
      let body := drop 8 buf in
      if (length body <? n)%nat then None
      else if has_tag buf 0 "fmt " then
        f ← parse_fmt (take n body);
        parse_chunks fuel' (Some f) (drop (n + n mod 2) body)
      else if has_tag buf 0 "data" then
        f ← fmt;
        Some {| format := f; data_chunk := take n body |}
      else parse_chunks fuel' fmt (drop (n + n mod 2) body)
  end.

Definition parse_wav (file : list byte) : option wav_file :=
  if has_tag file 0 "RIFF" then
    riff_size ← getUint32_le file 4;
    let n := Z.to_nat riff_size in
    if (length (drop 8 file) <? n)%nat then None
    else
      let content := take n (drop 8 file) in
      if has_tag content 0 "WAVE"
      then parse_chunks (length content) None (drop 4 content)
      else None
  else None.

End WavReader.

(** ** Layouts and predicates that the statements use *)

Module Layout.
Import JS Env WavReader.

(** The little-endian encodings of a value that fits the field. *)
Definition uint16_le (v : Z) : list byte :=
  [byte_of_Z v; byte_of_Z (v / 2 ^ 8)].

Definition uint32_le (v : Z) : list byte :=
  [byte_of_Z v; byte_of_Z (v / 2 ^ 8);
   byte_of_Z (v / 2 ^ 16); byte_of_Z (v / 2 ^ 24)].

(** The body of the format chunk. *)
Definition fmt_body (sampleRate : Z) : list byte :=
  [x01; x00] ++ [x01; x00] ++ uint32_le (ToUint32 sampleRate)
  ++ uint32_le (ToUint32 (sampleRate * 2)) ++ [x02; x00] ++ [x10; x00].

(** The 44 bytes of the header, field by field. *)
Definition header_bytes (dataLength sampleRate : Z) : list byte :=
  [x52; x49; x46; x46] ++ uint32_le (ToUint32 (36 + dataLength))
  ++ [x57; x41; x56; x45] ++ [x66; x6d; x74; x20]
  ++ [x10; x00; x00; x00] ++ fmt_body sampleRate
  ++ [x64; x61; x74; x61] ++ uint32_le (ToUint32 dataLength).

(** What a reader finds in a mono 16-bit PCM file. *)
Definition pcm_format (rate byte_rate : Z) : fmt_chunk :=
  {| audioFormat := 1; numChannels := 1; sampleRate := rate;
     byteRate := byte_rate; blockAlign := 2; bitsPerSample := 16 |}.

(** A payload of 4 GiB, the first length that the data length field
    cannot hold. *)
Definition four_gib : list byte := replicate (Z.to_nat (2 ^ 32)) x00.

(** Every piece of inline data of a response, over all candidates and all
    parts. *)
Definition part_audio (p : Part) : list jsstring :=
  match inlineData p with
  | Some {| data := Some (x :: d) |} => [x :: d]
  | _ => []
  end.

Definition candidate_audio (c : Candidate) : list jsstring :=
  match content c with
  | Some {| parts := Some ps |} => concat (part_audio <$> ps)
  | _ => []
  end.

Definition inline_audio (response : GenerateContentResponse)
    : list jsstring :=
  concat (candidate_audio <$> default [] (candidates response)).

(** The request that [generateDeepfakeAudio] sends. *)
Definition tts_request (text : jsstring) : GenerateContentRequest :=
  {| model := "gemini-2.5-flash-preview-tts";
     contents := text;
     config := Speech "Charon" |}.

(** The outcome that [handleDeepfakeGuess] shows. *)
Definition local_result (isCorrect : bool) : json :=
  JObj
    [("score", JNum (if isCorrect then 100 else 0)%Q);
     ("feedback",
      JStr (if isCorrect
            then lit "Correct! You identified the synthetic patterns in the voice. Notice the slight lack of natural breathing and the consistent pitch."
            else lit "Incorrect. This was an AI-generated clone. Modern deepfakes can be extremely convincing, but often lack the subtle emotional variance of human speech."));
     ("correctFlags",
      JArr (if isCorrect then [JStr (lit "AI Voice Pattern")] else []));
     ("missedFlags",
      JArr (if isCorrect then []
            else [JStr (lit "Synthetic Pitch Consistency")]))].

(** The text that [startDeepfakeChallenge] has read aloud. *)
Definition challenge_text : jsstring :=
  lit "This is a highly confidential message from the executive office. We need you to authorize the transfer immediately to avoid any legal complications.".

(** A text that is empty or consists only of white space. *)
Definition blank (text : jsstring) : Prop :=
  Forall (λ c, Gemini.is_white_space c = true) text.

End Layout.

(** ** Concrete inputs *)

Module Demo.
Import JS Env Server.
(* App is used qualified: its field names are those of the hooks. *)

Definition world0 : world := {| trace := []; object_urls := [] |}.

(** An API key and a remote model that answers without any audio. *)
Definition key : option jsstring := Some (lit "key").
Definition silent : GenerateContentResponse :=
  {| candidates := Some []; text := None |}.

(** The page during a deepfake challenge and during an email simulation,
    a backend that accepts every POST, and a remote model whose answer
    parses to a score of 85. *)
Definition challenge : App.AppState :=
  {| App.currentView := App.deepfake_sim; App.emailSim := JNull;
     App.phoneSim := JNull; App.deepfakeAudio := Some (lit "AAEC");
     App.deepfakeSolution := Some App.synthetic; App.loading := false;
     App.selectedFlags := []; App.feedback := JNull |}.

Definition email : App.AppState :=
  {| App.currentView := App.email_sim;
     App.emailSim := JObj [("subject", JStr (lit "Invoice"))];
     App.phoneSim := JNull; App.deepfakeAudio := None;
     App.deepfakeSolution := None; App.loading := false;
     App.selectedFlags := [lit "sender"]; App.feedback := JNull |}.

Definition fetch_ok : string → json → completion unit := λ _ _, Normal ().

Definition answer : GenerateContentResponse :=
  {| candidates := Some []; text := Some (lit "{...}") |}.

Definition verdict : json :=
  JObj [("score", JNum 85%Q); ("missedFlags", JArr []);
        ("correctFlags", JArr [JStr (lit "sender")]);
        ("feedback", JStr (lit "Well done."))].

Definition parse_verdict : option jsstring → completion json :=
  λ _, Normal verdict.

Definition number_of (v : option json) : option Q :=
  match v with
  | Some (JNum q) => Some q
  | _ => None
  end.

(** The seeded database and a request that reports a wrong answer. *)
Definition db0 : db := snd (seed (λ _, 7) empty_db).
Definition wrong_answer : json := JObj [("is_correct", JBool false)].

End Demo.

(** ** The other service wrappers of [geminiService.ts] *)

Module Generators.
Import JS Eff Env Gemini.

(** A double quote inside a template literal. *)
Definition quote : jsstring := [34].

(** The own properties that [{ ...v }] copies: the fields of an object,
    the indexed elements of an array or of a string, nothing otherwise. *)
Definition spread (v : json) : list (string * json) :=
  match v with
  | JObj fields => fields
  | JArr items => imap (λ i x, (pretty i, x)) items
  | JStr s => imap (λ i c, (pretty i, JStr [c])) s
  | _ => []
  end.

Section Service.
Variable GEMINI_API_KEY : option jsstring.
Variable generateContent :
  GenerateContentRequest → completion GenerateContentResponse.
Variable JSON_parse : option jsstring → completion json.

(** [difficulty] is an integer; [${difficulty}] is its decimal form. *)
Definition generatePhishingEmail (difficulty : Z) : M world json :=
  ai ← lift (getAI GEMINI_API_KEY);
  let prompt :=
    lit "Generate a realistic phishing email for employee training. 
  Difficulty Level: " ++ lit (pretty difficulty) ++ lit " (1 = obvious, 5 = extremely sophisticated).
  The email should include:
  - Subject line
  - Sender name and email (suspicious but realistic)
  - Body content (Markdown)
  - A list of " ++ quote ++ lit "red flags" ++ quote ++ lit " that the user should identify.
  - A brief explanation of why this is a phishing attempt." in
  (* Using Flash Lite for faster generation of the simulation content *)
  response ← models_generateContent generateContent ai
    {| model := "gemini-flash-lite-latest";
       contents := prompt;
       config := JsonResponse
                   ["subject"; "senderName"; "senderEmail"; "body";
                    "redFlags"; "explanation"] |};
  lift (JSON_parse (text response)).

Definition quickSecurityChat (message : jsstring)
    : M world (option jsstring) :=
  ai ← lift (getAI GEMINI_API_KEY);
  response ← models_generateContent generateContent ai
    {| model := "gemini-flash-lite-latest";
       contents := message;
       config := SystemInstruction "You are a specialized cybersecurity training assistant. Provide brief, accurate, and actionable advice on digital safety and threat detection. Keep responses under 3 sentences for maximum speed." |};
  mret (text response).

(** [generateDeepfakeAudio] on a value of any type, as
    [generatePhoneSimulation] calls it with [data.attackerScript]: a string
    goes through the function; a falsy value fails the guard [!text] like
    the empty string; any other value has no [trim], and the TypeError of
    the guard is caught, logged and thrown again. *)
Definition generateDeepfakeAudio_any (text : option json) : M world jsstring :=
  match text with
  | Some (JStr s) => generateDeepfakeAudio GEMINI_API_KEY generateContent s
  | _ =>
      if truthy text then
        ai ← lift (getAI GEMINI_API_KEY);
        try_catch
          (throw TypeError)
          (λ error,
           console_error "Deepfake audio generation failed:" (Some error);;
           throw error)
      else generateDeepfakeAudio GEMINI_API_KEY generateContent []
  end.

Definition generatePhoneSimulation (difficulty : Z) : M world json :=
  ai ← lift (getAI GEMINI_API_KEY);
  let prompt :=
    lit "Generate a script for a social engineering phone call (vishing).
  Difficulty Level: " ++ lit (pretty difficulty) ++ lit ".
  The script should be for an attacker pretending to be from IT, HR, or a Bank.
  Include:
  - Attacker's opening line
  - The " ++ quote ++ lit "hook" ++ quote ++ lit " (the reason for the call)
  - The " ++ quote ++ lit "ask" ++ quote ++ lit " (what sensitive info they want)
  - A list of red flags in the conversation." in
  (* Using Flash Lite for fast script generation *)
  response ← models_generateContent generateContent ai
    {| model := "gemini-flash-lite-latest";
       contents := prompt;
       config := JsonResponse
                   ["scenario"; "attackerScript"; "redFlags";
                    "explanation"] |};
  data ← lift (JSON_parse (text response));
  (* Also generate the audio for the opening line *)
  attackerScript ← lift (get data "attackerScript");
  audioBase64 ← generateDeepfakeAudio_any attackerScript;
  mret (JObj (spread data ++ [("audioBase64", JStr audioBase64)])).
End Service.

End Generators.

(** ** The other handlers of [App.tsx] *)

Module Page.
Import JS Eff Env Gemini Generators Playback App.




(** The chat of the assistant panel. *)
Inductive ChatRole : Type := from_user | from_ai.

Record ChatEntry : Type := {
  role : ChatRole;
  entry_text : jsstring
}.

Record ChatState : Type := {
  chatMessage : jsstring;
  chatHistory : list ChatEntry;
  isChatLoading : bool
}.

Definition setChatMessage (m : jsstring) : M (ChatState * world) unit :=
  on_fst (modify (λ st,
    {| chatMessage := m; chatHistory := chatHistory st;
       isChatLoading := isChatLoading st |})).

(** [setChatHistory(prev => f prev)] *)
Definition setChatHistory (f : list ChatEntry → list ChatEntry)
    : M (ChatState * world) unit :=
  on_fst (modify (λ st,
    {| chatMessage := chatMessage st; chatHistory := f (chatHistory st);
       isChatLoading := isChatLoading st |})).

Definition setIsChatLoading (b : bool) : M (ChatState * world) unit :=
  on_fst (modify (λ st,
    {| chatMessage := chatMessage st; chatHistory := chatHistory st;
       isChatLoading := b |})).

(** [setIsPlaying]; the hook [isPlaying] is kept beside the hooks of
    [AppState]. *)
Definition setIsPlaying (b : bool) : M ((bool * AppState) * world) unit :=
  on_fst (modify (λ s, (b, snd s))).

Section Handlers.
Variable GEMINI_API_KEY : option jsstring.
Variable generateContent :
  GenerateContentRequest → completion GenerateContentResponse.
Variable JSON_parse : option jsstring → completion json.
Variable atob : jsstring → completion jsstring.

(** [audio.onended = () => setIsPlaying(false)] runs when the playback
    ends, after the call, and is not part of it. *)
Definition handlePlayDeepfake : M ((bool * AppState) * world) unit :=
  deepfakeAudio ← gets (λ s, deepfakeAudio (snd (fst s)));
  if falsy_string deepfakeAudio then mret ()
  else
    audio ← on_snd (playAudio atob (default [] deepfakeAudio));
    match audio with
    | Some _ => setIsPlaying true
    | None => mret ()
    end.

Definition handleSendChatMessage : M (ChatState * world) unit :=
  st ← gets fst;
  if falsy_string (Some (trim (chatMessage st))) || isChatLoading st
  then mret ()
  else
    let userMsg := chatMessage st in
    setChatMessage [];;
    setChatHistory (λ prev,
      prev ++ [{| role := from_user; entry_text := userMsg |}]);;
    setIsChatLoading true;;
    try_finally
      (try_catch
         (aiResponse ← on_snd
            (quickSecurityChat GEMINI_API_KEY generateContent userMsg);
          setChatHistory (λ prev,
            prev ++ [{| role := from_ai;
                        entry_text := if falsy_string aiResponse
                                      then lit "No response"
                                      else default [] aiResponse |}]))
         (λ e, on_snd (console_error "" (Some e))))
      (setIsChatLoading false).


End Handlers.

End Page.

(** ** The read endpoints of the admin dashboard and requests in a row *)

Module Admin.
Import JS Eff Server.

(** A property of every row of [results]. *)
Definition every_result (φ : result → Prop) (d : db) : Prop :=
  ∀ id r, rows (results d) !! id = Some r → φ r.

(** [SUM] and [AVG] over the selected rows: NULL when there is none. *)
Definition sql_sum (l : list Z) : option Z :=
  match l with
  | [] => None
  | _ => Some (foldr Z.add 0 l)
  end.


Definition json_of_int (z : option Z) : json :=
  match z with
  | Some z => JNum (inject_Z z)
  | None => JNull
  end.

(** [is_correct = k] on a stored value: NULL is equal to no integer. *)
Definition equals (text_to_int : jsstring → option Z) (v : sqlvalue) (k : Z)
    : bool :=
  bool_decide (sql_int text_to_int v = Some k).

(** The three aggregates of [GET /api/admin/overview]: the row count, the
    sum of [CASE WHEN is_correct = 1 THEN 1 ELSE 0 END] and the sum of
    [CASE WHEN is_correct = 0 THEN 1 ELSE 0 END] over [results]. *)
Definition overview_counts (text_to_int : jsstring → option Z) (d : db)
    : Z * option Z * option Z :=
  let rs := snd <$> map_to_list (rows (results d)) in
  (Z.of_nat (length rs),
   sql_sum ((λ r, if equals text_to_int (is_correct r) 1 then 1 else 0)
            <$> rs),
   sql_sum ((λ r, if equals text_to_int (is_correct r) 0 then 1 else 0)
            <$> rs)).

(** [app.get("/api/admin/overview", ...)]: the row of aggregates, or the
    zeros if there were no row. *)
Definition get_admin_overview (text_to_int : jsstring → option Z) (d : db)
    : json :=
  let '(total_sims, total_reports, total_compromises) :=
    overview_counts text_to_int d in
  let stats := JObj [("total_sims", JNum (inject_Z total_sims));
                     ("total_reports", json_of_int total_reports);
                     ("total_compromises", json_of_int total_compromises)] in
  default JNull
    (or_else (Some stats)
       (Some (JObj [("total_sims", JNum 0%Q); ("total_reports", JNum 0%Q);
                    ("total_compromises", JNum 0%Q)]))).



Section Requests.
Variable foreign_keys : bool.
Variable text_to_int : jsstring → option Z.

(** Requests to [POST /api/results] one after the other, every one of
    them served. *)
Fixpoint serve_all (bodies : list json) (d : db) : option db :=
  match bodies with
  | [] => Some d
  | body :: rest =>
      match post_results foreign_keys text_to_int body d with
      | (Normal _, d') => serve_all rest d'
      | (Throw _, _) => None
      end
  end.

(** The employee that a request names, [employee_id || 1], and the
    verdict it carries. *)
Definition targets (k : Z) (body : json) : Prop :=
  ∃ employee_id target,
    get body "employee_id" = Normal employee_id
    ∧ bind 1 [or_else employee_id (Some (JNum 1%Q))] = Normal [target]
    ∧ sql_int text_to_int target = Some k.

Definition verdict (correct : bool) (body : json) : Prop :=
  ∃ is_correct,
    get body "is_correct" = Normal is_correct ∧ truthy is_correct = correct.
End Requests.

(** The body that [handleDeepfakeGuess] posts. *)
Definition deepfake_body (isCorrect : bool) : json :=
  JObj
    [("simulation_id", JNum 3%Q);
     ("is_correct", JBool isCorrect);
     ("response_time", JNum 15000%Q);
     ("feedback",
      JStr (if isCorrect
            then lit "Correct! You identified the synthetic patterns in the voice. Notice the slight lack of natural breathing and the consistent pitch."
            else lit "Incorrect. This was an AI-generated clone. Modern deepfakes can be extremely convincing, but often lack the subtle emotional variance of human speech."))].

End Admin.

(** ** Shapes of the database *)

Module Tables.
Import JS Eff Server.

(** The ids of a table lie between 1 and the largest id given out. *)
Definition well_numbered {A} (t : table A) : Prop :=
  0 ≤ seq t ∧ ∀ id, is_Some (rows t !! id) → 0 < id ≤ seq t.

Definition well_numbered_db (d : db) : Prop :=
  well_numbered (departments d) ∧ well_numbered (employees d)
  ∧ well_numbered (simulations d) ∧ well_numbered (campaigns d)
  ∧ well_numbered (results d).

(** The same people in the same departments: nothing but the scores of
    the employees may differ. *)
Definition same_staff (d d' : db) : Prop :=
  departments d' = departments d
  ∧ seq (employees d') = seq (employees d)
  ∧ ∀ id,
      (λ e, (name e, email e, dept_id e)) <$> rows (employees d') !! id
      = (λ e, (name e, email e, dept_id e)) <$> rows (employees d) !! id.

(** The row that a request without [simulation_id] creates. *)
Definition unknown_simulation : simulation :=
  {| sim_type := lit "unknown"; difficulty := 1 |}.

(** The departments of the seed, in order. *)
Definition seeded_departments : list jsstring :=
  [lit "Engineering"; lit "Finance"; lit "Marketing"; lit "HR"; lit "Sales"].

(** The name, the email, the department and the score of an employee. *)
Definition card (e : employee) : jsstring * jsstring * option Z * Z :=
  (name e, email e, dept_id e, security_score e).

(** A stored verdict that counts as the integer 1 or as the integer 0. *)
Definition is_verdict (text_to_int : jsstring → option Z) (r : result)
    : Prop :=
  sql_int text_to_int (is_correct r) = Some 1
  ∨ sql_int text_to_int (is_correct r) = Some 0.

(** A field of a body that is one value for the binder: neither an array
    nor an object. *)
Definition single (v : option json) : bool :=
  match v with
  | Some (JArr _) | Some (JObj _) => false
  | _ => true
  end.

(** A body of [POST /api/results] in which each field that goes to the
    binder as it is holds one value. *)
Definition single_fields (body : json) : bool :=
  forallb (λ k, match get body k with
                | Normal v => single v
                | Throw _ => true
                end)
    ["employee_id"; "simulation_id"; "campaign_id"; "response_time";
     "feedback"].

End Tables.

(** ** States after a handler *)

Module Shapes.
Import JS Env App.

(** The page with another outcome shown, and with the hooks that the
    start of a simulation resets. *)
Definition with_feedback (f : json) (st : AppState) : AppState :=
  {| currentView := currentView st; emailSim := emailSim st;
     phoneSim := phoneSim st; deepfakeAudio := deepfakeAudio st;
     deepfakeSolution := deepfakeSolution st; loading := loading st;
     selectedFlags := selectedFlags st; feedback := f |}.


(** The world with more events, latest first. *)
Definition after (events : list event) (w : world) : world :=
  {| trace := events ++ trace w; object_urls := object_urls w |}.

Definition is_HttpPost (ev : event) : bool :=
  match ev with HttpPost _ _ => true | _ => false end.

End Shapes.

(** ** More concrete inputs *)

Module Samples.
Import JS Env.

(** An answer with audio in the first part, and one with audio in the
    second part only. *)
Definition spoken : GenerateContentResponse :=
  {| candidates :=
       Some [{| content :=
                  Some {| parts :=
                            Some [{| inlineData :=
                                       Some {| data :=
                                                 Some (lit "AAEC/w==") |} |}]
                       |} |}];
     text := None |}.

Definition audio_in_second_part : GenerateContentResponse :=
  {| candidates :=
       Some [{| content :=
                  Some {| parts :=
                            Some [{| inlineData := None |};
                                  {| inlineData :=
                                       Some {| data := Some (lit "AAEC") |} |}]
                       |} |}];
     text := None |}.

(** A vishing script, the answer that carries it, and a remote model that
    answers the speech model with audio and any other model with the
    script. *)
Definition script : json :=
  JObj [("scenario", JStr (lit "IT support"));
        ("attackerScript", JStr (lit "Hello, this is IT."));
        ("redFlags", JArr [JStr (lit "urgency")]);
        ("explanation", JStr (lit "Asks for a password."))].

Definition script_without_line : json :=
  JObj [("scenario", JStr (lit "IT support"))].

Definition script_answer : GenerateContentResponse :=
  {| candidates := Some []; text := Some (lit "{script}") |}.

Definition remote (req : GenerateContentRequest)
    : completion GenerateContentResponse :=
  if String.eqb (model req) "gemini-2.5-flash-preview-tts"
  then Normal spoken
  else Normal script_answer.

Definition parse_script : option jsstring → completion json :=
  λ _, Normal script.

Definition parse_script_without_line : option jsstring → completion json :=
  λ _, Normal script_without_line.

(** A remote model that is down. *)
Definition down (req : GenerateContentRequest)
    : completion GenerateContentResponse :=
  Throw (ApiError 503).

(** The assistant panel with a question typed in. *)
Definition chat : Page.ChatState :=
  {| Page.chatMessage := lit "Is this link safe?";
     Page.chatHistory := [];
     Page.isChatLoading := false |}.

Definition chat_answer (req : GenerateContentRequest)
    : completion GenerateContentResponse :=
  Normal {| candidates := Some []; text := Some (lit "Check the domain.") |}.

(** A backend that rejects every POST. *)
Definition fetch_down : string → json → completion unit :=
  λ _ _, Throw (ErrorMsg "Failed to fetch").

End Samples.

(** * Proofs *)

Import JS Eff Wav Env Playback WavReader Layout.

(** ** Facts about bytes and little-endian fields *)

Lemma ToUint8_range v : 0 ≤ ToUint8 v < 256.
Proof. unfold ToUint8. apply Z.mod_pos_bound. lia. Qed.

Lemma Z_of_byte_range b : 0 ≤ Z_of_byte b < 256.
Proof.
  unfold Z_of_byte. pose proof (Byte.to_N_bounded b). lia.
Qed.

Lemma Z_of_byte_of_Z v : Z_of_byte (byte_of_Z v) = ToUint8 v.
Proof.
  unfold Z_of_byte, byte_of_Z.
  pose proof (ToUint8_range v) as Hr.
  destruct (Byte.of_N (Z.to_N (ToUint8 v))) as [b|] eqn:E; simpl.
  - apply Byte.to_of_N in E. rewrite E. lia.
  - apply Byte.of_N_None_iff in E. lia.
Qed.

Lemma byte_of_Z_of_byte b : byte_of_Z (Z_of_byte b) = b.
Proof.
  unfold byte_of_Z, Z_of_byte, ToUint8.
  pose proof (Byte.to_N_bounded b) as Hb.
  rewrite Z.mod_small by lia.
  rewrite N2Z.id, Byte.of_to_N. reflexivity.
Qed.

Lemma le16_digits w :
  0 ≤ w < 2 ^ 16 →
  ToUint8 w + 2 ^ 8 * ToUint8 (w / 2 ^ 8) = w.
Proof.
  unfold ToUint8. intros Hw.
  change (2 ^ 8) with 256 in *. change (2 ^ 16) with 65536 in *.
  rewrite (Z.mod_small (w / 256))
    by (split; [apply Z.div_pos | apply Z.div_lt_upper_bound]; lia).
  pose proof (Z.div_mod w 256). lia.
Qed.

Lemma le32_digits w :
  0 ≤ w < 2 ^ 32 →
  ToUint8 w + 2 ^ 8 * ToUint8 (w / 2 ^ 8)
  + 2 ^ 16 * ToUint8 (w / 2 ^ 16) + 2 ^ 24 * ToUint8 (w / 2 ^ 24) = w.
Proof.
  unfold ToUint8. intros Hw.
  change (2 ^ 8) with 256 in *. change (2 ^ 16) with 65536 in *.
  change (2 ^ 24) with 16777216 in *. change (2 ^ 32) with 4294967296 in *.
  Z.div_mod_to_equations. lia.
Qed.

Lemma ToUint32_range v : 0 ≤ ToUint32 v < 2 ^ 32.
Proof. unfold ToUint32. apply Z.mod_pos_bound. lia. Qed.

Lemma ToUint16_range v : 0 ≤ ToUint16 v < 2 ^ 16.
Proof. unfold ToUint16. apply Z.mod_pos_bound. lia. Qed.

(** Reading back four bytes written by [setUint32] gives the value modulo
    [2 ^ 32]. *)
Lemma getUint32_le_bytes (pre post : list byte) v :
  getUint32_le
    (pre ++ byte_of_Z (ToUint32 v) :: byte_of_Z (ToUint32 v / 2 ^ 8)
         :: byte_of_Z (ToUint32 v / 2 ^ 16)
         :: byte_of_Z (ToUint32 v / 2 ^ 24) :: post) (length pre)
  = Some (ToUint32 v).
Proof.
  unfold getUint32_le.
  rewrite !(lookup_app_r pre) by lia.
  replace (length pre - length pre)%nat with 0%nat by lia.
  replace (S (length pre) - length pre)%nat with 1%nat by lia.
  replace (S (S (length pre)) - length pre)%nat with 2%nat by lia.
  replace (S (S (S (length pre))) - length pre)%nat with 3%nat by lia.
  simpl. rewrite !Z_of_byte_of_Z.
  f_equal. apply le32_digits, ToUint32_range.
Qed.


(** ** The header, byte by byte *)

Lemma createWavHeader_bytes dataLength sampleRate :
  createWavHeader dataLength sampleRate
  = Normal (header_bytes dataLength sampleRate).
Proof. reflexivity. Qed.

Lemma header_bytes_length dataLength sampleRate :
  length (header_bytes dataLength sampleRate) = 44%nat.
Proof. reflexivity. Qed.

Lemma uint32_le_small v :
  0 ≤ v < 2 ^ 32 → uint32_le (ToUint32 v) = uint32_le v.
Proof. intros Hv. unfold ToUint32. rewrite Z.mod_small; auto. Qed.

Lemma header_riff_size dataLength sampleRate :
  getUint32_le (header_bytes dataLength sampleRate) 4
  = Some (ToUint32 (36 + dataLength)).
Proof.
  exact (getUint32_le_bytes [x52; x49; x46; x46] _ (36 + dataLength)).
Qed.

Lemma header_data_size dataLength sampleRate :
  getUint32_le (header_bytes dataLength sampleRate) 40
  = Some (ToUint32 dataLength).
Proof.
  exact (getUint32_le_bytes
           (take 40 (header_bytes dataLength sampleRate)) [] dataLength).
Qed.

(** C2: for every [dataLength] and [sampleRate], [createWavHeader] returns
    (it does not throw) an array of exactly 44 bytes. *)
Theorem createWavHeader_has_44_bytes dataLength sampleRate :
  ∃ header, createWavHeader dataLength sampleRate = Normal header
            ∧ length header = 44%nat.
Proof.
  exists (header_bytes dataLength sampleRate). split.
  - apply createWavHeader_bytes.
  - apply header_bytes_length.
Qed.

(** C3, as the code has it: for every payload length N with
    [36 + N < 2 ^ 32], bytes 4-7 of the header are the little-endian uint32
    encoding of [36 + N] and bytes 40-43 that of [N]; whatever N is, the
    two fields hold [36 + N] and [N] modulo [2 ^ 32]. *)
Theorem createWavHeader_length_fields N sampleRate :
  ∃ header, createWavHeader N sampleRate = Normal header
    ∧ getUint32_le header 4 = Some ((36 + N) mod 2 ^ 32)
    ∧ getUint32_le header 40 = Some (N mod 2 ^ 32)
    ∧ (0 ≤ N → 36 + N < 2 ^ 32 →
         slice header 4 4 = uint32_le (36 + N)
         ∧ getUint32_le header 4 = Some (36 + N)
         ∧ slice header 40 4 = uint32_le N
         ∧ getUint32_le header 40 = Some N).
Proof.
  exists (header_bytes N sampleRate).
  split; [apply createWavHeader_bytes|].
  split; [apply header_riff_size|].
  split; [apply header_data_size|].
  intros H0 Hlt.
  rewrite header_riff_size, header_data_size. unfold ToUint32.
  rewrite !Z.mod_small by lia.
  repeat split.
  - change (slice (header_bytes N sampleRate) 4 4)
      with (uint32_le (ToUint32 (36 + N))).
    apply uint32_le_small. lia.
  - change (slice (header_bytes N sampleRate) 40 4)
      with (uint32_le (ToUint32 N)).
    apply uint32_le_small. lia.
Qed.

Lemma createWavHeader_length_fields_witness :
  ∃ header, createWavHeader 6 24000 = Normal header
    ∧ slice header 4 4 = [x2a; x00; x00; x00]
    ∧ getUint32_le header 4 = Some 42
    ∧ slice header 40 4 = [x06; x00; x00; x00]
    ∧ getUint32_le header 40 = Some 6.
Proof.
  destruct (createWavHeader_length_fields 6 24000)
    as (header & Hh & _ & _ & Hfields).
  exists header. split; [exact Hh|].
  destruct Hfields as (H1 & H2 & H3 & H4); [lia | lia |].
  rewrite H1, H2, H3, H4. repeat split; reflexivity.
Defined.

(** The claim C3 as it is written fails once [36 + N] needs more than 32
    bits: for N = 2^32 - 36 the RIFF size field reads 0. *)
Lemma createWavHeader_riff_size_wraps :
  ∃ header, createWavHeader 4294967260 24000 = Normal header
    ∧ slice header 4 4 = [x00; x00; x00; x00]
    ∧ getUint32_le header 4 = Some 0
    ∧ getUint32_le header 4 ≠ Some (36 + 4294967260).
Proof.
  exists (header_bytes 4294967260 24000).
  split; [reflexivity|]. split; [reflexivity|].
  split; [reflexivity|]. discriminate.
Qed.

(** C4: in every header bytes 0-3 are "RIFF", bytes 8-11 "WAVE", bytes
    12-15 "fmt " and bytes 36-39 "data". *)
Theorem createWavHeader_tags dataLength sampleRate :
  ∃ header, createWavHeader dataLength sampleRate = Normal header
    ∧ slice header 0 4 = list_byte_of_string "RIFF"
    ∧ slice header 8 4 = list_byte_of_string "WAVE"
    ∧ slice header 12 4 = list_byte_of_string "fmt "
    ∧ slice header 36 4 = list_byte_of_string "data".
Proof.
  exists (header_bytes dataLength sampleRate).
  split; [apply createWavHeader_bytes|].
  repeat split; reflexivity.
Qed.

(** C5: with the sample rate 24000 that [playAudio] passes, the format
    fields are: bytes 16-19 = 16, bytes 20-21 = 1 (PCM), bytes 22-23 = 1
    (channels), bytes 24-27 = 24000, bytes 28-31 = 48000 = 24000 * 2,
    bytes 32-33 = 2 (block align), bytes 34-35 = 16 (bits per sample),
    whatever the data length. *)
Theorem createWavHeader_format_fields dataLength :
  ∃ header, createWavHeader dataLength 24000 = Normal header
    ∧ getUint32_le header 16 = Some 16
    ∧ getUint16_le header 20 = Some 1
    ∧ getUint16_le header 22 = Some 1
    ∧ getUint32_le header 24 = Some 24000
    ∧ getUint16_le header 32 = Some 2
    ∧ getUint16_le header 34 = Some 16
    ∧ getUint32_le header 28 = Some (24000 * 2)
    ∧ slice header 16 20
      = uint32_le 16 ++ uint16_le 1 ++ uint16_le 1 ++ uint32_le 24000
        ++ uint32_le 48000 ++ uint16_le 2 ++ uint16_le 16.
Proof.
  exists (header_bytes dataLength 24000).
  split; [apply createWavHeader_bytes|].
  repeat split; reflexivity.
Qed.

(** ** Reading the header back *)

Lemma parse_chunks_data fuel f d (payload : list byte) :
  (Z.to_nat (ToUint32 d) ≤ length payload)%nat →
  parse_chunks (S fuel) (Some f)
    ([x64; x61; x74; x61] ++ uint32_le (ToUint32 d) ++ payload)
  = Some {| format := f; data_chunk := take (Z.to_nat (ToUint32 d)) payload |}.
Proof.
  intros Hd.
  cbn [parse_chunks].
  assert (Hsz : getUint32_le
            ([x64; x61; x74; x61] ++ uint32_le (ToUint32 d) ++ payload) 4
          = Some (ToUint32 d))
    by exact (getUint32_le_bytes [x64; x61; x74; x61] payload d).
  rewrite Hsz.
  cbn [mbind option_bind].
  change (drop 8 _) with payload.
  destruct (Nat.ltb_spec (length payload) (Z.to_nat (ToUint32 d))); [lia|].
  reflexivity.
Qed.

Lemma parse_fmt_body sr :
  parse_fmt (fmt_body sr)
  = Some (pcm_format (ToUint32 sr) (ToUint32 (sr * 2))).
Proof.
  unfold parse_fmt.
  assert (H4 : getUint32_le (fmt_body sr) 4 = Some (ToUint32 sr))
    by exact (getUint32_le_bytes [x01; x00; x01; x00] _ sr).
  assert (H8 : getUint32_le (fmt_body sr) 8 = Some (ToUint32 (sr * 2)))
    by exact (getUint32_le_bytes
                ([x01; x00; x01; x00] ++ uint32_le (ToUint32 sr)) _ (sr * 2)).
  rewrite H4, H8. reflexivity.
Qed.

Lemma parse_chunks_fmt fuel sr (rest : list byte) :
  parse_chunks (S fuel) None
    ([x66; x6d; x74; x20] ++ [x10; x00; x00; x00] ++ fmt_body sr ++ rest)
  = parse_chunks fuel
      (Some (pcm_format (ToUint32 sr) (ToUint32 (sr * 2)))) rest.
Proof.
  cbn [parse_chunks].
  change (getUint32_le _ 4) with (Some 16).
  cbn [mbind option_bind].
  change (Z.to_nat 16) with 16%nat.
  change (length (drop 8 _)) with (16 + length rest)%nat.
  destruct (Nat.ltb_spec (16 + length rest) 16); [lia|].
  change (has_tag _ 0 "fmt ") with true. cbn match.
  change (take 16 _) with (fmt_body sr).
  rewrite parse_fmt_body. reflexivity.
Qed.

Lemma parse_wav_header N sr (payload : list byte) :
  ToUint32 (36 + N) = 36 + ToUint32 N →
  (Z.to_nat (ToUint32 N) ≤ length payload)%nat →
  parse_wav (header_bytes N sr ++ payload)
  = Some {| format := pcm_format (ToUint32 sr) (ToUint32 (sr * 2));
            data_chunk := take (Z.to_nat (ToUint32 N)) payload |}.
Proof.
  intros Hriff Hdata.
  pose proof (ToUint32_range N) as HN.
  unfold parse_wav.
  change (has_tag _ 0 "RIFF") with true. cbn match.
  assert (Hsz : getUint32_le (header_bytes N sr ++ payload) 4
                = Some (ToUint32 (36 + N)))
    by exact (getUint32_le_bytes [x52; x49; x46; x46] _ (36 + N)).
  rewrite Hsz, Hriff. cbn [mbind option_bind].
  set (content := drop 8 (header_bytes N sr ++ payload)).
  assert (Hlen : length content = (36 + length payload)%nat) by reflexivity.
  rewrite Hlen.
  destruct (Nat.ltb_spec (36 + length payload) (Z.to_nat (36 + ToUint32 N)));
    [lia|].
  assert (Hc : take (Z.to_nat (36 + ToUint32 N)) content
    = [x57; x41; x56; x45] ++ ([x66; x6d; x74; x20] ++ [x10; x00; x00; x00]
        ++ fmt_body sr ++ [x64; x61; x74; x61] ++ uint32_le (ToUint32 N)
        ++ take (Z.to_nat (ToUint32 N)) payload)).
  { replace (Z.to_nat (36 + ToUint32 N))
      with (36 + Z.to_nat (ToUint32 N))%nat by lia.
    reflexivity. }
  rewrite Hc.
  change (has_tag _ 0 "WAVE") with true. cbn match.
  rewrite length_app. change (length [x57; x41; x56; x45]) with 4%nat.
  change (4 + ?n)%nat with (S (S (S (S n)))).
  change (drop 4 ([x57; x41; x56; x45] ++ ?l)) with l.
  rewrite parse_chunks_fmt.
  rewrite parse_chunks_data.
  - rewrite take_take. f_equal. f_equal. f_equal. lia.
  - rewrite length_take. lia.
Qed.

(** The reader goes by the length fields: a header for two bytes in front
    of three gives a data chunk of two, and a header for four bytes in
    front of three is a truncated file. *)
Example parse_wav_short_header :
  data_chunk <$> parse_wav (header_bytes 2 24000 ++ [x0a; x0b; x0c])
  = Some [x0a; x0b].
Proof. vm_compute. reflexivity. Qed.

Example parse_wav_truncated :
  parse_wav (header_bytes 4 24000 ++ [x0a; x0b; x0c]) = None.
Proof. vm_compute. reflexivity. Qed.

(** C1, as the code has it: for every byte payload, prepending
    [createWavHeader(N, 24000)] leaves the payload unchanged at bytes
    44..44+N-1 of the buffer; and when [36 + N < 2 ^ 32] a RIFF/WAVE reader
    finds in the buffer the sample rate 24000, 1 channel, 16 bits per
    sample and a data chunk that is exactly the payload. *)
Theorem wav_round_trip (payload : list byte) :
  ∃ header,
    createWavHeader (Z.of_nat (length payload)) 24000 = Normal header
    ∧ slice (header ++ payload) 44 (length payload) = payload
    ∧ (36 + Z.of_nat (length payload) < 2 ^ 32 →
       ∃ wav, parse_wav (header ++ payload) = Some wav
         ∧ sampleRate (format wav) = 24000
         ∧ numChannels (format wav) = 1
         ∧ bitsPerSample (format wav) = 16
         ∧ data_chunk wav = payload).
Proof.
  set (N := Z.of_nat (length payload)).
  exists (header_bytes N 24000).
  split; [apply createWavHeader_bytes|]. split.
  - unfold slice.
    rewrite (drop_app_length' (header_bytes N 24000) payload 44)
      by reflexivity.
    apply firstn_all.
  - intros Hfit.
    assert (HN : ToUint32 N = N) by (unfold ToUint32; apply Z.mod_small; lia).
    eexists. split.
    + apply parse_wav_header.
      * rewrite HN. unfold ToUint32. apply Z.mod_small. lia.
      * rewrite HN. lia.
    + cbn [format data_chunk]. repeat split.
      rewrite HN. unfold N. rewrite Nat2Z.id. apply firstn_all.
Qed.

Lemma wav_round_trip_witness :
  ∃ wav,
    parse_wav (header_bytes 3 24000 ++ [x0a; x0b; x0c]) = Some wav
    ∧ sampleRate (format wav) = 24000
    ∧ numChannels (format wav) = 1
    ∧ bitsPerSample (format wav) = 16
    ∧ data_chunk wav = [x0a; x0b; x0c].
Proof.
  destruct (wav_round_trip [x0a; x0b; x0c]) as (header & Hh & _ & Hread).
  rewrite createWavHeader_bytes in Hh. injection Hh as <-.
  apply Hread. simpl. lia.
Defined.

(** The claim C1 as it is written fails for a payload of 4 GiB: the length
    fields wrap, and a reader finds an empty data chunk. *)
Lemma wav_round_trip_four_gib :
  ∃ header wav,
    createWavHeader (Z.of_nat (length four_gib)) 24000 = Normal header
    ∧ parse_wav (header ++ four_gib) = Some wav
    ∧ data_chunk wav = []
    ∧ data_chunk wav ≠ four_gib.
Proof.
  assert (HN : Z.of_nat (length four_gib) = 4294967296).
  { unfold four_gib. rewrite length_replicate. apply Z2Nat.id. lia. }
  generalize dependent four_gib. intros payload HN.
  rewrite HN.
  exists (header_bytes 4294967296 24000). eexists.
  split; [apply createWavHeader_bytes|]. split.
  - apply parse_wav_header.
    + reflexivity.
    + change (Z.to_nat (ToUint32 4294967296)) with 0%nat. lia.
  - cbn [data_chunk]. change (Z.to_nat (ToUint32 4294967296)) with 0%nat.
    split; [reflexivity|].
    intros E. rewrite take_0 in E. rewrite <- E in HN. discriminate HN.
Qed.

(** ** [playAudio] *)

Lemma copy_loop_spec (s : jsstring) n i (bytes : list byte) :
  length bytes = length s → (i + n)%nat = length s →
  copy_loop bytes s n i = take i bytes ++ (byte_of_Z <$> drop i s).
Proof.
  revert i bytes. induction n as [|n IH]; intros i bytes Hlen Hi; simpl.
  - replace i with (length s) by lia.
    rewrite drop_all, app_nil_r, <- Hlen. symmetry. apply firstn_all.
  - assert (Hlt : (i < length s)%nat) by lia.
    destruct (lookup_lt_is_Some_2 s i Hlt) as [c Hc].
    rewrite IH by (rewrite ?length_insert; lia).
    rewrite (drop_S s c i Hc). unfold charCodeAt. rewrite Hc. simpl.
    rewrite (take_S_r _ _ (byte_of_Z c)).
    + rewrite take_insert_ge by lia. rewrite <- app_assoc. reflexivity.
    + apply list_lookup_insert_eq. lia.
Qed.

Lemma copy_loop_decodes (s : jsstring) :
  copy_loop (Uint8Array (length s)) s (length s) 0 = byte_of_Z <$> s.
Proof.
  rewrite copy_loop_spec.
  - reflexivity.
  - apply length_replicate.
  - reflexivity.
Qed.

Lemma set_header (header : list byte) k n :
  length header = k →
  set (Uint8Array (k + n)) header 0 = Normal (header ++ replicate n x00).
Proof.
  intros <-. unfold set, fits, Uint8Array. rewrite length_replicate.
  destruct (Nat.leb_spec (0 + length header) (length header + n)); [|lia].
  simpl. rewrite drop_replicate. do 3 f_equal. lia.
Qed.

Lemma set_payload (header bytes : list byte) k n :
  length header = k → length bytes = n →
  set (header ++ replicate n x00) bytes k = Normal (header ++ bytes).
Proof.
  intros <- <-. unfold set, fits. rewrite length_app, length_replicate.
  destruct (Nat.leb_spec (length header + length bytes)
              (length header + length bytes)); [|lia].
  rewrite take_app_length.
  rewrite drop_ge by (rewrite length_app, length_replicate; lia).
  rewrite app_nil_r. reflexivity.
Qed.

Section PlayAudioFacts.
Variable atob : jsstring → completion jsstring.

Lemma playAudio_decoded base64 binaryString w :
  atob base64 = Normal binaryString →
  let N := Z.of_nat (length binaryString) in
  let audio := Audio (length (object_urls w)) in
  playAudio atob base64 w
  = (Normal (Some audio),
     {| trace := Play (src audio) :: trace w;
        object_urls := object_urls w ++
          [{| blob_bytes := header_bytes N 24000
                            ++ (byte_of_Z <$> binaryString);
              blob_type := "audio/wav" |}] |}).
Proof.
  intros Hatob N audio.
  unfold playAudio, try_catch, mbind, M_bind, lift.
  rewrite Hatob.
  rewrite createWavHeader_bytes, copy_loop_decodes.
  rewrite header_bytes_length.
  rewrite (set_header _ 44) by reflexivity.
  rewrite (set_payload _ _ 44 (length binaryString))
    by (reflexivity || apply length_fmap).
  reflexivity.
Qed.

Lemma playAudio_failed base64 e w :
  atob base64 = Throw e →
  playAudio atob base64 w
  = (Normal None,
     {| trace := ConsoleError "Audio processing failed:" (Some e) :: trace w;
        object_urls := object_urls w |}).
Proof.
  intros Hatob.
  unfold playAudio, try_catch, mbind, M_bind, lift.
  rewrite Hatob. reflexivity.
Qed.
End PlayAudioFacts.

(** The decoder of the HTML standard on three strings, and [playAudio] on
    a string that is not base64. *)
Example atob_decodes :
  Base64.atob (lit "AAEC/w==") = Normal [0; 1; 2; 255].
Proof. vm_compute. reflexivity. Qed.

Example atob_skips_white_space :
  Base64.atob (lit "AA EC") = Normal [0; 1; 2].
Proof. vm_compute. reflexivity. Qed.

Example atob_rejects :
  Base64.atob (lit "not base64!") = Throw InvalidCharacterError.
Proof. vm_compute. reflexivity. Qed.

Example playAudio_not_base64 :
  playAudio Base64.atob (lit "not base64!") Demo.world0
  = (Normal None,
     {| trace := [ConsoleError "Audio processing failed:"
                    (Some InvalidCharacterError)];
        object_urls := [] |}).
Proof. vm_compute. reflexivity. Qed.

(** C6: for every base64 string that [atob] decodes to N bytes,
    [playAudio] returns an audio element whose source is the 44-byte header
    followed by those N bytes, in that order, 44 + N bytes in all. *)
Theorem playAudio_buffer (atob : jsstring → completion jsstring)
    base64 binaryString w :
  atob base64 = Normal binaryString →
  ∃ header audio w',
    createWavHeader (Z.of_nat (length binaryString)) 24000 = Normal header
    ∧ length header = 44%nat
    ∧ playAudio atob base64 w = (Normal (Some audio), w')
    ∧ audio_bytes w' audio = Some (header ++ (byte_of_Z <$> binaryString))
    ∧ length (header ++ (byte_of_Z <$> binaryString))
      = (44 + length binaryString)%nat.
Proof.
  intros Hatob.
  exists (header_bytes (Z.of_nat (length binaryString)) 24000).
  eexists. eexists.
  split; [apply createWavHeader_bytes|].
  split; [apply header_bytes_length|].
  split; [apply playAudio_decoded, Hatob|].
  split.
  - unfold audio_bytes. cbn [src Audio object_urls].
    rewrite lookup_app_r by lia.
    replace (length (object_urls w) - length (object_urls w))%nat
      with 0%nat by lia.
    reflexivity.
  - rewrite length_app, length_fmap, header_bytes_length. reflexivity.
Qed.

Lemma playAudio_buffer_witness :
  ∃ header audio w',
    createWavHeader 4 24000 = Normal header
    ∧ playAudio Base64.atob (lit "AAEC/w==") Demo.world0
      = (Normal (Some audio), w')
    ∧ audio_bytes w' audio = Some (header ++ [x00; x01; x02; xff]).
Proof.
  destruct (playAudio_buffer Base64.atob (lit "AAEC/w==") [0; 1; 2; 255]
              Demo.world0)
    as (header & audio & w' & Hh & _ & Hplay & Hbytes & _).
  - vm_compute. reflexivity.
  - exists header, audio, w'. repeat split; assumption.
Defined.

(** C9: for every input string, valid base64 or not, [playAudio] does not
    throw: it returns null when decoding fails and an audio element
    otherwise (building the buffer never fails). *)
Theorem playAudio_never_throws (atob : jsstring → completion jsstring)
    base64 w :
  ∃ r w', playAudio atob base64 w = (Normal r, w')
    ∧ match atob base64 with
      | Throw _ => r = None
      | Normal _ => ∃ audio, r = Some audio
      end.
Proof.
  destruct (atob base64) as [binaryString|e] eqn:Hatob.
  - eexists. eexists. split.
    + apply playAudio_decoded, Hatob.
    + eexists. reflexivity.
  - eexists. eexists. split.
    + apply (playAudio_failed atob base64 e), Hatob.
    + reflexivity.
Qed.

(** ** [generateDeepfakeAudio] *)

Import Gemini.

Lemma trimStart_nil_iff (s : jsstring) : trimStart s = [] ↔ blank s.
Proof.
  unfold blank. induction s as [|c s IH]; simpl.
  - split; [constructor | reflexivity].
  - destruct (is_white_space c) eqn:Hc.
    + rewrite IH. split.
      * intros H. constructor; assumption.
      * intros H. inversion H; assumption.
    + split; [discriminate|].
      intros H. inversion H; congruence.
Qed.

Lemma trimStart_head (s : jsstring) c s' :
  trimStart s = c :: s' → is_white_space c = false.
Proof.
  induction s as [|d s IH]; simpl; [discriminate|].
  destruct (is_white_space d) eqn:Hd; [exact IH|].
  intros [= <- <-]. exact Hd.
Qed.

Lemma trim_nil_iff (s : jsstring) : trim s = [] ↔ blank s.
Proof.
  split.
  - unfold trim, trimEnd. intros H.
    apply trimStart_nil_iff.
    destruct (trimStart s) as [|c s'] eqn:Hs; [reflexivity|].
    apply (f_equal reverse) in H. rewrite reverse_involutive in H.
    change (reverse []) with (@nil Z) in H.
    apply trimStart_nil_iff in H. unfold blank in H.
    rewrite Forall_reverse in H. inversion H as [|? ? Hc _]; subst.
    apply trimStart_head in Hs. congruence.
  - intros H. apply trimStart_nil_iff in H.
    unfold trim. rewrite H. reflexivity.
Qed.

Lemma first_inline_data_none response :
  inline_audio response = [] → falsy_string (first_inline_data response) = true.
Proof.
  unfold inline_audio, first_inline_data.
  destruct response as [[cs|] t]; simpl; [|reflexivity].
  destruct cs as [|c cs]; simpl; [reflexivity|].
  intros H. apply app_eq_nil in H as [H _].
  unfold candidate_audio in H.
  destruct c as [[[[ps|]]|]]; simpl in *; try reflexivity.
  destruct ps as [|p ps]; simpl in *; [reflexivity|].
  apply app_eq_nil in H as [H _].
  unfold part_audio in H.
  destruct p as [[[[[|x d]|]]|]]; simpl in *; try reflexivity.
  discriminate.
Qed.

Example trim_inner_space : trim (lit "  a b
 ") = lit "a b".
Proof. vm_compute. reflexivity. Qed.

Section ServiceFacts.
Variable GEMINI_API_KEY : option jsstring.
Variable generateContent :
  GenerateContentRequest → completion GenerateContentResponse.

Lemma generateDeepfakeAudio_blank text w :
  blank text →
  generateDeepfakeAudio GEMINI_API_KEY generateContent text w
  = if falsy_string GEMINI_API_KEY
    then (Throw (ErrorMsg "GEMINI_API_KEY is not set"), w)
    else (Throw (ErrorMsg "Text for audio generation cannot be empty"),
          {| trace := ConsoleError "Deepfake audio generation failed:"
                        (Some (ErrorMsg
                           "Text for audio generation cannot be empty"))
                      :: trace w;
             object_urls := object_urls w |}).
Proof.
  intros Hblank. apply trim_nil_iff in Hblank.
  unfold generateDeepfakeAudio, getAI, try_catch, mbind, M_bind, lift.
  destruct (falsy_string GEMINI_API_KEY); [reflexivity|].
  rewrite Hblank. simpl. rewrite orb_true_r. reflexivity.
Qed.

Lemma generateDeepfakeAudio_no_audio text response w :
  falsy_string GEMINI_API_KEY = false →
  ¬ blank text →
  generateContent (tts_request text) = Normal response →
  inline_audio response = [] →
  generateDeepfakeAudio GEMINI_API_KEY generateContent text w
  = (Throw (ErrorMsg "No audio data received from Gemini API"),
     {| trace :=
          ConsoleError "Deepfake audio generation failed:"
            (Some (ErrorMsg "No audio data received from Gemini API"))
          :: ConsoleError "Gemini TTS returned no audio data. Response:" None
          :: ApiCall (tts_request text) :: trace w;
        object_urls := object_urls w |}).
Proof.
  intros Hkey Htext Hapi Hnone.
  apply first_inline_data_none in Hnone.
  assert (Hguard : falsy_string (Some text)
                   || bool_decide (length (trim text) = 0%nat) = false).
  { apply orb_false_iff. split.
    - simpl. apply bool_decide_eq_false. intros ->. apply Htext. constructor.
    - apply bool_decide_eq_false. intros Hlen. apply Htext, trim_nil_iff.
      destruct (trim text); [reflexivity | discriminate]. }
  unfold generateDeepfakeAudio, getAI, try_catch, mbind, M_bind, lift.
  rewrite Hkey, Hguard.
  unfold models_generateContent, mbind, M_bind, lift, emit, modify.
  fold (tts_request text). rewrite Hapi. cbn [trace object_urls].
  rewrite Hnone. reflexivity.
Qed.
End ServiceFacts.

(** C10: [generateDeepfakeAudio] throws, without calling the API, whenever
    its text is empty or only white space; and when it has called the API
    and the response holds no inline audio data, it throws the error "No
    audio data received from Gemini API". *)
Theorem generateDeepfakeAudio_errors (GEMINI_API_KEY : option jsstring)
    (generateContent :
       GenerateContentRequest → completion GenerateContentResponse)
    text w :
  (blank text →
   ∃ e w',
     generateDeepfakeAudio GEMINI_API_KEY generateContent text w
     = (Throw e, w')
     ∧ api_calls w' = api_calls w)
  ∧ (∀ response,
       falsy_string GEMINI_API_KEY = false →
       ¬ blank text →
       generateContent (tts_request text) = Normal response →
       inline_audio response = [] →
       ∃ w',
         generateDeepfakeAudio GEMINI_API_KEY generateContent text w
         = (Throw (ErrorMsg "No audio data received from Gemini API"), w')
         ∧ api_calls w' = ApiCall (tts_request text) :: api_calls w).
Proof.
  split.
  - intros Hblank.
    rewrite generateDeepfakeAudio_blank by assumption.
    destruct (falsy_string GEMINI_API_KEY); eexists; eexists;
      (split; [reflexivity|]); reflexivity.
  - intros response Hkey Htext Hapi Hnone.
    eexists. split.
    + apply generateDeepfakeAudio_no_audio with response; assumption.
    + reflexivity.
Qed.

Lemma generateDeepfakeAudio_errors_witness :
  (∃ e w',
     generateDeepfakeAudio Demo.key (λ _, Normal Demo.silent) (lit "  ")
       Demo.world0
     = (Throw e, w')
     ∧ api_calls w' = api_calls Demo.world0)
  ∧ (∃ w',
       generateDeepfakeAudio Demo.key (λ _, Normal Demo.silent) (lit "Hi")
         Demo.world0
       = (Throw (ErrorMsg "No audio data received from Gemini API"), w')
       ∧ api_calls w'
         = ApiCall (tts_request (lit "Hi")) :: api_calls Demo.world0).
Proof.
  split.
  - apply (generateDeepfakeAudio_errors Demo.key (λ _, Normal Demo.silent)
             (lit "  ") Demo.world0).
    repeat constructor.
  - apply (generateDeepfakeAudio_errors Demo.key (λ _, Normal Demo.silent)
             (lit "Hi") Demo.world0) with Demo.silent.
    + reflexivity.
    + intros H. inversion H. discriminate.
    + reflexivity.
    + reflexivity.
Defined.

(** ** The results endpoint *)

Import Server.

(** Invariants through the steps of a computation. *)

Lemma keeps_bind {S A B} (P : S → Prop) (m : M S A) (k : A → M S B) :
  keeps P m → (∀ a, keeps P (k a)) → keeps P (m ≫= k).
Proof.
  intros Hm Hk s Hs. unfold mbind, M_bind.
  specialize (Hm s Hs). destruct (m s) as [[a|e] s']; simpl in *.
  - apply Hk, Hm.
  - exact Hm.
Qed.

Lemma keeps_ret {S A} (P : S → Prop) (a : A) : keeps P (mret a).
Proof. intros s Hs. exact Hs. Qed.

Lemma keeps_lift {S A} (P : S → Prop) (c : completion A) : keeps P (lift c).
Proof. intros s Hs. exact Hs. Qed.

Lemma keeps_gets {S A} (P : S → Prop) (f : S → A) : keeps P (gets f).
Proof. intros s Hs. exact Hs. Qed.

Lemma keeps_if {S A} (P : S → Prop) (b : bool) (m1 m2 : M S A) :
  keeps P m1 → keeps P m2 → keeps P (if b then m1 else m2).
Proof. destruct b; auto. Qed.

(** Each statement keeps a property of every employee. *)

Section Statements.
Variable foreign_keys : bool.
Variable text_to_int : jsstring → option Z.
Variable φ : employee → Prop.

Lemma keeps_insert_department n risk :
  keeps (every_employee φ) (insert_department n risk).
Proof.
  intros d Hd. unfold insert_department.
  destruct (bool_decide _); exact Hd.
Qed.

Lemma keeps_insert_simulation ty diff :
  keeps (every_employee φ) (insert_simulation ty diff).
Proof. intros d Hd. exact Hd. Qed.

Lemma keeps_store_result r :
  keeps (every_employee φ) (store_result foreign_keys text_to_int r).
Proof.
  intros d Hd. unfold store_result.
  destruct (_ && _); exact Hd.
Qed.

Lemma keeps_store_campaign c :
  keeps (every_employee φ) (store_campaign foreign_keys text_to_int c).
Proof.
  intros d Hd. unfold store_campaign.
  destruct (_ && _); exact Hd.
Qed.

(** A new employee starts with the default score. *)
Lemma keeps_insert_employee n e dept :
  (∀ emp, security_score emp = 100 → φ emp) →
  keeps (every_employee φ) (insert_employee n e dept).
Proof.
  intros Hφ d Hd. unfold insert_employee.
  destruct (bool_decide _); [exact Hd|].
  intros id emp. cbn.
  destruct (decide (seq (employees d) + 1 = id)) as [->|Hne].
  - rewrite lookup_insert_eq. intros [= <-]. apply Hφ. reflexivity.
  - rewrite lookup_insert_ne by assumption. apply Hd.
Qed.

Lemma keeps_update_score (f : Z → Z) id :
  (∀ emp, φ emp → φ (with_score (f (security_score emp)) emp)) →
  keeps (every_employee φ) (update_score text_to_int f id).
Proof.
  intros Hf. unfold update_score.
  apply keeps_bind; [apply keeps_lift|]. intros values d Hd.
  unfold modify, with_employees. cbn.
  destruct (sql_int text_to_int (parameter 0 values)) as [k|]; [|exact Hd].
  intros i e. cbn.
  destruct (decide (k = i)) as [->|Hne].
  - rewrite lookup_alter_eq.
    destruct (rows (employees d) !! i) as [e0|] eqn:He0; [|discriminate].
    intros [= <-]. apply Hf. apply (Hd i e0 He0).
  - rewrite lookup_alter_ne by assumption. apply Hd.
Qed.
End Statements.

(** A computation that ends normally went through every step normally. *)

Lemma bind_Normal {S A B} (m : M S A) (k : A → M S B) s b s' :
  (m ≫= k) s = (Normal b, s') →
  ∃ a s1, m s = (Normal a, s1) ∧ k a s1 = (Normal b, s').
Proof.
  unfold mbind, M_bind. destruct (m s) as [[a|e] s1]; [eauto|discriminate].
Qed.

Lemma lift_Normal {S A} (c : completion A) (s : S) a s' :
  lift c s = (Normal a, s') → c = Normal a ∧ s' = s.
Proof. unfold lift. intros [= -> ->]. auto. Qed.

Lemma ret_Normal {S A} (x : A) (s : S) a s' :
  (mret x : M S A) s = (Normal a, s') → a = x ∧ s' = s.
Proof. intros [= -> ->]. auto. Qed.

(** The binder gives one value for each parameter, or fails with a
    TypeError or a RangeError. *)

Lemma bind_values_room params bound items values :
  bind_values params bound items = Normal values →
  (length bound ≤ params)%nat → (length values ≤ params)%nat.
Proof.
  revert bound. induction items as [|v items IH]; intros bound H Hroom.
  - injection H as <-. exact Hroom.
  - cbn [bind_values] in H. unfold mbind, completion_bind in H.
    destruct (bind_value v) as [x|e]; [|discriminate].
    destruct (length bound <? params)%nat eqn:Hlt; [|discriminate].
    apply Nat.ltb_lt in Hlt. apply (IH _ H). rewrite length_app. cbn. lia.
Qed.

Lemma bind_args_length params bound bound_object args values :
  bind_args params bound bound_object args = Normal values →
  (length bound ≤ params)%nat → length values = params.
Proof.
  revert bound bound_object.
  induction args as [|v args IH]; intros bound bound_object H Hroom.
  - cbn [bind_args] in H.
    destruct (length bound <? params)%nat eqn:Hlt; [discriminate|].
    injection H as <-. apply Nat.ltb_ge in Hlt. lia.
  - assert (Hvalue :
      ∀ items,
        (bound' ← bind_values params bound items;
         bind_args params bound' bound_object args) = Normal values →
        length values = params).
    { intros items Hitems. unfold mbind, completion_bind in Hitems.
      destruct (bind_values params bound items) as [bound'|e] eqn:Hb;
        [|discriminate].
      apply (IH _ _ Hitems). apply (bind_values_room _ _ _ _ Hb Hroom). }
    destruct v as [[| | | |items|fields]|]; cbn [bind_args] in H;
      try (apply (Hvalue _ H)).
    destruct bound_object; [discriminate|]. apply (IH _ _ H Hroom).
Qed.

Lemma bind_length params args values :
  bind params args = Normal values → length values = params.
Proof. intros H. apply (bind_args_length _ _ _ _ _ H). cbn. lia. Qed.

Lemma bind_one v values :
  bind 1 [v] = Normal values → ∃ target, values = [target].
Proof.
  intros H. apply bind_length in H.
  destruct values as [|target [|? ?]]; try discriminate. eauto.
Qed.





(** What a served request leaves in [employees]. *)

Section ServedRequests.
Variable foreign_keys : bool.
Variable text_to_int : jsstring → option Z.

Lemma store_result_employees r d id d' :
  store_result foreign_keys text_to_int r d = (Normal id, d') →
  employees d' = employees d.
Proof.
  unfold store_result. destruct (_ && _); [discriminate|].
  intros [= _ <-]. reflexivity.
Qed.

Lemma insert_result_employees emp sim camp correct time fb d id d' :
  insert_result foreign_keys text_to_int emp sim camp correct time fb d
  = (Normal id, d') →
  employees d' = employees d.
Proof.
  unfold insert_result. intros H.
  apply bind_Normal in H as (values & s1 & H1 & H).
  apply lift_Normal in H1 as [H1 ->].
  apply store_result_employees in H. exact H.
Qed.

Lemma update_score_employees f v values d :
  bind 1 [v] = Normal values →
  update_score text_to_int f v d
  = (Normal (),
     with_employees (λ t,
       match sql_int text_to_int (parameter 0 values) with
       | Some k =>
           {| rows := alter (λ e, with_score (f (security_score e)) e) k
                        (rows t);
              seq := seq t |}
       | None => t
       end) d).
Proof.
  intros Hb. unfold update_score, mbind, M_bind, lift. rewrite Hb.
  reflexivity.
Qed.

Lemma update_score_Normal f v d u d' :
  update_score text_to_int f v d = (Normal u, d') →
  ∃ target,
    bind 1 [v] = Normal [target]
    ∧ d' = with_employees (λ t,
             match sql_int text_to_int target with
             | Some k =>
                 {| rows := alter (λ e, with_score (f (security_score e)) e)
                              k (rows t);
                    seq := seq t |}
             | None => t
             end) d.
Proof.
  intros H. unfold update_score in H.
  apply bind_Normal in H as (values & s1 & H1 & H).
  apply lift_Normal in H1 as [H1 ->].
  destruct (bind_one _ _ H1) as [target ->].
  exists target. split; [exact H1|].
  unfold modify in H. injection H as _ Hd. symmetry. exact Hd.
Qed.

Lemma post_results_employees body d r d' :
  post_results foreign_keys text_to_int body d = (Normal r, d') →
  ∃ employee_id is_correct target,
    get body "employee_id" = Normal employee_id
    ∧ get body "is_correct" = Normal is_correct
    ∧ bind 1 [or_else employee_id (Some (JNum 1%Q))] = Normal [target]
    ∧ employees d'
      = match sql_int text_to_int target with
        | Some k =>
            {| rows := alter (λ e, with_score
                                (new_score (truthy is_correct)
                                   (security_score e)) e) k
                         (rows (employees d));
               seq := seq (employees d) |}
        | None => employees d
        end.
Proof.
  unfold post_results. intros H.
  apply bind_Normal in H as (eid & s1 & H1 & H).
  apply lift_Normal in H1 as [H1 ->].
  apply bind_Normal in H as (sid & s2 & H2 & H).
  apply lift_Normal in H2 as [H2 ->].
  apply bind_Normal in H as (cid & s3 & H3 & H).
  apply lift_Normal in H3 as [H3 ->].
  apply bind_Normal in H as (ic & s4 & H4 & H).
  apply lift_Normal in H4 as [H4 ->].
  apply bind_Normal in H as (rt & s5 & H5 & H).
  apply lift_Normal in H5 as [H5 ->].
  apply bind_Normal in H as (fb & s6 & H6 & H).
  apply lift_Normal in H6 as [H6 ->].
  apply bind_Normal in H as (simId & d1 & Hsim & H).
  apply bind_Normal in H as (id & d2 & Hins & H).
  apply bind_Normal in H as (u & d3 & Hupd & H).
  apply ret_Normal in H as [_ ->].
  assert (Hd1 : employees d1 = employees d).
  { destruct (negb (truthy sid)).
    - apply bind_Normal in Hsim as (i & s & Hi & Hsim).
      apply ret_Normal in Hsim as [_ ->].
      unfold insert_simulation in Hi. injection Hi as _ <-. reflexivity.
    - apply ret_Normal in Hsim as [_ ->]. reflexivity. }
  apply insert_result_employees in Hins as Hd2.
  destruct (truthy ic) eqn:Hic; simpl in Hupd;
    apply update_score_Normal in Hupd as (target & Ht & Hd3);
    exists eid, ic, target; repeat split; try assumption;
    subst d3; unfold with_employees, new_score; cbn [employees];
    rewrite Hic, Hd2, Hd1; reflexivity.
Qed.
End ServedRequests.

Ltac keeps_step :=
  first
    [ apply keeps_ret | apply keeps_lift | apply keeps_gets
    | apply keeps_insert_department | apply keeps_insert_simulation
    | apply keeps_store_result | apply keeps_store_campaign
    | apply keeps_insert_employee; cbn; intros; lia
    | apply keeps_update_score; cbn; intros; lia
    | apply keeps_if
    | apply keeps_bind; [|intros ?] ].

Section DatabaseInvariant.
Variable foreign_keys : bool.
Variable text_to_int : jsstring → option Z.

Lemma keeps_post_results body :
  keeps scores_in_range (post_results foreign_keys text_to_int body).
Proof.
  unfold scores_in_range, post_results, insert_result. repeat keeps_step.
Qed.

Lemma keeps_post_campaigns body :
  keeps scores_in_range (post_campaigns foreign_keys text_to_int body).
Proof.
  unfold scores_in_range, post_campaigns, insert_campaign.
  repeat keeps_step.
Qed.

Lemma keeps_seed random : keeps scores_in_range (seed random).
Proof.
  unfold scores_in_range, seed. repeat keeps_step.
Qed.

Lemma empty_db_employees φ : every_employee φ empty_db.
Proof. intros id e. cbn. rewrite lookup_empty. discriminate. Qed.

(** Seeding gives every employee the default score. *)
Lemma seed_default_scores random :
  every_employee (λ e, security_score e = 100) (snd (seed random empty_db)).
Proof.
  assert (Hseed : keeps (every_employee (λ e, security_score e = 100))
                    (seed random))
    by (unfold seed; repeat keeps_step).
  apply Hseed, empty_db_employees.
Qed.

Lemma reachable_scores d :
  reachable foreign_keys text_to_int d → scores_in_range d.
Proof.
  induction 1.
  - apply keeps_seed, empty_db_employees.
  - apply keeps_seed. assumption.
  - apply keeps_post_results. assumption.
  - apply keeps_post_campaigns. assumption.
Qed.
End DatabaseInvariant.

(** C8: every [POST /api/results] request keeps every security score
    within 0 and 100, whatever the request answers; when the request is
    served, the UPDATE has bound one value for [employee_id || 1], and the
    score of the employee with that id goes down by 5 but not below 0 if
    [is_correct] is falsy, and up by 2 but not above 100 otherwise, and no
    other score changes; and every score of a
    database reached from the seeded one, where scores start at 100, is
    within 0 and 100. *)
Theorem post_results_scores (foreign_keys : bool)
    (text_to_int : jsstring → option Z) :
  (∀ body d,
     scores_in_range d →
     scores_in_range (snd (post_results foreign_keys text_to_int body d)))
  ∧ (∀ body d r d',
       post_results foreign_keys text_to_int body d = (Normal r, d') →
       ∃ employee_id is_correct target,
         get body "employee_id" = Normal employee_id
         ∧ get body "is_correct" = Normal is_correct
         ∧ bind 1 [or_else employee_id (Some (JNum 1%Q))] = Normal [target]
         ∧ ∀ id,
             security_score <$> rows (employees d') !! id
             = (λ e, if bool_decide (sql_int text_to_int target = Some id)
                     then new_score (truthy is_correct) (security_score e)
                     else security_score e)
               <$> rows (employees d) !! id)
  ∧ (∀ random,
       every_employee (λ e, security_score e = 100)
         (snd (seed random empty_db)))
  ∧ (∀ d, reachable foreign_keys text_to_int d → scores_in_range d).
Proof.
  split; [intros body; apply keeps_post_results|].
  split; [|split; [|apply reachable_scores]].
  - intros body d r d' H.
    apply post_results_employees in H
      as (employee_id & is_correct & target & H1 & H2 & H3 & H4).
    exists employee_id, is_correct, target.
    repeat split; try assumption.
    intros id. rewrite H4.
    destruct (sql_int text_to_int target) as [k|].
    + cbn [rows]. destruct (decide (k = id)) as [->|Hne].
      * rewrite lookup_alter_eq, bool_decide_eq_true_2 by reflexivity.
        destruct (rows (employees d) !! id); reflexivity.
      * rewrite lookup_alter_ne by assumption.
        rewrite bool_decide_eq_false_2 by congruence. reflexivity.
    + rewrite bool_decide_eq_false_2 by discriminate. reflexivity.
  - apply seed_default_scores.
Qed.

Lemma post_results_scores_witness :
  scores_in_range
    (snd (post_results false (λ _, None) Demo.wrong_answer Demo.db0))
  ∧ security_score
    <$> rows (employees
                (snd (post_results false (λ _, None) Demo.wrong_answer
                        Demo.db0))) !! 1
    = Some 95.
Proof.
  destruct (post_results_scores false (λ _, None))
    as (Hkeep & Hrule & Hseed & Hreach).
  split.
  - apply Hkeep, Hreach. apply reach_start.
  - destruct (Hrule Demo.wrong_answer Demo.db0
                (JObj [("id", JNum 1%Q)])
                (snd (post_results false (λ _, None) Demo.wrong_answer
                        Demo.db0)))
      as (employee_id & is_correct & target & H1 & H2 & H3 & H4).
    + vm_compute. reflexivity.
    + injection H1 as <-. injection H2 as <-. injection H3 as <-.
      rewrite (H4 1). vm_compute. reflexivity.
Defined.

(** The same request on a connection that enforces foreign keys, with the
    simulation id that the page sends: the INSERT fails and no score
    changes. *)
Example post_results_foreign_key :
  post_results true (λ _, None)
    (JObj [("simulation_id", JNum 3%Q); ("is_correct", JBool false)])
    Demo.db0
  = (Throw (ErrorMsg "FOREIGN KEY constraint failed"), Demo.db0).
Proof. vm_compute. reflexivity. Qed.

(** ** The simulation handlers *)

Import App.

Section HandlerFacts.
Variable GEMINI_API_KEY : option jsstring.
Variable generateContent :
  GenerateContentRequest → completion GenerateContentResponse.
Variable JSON_parse : option jsstring → completion json.
Variable JSON_stringify : json → jsstring.
Variable ToNumber : option json → option Q.
Variable fetch : string → json → completion unit.

Lemma handleDeepfakeGuess_local guess solution st w :
  deepfakeSolution st = Some solution →
  ∃ r st' w',
    handleDeepfakeGuess fetch guess (st, w) = (r, (st', w'))
    ∧ feedback st' = local_result (bool_decide (guess = solution))
    ∧ api_calls w' = api_calls w.
Proof.
  intros Hsol.
  unfold handleDeepfakeGuess, mbind, M_bind, gets. cbn [fst snd].
  rewrite Hsol.
  unfold fetch_POST, setFeedback, fetchStats, fetchReports, on_fst, on_snd,
    modify, emit, lift, mbind, M_bind. cbn [fst snd].
  destruct (fetch _ _) as [[]|e]; eexists; eexists; eexists;
    (split; [reflexivity|]); cbn [feedback trace];
    (split; [destruct (bool_decide (guess = solution)); reflexivity
            | reflexivity]).
Qed.

Lemma analyzeSimulationResponse_Normal content flags w result w1 :
  analyzeSimulationResponse GEMINI_API_KEY generateContent JSON_parse
    content flags w = (Normal result, w1) →
  ∃ req response,
    generateContent req = Normal response
    ∧ JSON_parse (text response) = Normal result
    ∧ trace w1 = ApiCall req :: trace w.
Proof.
  unfold analyzeSimulationResponse, getAI, models_generateContent,
    mbind, M_bind, lift, emit, modify.
  destruct (falsy_string GEMINI_API_KEY); [discriminate|].
  match goal with
  | |- context [generateContent ?r] =>
      set (req := r); destruct (generateContent req) as [response|e] eqn:Hr
  end; [|discriminate].
  destruct (JSON_parse (text response)) as [j|e] eqn:Hp; [|discriminate].
  intros [= <- <-]. exists req, response. auto.
Qed.

Lemma startDeepfakeChallenge_solution st w :
  ∃ r st' w',
    startDeepfakeChallenge GEMINI_API_KEY generateContent (st, w)
    = (r, (st', w'))
    ∧ match generateDeepfakeAudio GEMINI_API_KEY generateContent
              challenge_text w with
      | (Normal audio, _) =>
          deepfakeSolution st' = Some synthetic
          ∧ currentView st' = deepfake_sim
      | (Throw _, _) =>
          deepfakeSolution st' = deepfakeSolution st
          ∧ currentView st' = currentView st
      end.
Proof.
  unfold startDeepfakeChallenge, try_finally, try_catch.
  unfold mbind at 1 2, M_bind at 1 2.
  unfold setLoading at 1, setFeedback at 1, on_fst, modify. cbn [fst snd].
  unfold mbind at 1, M_bind at 1, on_snd at 1. cbn [fst snd].
  fold challenge_text.
  destruct (generateDeepfakeAudio GEMINI_API_KEY generateContent
              challenge_text w) as [[audio|e] w1].
  - eexists. eexists. eexists. split; [reflexivity|].
    cbn. auto.
  - eexists. eexists. eexists. split; [reflexivity|].
    cbn. auto.
Qed.

Lemma submitAnalysis_feedback st w r st' w' :
  submitAnalysis GEMINI_API_KEY generateContent JSON_parse JSON_stringify
    ToNumber fetch (st, w) = (r, (st', w')) →
  feedback st' = feedback st
  ∨ ∃ req response,
      generateContent req = Normal response
      ∧ JSON_parse (text response) = Normal (feedback st')
      ∧ ApiCall req ∈ trace w'.
Proof.
  unfold submitAnalysis.
  unfold mbind at 1, M_bind at 1, gets at 1. cbn [fst snd].
  set (currentSim := if bool_decide (currentView st = email_sim)
                     then emailSim st else phoneSim st).
  destruct (negb (truthy (Some currentSim))).
  { intros [= _ <- _]. left. reflexivity. }
  unfold try_finally, try_catch.
  unfold mbind at 1, M_bind at 1.
  unfold setLoading at 1, on_fst, modify. cbn [fst snd].
  unfold mbind at 1, M_bind at 1, on_snd at 1. cbn [fst snd].
  destruct (analyzeSimulationResponse _ _ _ _ _ w) as [[result|e] w1] eqn:Ha.
  - apply analyzeSimulationResponse_Normal in Ha
      as (req & response & Hr & Hp & Ht).
    intros H. right. exists req, response.
    split; [exact Hr|].
    revert H.
    unfold fetch_POST, setFeedback, setLoading, fetchStats, fetchReports,
      console_error, on_fst, on_snd, modify, emit, lift, mbind, M_bind.
    cbn [fst snd].
    destruct (get result "score") as [score|e1];
      [destruct (get result "feedback") as [fb|e2];
        [destruct (fetch _ _) as [[]|e3]|]|];
      cbn [fst snd]; intros [= _ <- <-]; cbn [feedback trace];
      (split; [exact Hp|]); rewrite Ht;
      repeat (apply list_elem_of_here || apply list_elem_of_further).
  - unfold console_error, setLoading, on_fst, on_snd, modify, emit.
    cbn [fst snd]. intros [= _ <- _]. left. reflexivity.
Qed.
End HandlerFacts.

(** C7, as the code has it: after [submitAnalysis] (email and phone
    simulations) the outcome shown is either the one that was there or the
    parsed answer of a call of the external API made by this run; after
    [handleDeepfakeGuess] the outcome shown is computed by the page from
    the guess and the stored solution alone (score 100 when they are equal,
    0 otherwise), with no call of the API; and [startDeepfakeChallenge]
    sets the solution to 'synthetic' whenever the audio was generated. *)
Theorem simulation_outcomes (GEMINI_API_KEY : option jsstring)
    (generateContent :
       GenerateContentRequest → completion GenerateContentResponse)
    (JSON_parse : option jsstring → completion json)
    (JSON_stringify : json → jsstring)
    (ToNumber : option json → option Q)
    (fetch : string → json → completion unit) st w :
  (∀ r st' w',
     submitAnalysis GEMINI_API_KEY generateContent JSON_parse JSON_stringify
       ToNumber fetch (st, w) = (r, (st', w')) →
     feedback st' = feedback st
     ∨ ∃ req response,
         generateContent req = Normal response
         ∧ JSON_parse (text response) = Normal (feedback st')
         ∧ ApiCall req ∈ trace w')
  ∧ (∀ guess solution,
       deepfakeSolution st = Some solution →
       ∃ r st' w',
         handleDeepfakeGuess fetch guess (st, w) = (r, (st', w'))
         ∧ feedback st' = local_result (bool_decide (guess = solution))
         ∧ api_calls w' = api_calls w)
  ∧ (∃ r st' w',
       startDeepfakeChallenge GEMINI_API_KEY generateContent (st, w)
       = (r, (st', w'))
       ∧ match generateDeepfakeAudio GEMINI_API_KEY generateContent
                 challenge_text w with
         | (Normal audio, _) =>
             deepfakeSolution st' = Some synthetic
             ∧ currentView st' = deepfake_sim
         | (Throw _, _) =>
             deepfakeSolution st' = deepfakeSolution st
             ∧ currentView st' = currentView st
         end).
Proof.
  split; [|split].
  - intros r st' w'. apply submitAnalysis_feedback.
  - intros guess solution. apply handleDeepfakeGuess_local.
  - apply startDeepfakeChallenge_solution.
Qed.

Lemma simulation_outcomes_witness :
  (∃ st' w',
     submitAnalysis Demo.key (λ _, Normal Demo.answer) Demo.parse_verdict
       (λ _, []) Demo.number_of Demo.fetch_ok (Demo.email, Demo.world0)
     = (Normal (), (st', w'))
     ∧ feedback st' = Demo.verdict
     ∧ ∃ req, ApiCall req ∈ trace w')
  ∧ (∃ r st' w',
       handleDeepfakeGuess Demo.fetch_ok authentic
         (Demo.challenge, Demo.world0) = (r, (st', w'))
       ∧ feedback st' = local_result false
       ∧ api_calls w' = []).
Proof.
  split.
  - destruct (submitAnalysis Demo.key (λ _, Normal Demo.answer)
                Demo.parse_verdict (λ _, []) Demo.number_of Demo.fetch_ok
                (Demo.email, Demo.world0)) as [r [st' w']] eqn:Hrun.
    destruct (simulation_outcomes Demo.key (λ _, Normal Demo.answer)
                Demo.parse_verdict (λ _, []) Demo.number_of Demo.fetch_ok
                Demo.email Demo.world0) as (Hsubmit & _ & _).
    destruct (Hsubmit r st' w' Hrun)
      as [Hsame | (req & response & _ & Hparse & Hcall)].
    + vm_compute in Hrun. injection Hrun as _ <- _. discriminate Hsame.
    + exists st', w'. vm_compute in Hrun. injection Hrun as <- <- <-.
      split; [reflexivity|]. split; [reflexivity|].
      exists req. exact Hcall.
  - destruct (simulation_outcomes Demo.key (λ _, Normal Demo.answer)
                Demo.parse_verdict (λ _, []) Demo.number_of Demo.fetch_ok
                Demo.challenge Demo.world0) as (_ & Hguess & _).
    apply (Hguess authentic synthetic). reflexivity.
Defined.

(** The claim C7 as it is written fails for the deepfake challenge: a
    guess is scored 100 and shown although no call of the API was ever
    made. *)
Lemma deepfake_outcome_is_local :
  ∃ st' w',
    handleDeepfakeGuess Demo.fetch_ok synthetic (Demo.challenge, Demo.world0)
    = (Normal (), (st', w'))
    ∧ get (feedback st') "score" = Normal (Some (JNum 100%Q))
    ∧ api_calls w' = [].
Proof.
  eexists. eexists. split; [vm_compute; reflexivity|].
  split; reflexivity.
Qed.

(** * More of the code *)

(** ** [writeString] on any buffer *)

Lemma writeString_loop_fits (view : list byte) offset (s : jsstring) n i :
  (i + n)%nat = length s →
  (offset + length s ≤ length view)%nat →
  writeString_loop view offset s n i
  = Normal (take (offset + i) view ++ (byte_of_Z <$> drop i s)
            ++ drop (offset + length s) view).
Proof.
  revert view i. induction n as [|n IH]; intros view i Hi Hfit; simpl.
  - replace i with (length s) by lia.
    rewrite drop_all. simpl. rewrite take_drop. reflexivity.
  - assert (Hlt : (i < length s)%nat) by lia.
    destruct (lookup_lt_is_Some_2 s i Hlt) as [c Hc].
    unfold setUint8, fits.
    destruct (Nat.leb_spec (offset + i + 1) (length view)); [|lia].
    cbn [mbind completion_bind].
    rewrite IH by (rewrite ?length_insert; lia).
    unfold charCodeAt. rewrite Hc. cbn [default].
    rewrite (drop_S s c i Hc). cbn [fmap list_fmap].
    replace (offset + S i)%nat with (S (offset + i)) by lia.
    rewrite (take_S_r _ _ (byte_of_Z c))
      by (apply list_lookup_insert_eq; lia).
    rewrite take_insert_ge by lia.
    rewrite drop_insert_lt by lia.
    rewrite <- app_assoc. reflexivity.
Qed.

Lemma writeString_loop_overflows (view : list byte) offset (s : jsstring) n i :
  (i + n)%nat = length s → (0 < n)%nat →
  (length view < offset + length s)%nat →
  writeString_loop view offset s n i = Throw RangeError.
Proof.
  revert view i. induction n as [|n IH]; intros view i Hi Hn Hover; [lia|].
  simpl. unfold setUint8, fits.
  destruct (Nat.leb_spec (offset + i + 1) (length view)); [|reflexivity].
  cbn [mbind completion_bind].
  apply IH; rewrite ?length_insert; lia.
Qed.

(** X1: [writeString] succeeds exactly when the string fits the buffer at
    the offset: then it overwrites the bytes at [offset .. offset + length
    - 1] with the code units modulo 256 and leaves every other byte and
    the length of the buffer as they were; a string that does not fit
    ends in a RangeError. *)
Theorem writeString_spec (view : list byte) offset (s : jsstring) :
  ((offset + length s ≤ length view)%nat →
   writeString view offset s
   = Normal (take offset view ++ (byte_of_Z <$> s)
             ++ drop (offset + length s) view))
  ∧ (s ≠ [] → (length view < offset + length s)%nat →
     writeString view offset s = Throw RangeError).
Proof.
  split.
  - intros Hfit. unfold writeString.
    rewrite writeString_loop_fits by lia.
    rewrite Nat.add_0_r. reflexivity.
  - intros Hs Hover. unfold writeString.
    apply writeString_loop_overflows; [lia | | lia].
    destruct s; [congruence | simpl; lia].
Qed.

Lemma writeString_spec_witness :
  writeString [x01; x02; x03; x04; x05] 1 (lit "ab")
  = Normal [x01; x61; x62; x04; x05]
  ∧ writeString [x01; x02; x03] 2 (lit "ab") = Throw RangeError.
Proof.
  split.
  - apply (proj1 (writeString_spec [x01; x02; x03; x04; x05] 1 (lit "ab"))).
    simpl. lia.
  - apply (proj2 (writeString_spec [x01; x02; x03] 2 (lit "ab"))).
    + discriminate.
    + simpl. lia.
Defined.

(** ** The header for any sample rate *)

(** X2: for every sample rate with [0 <= 2 * sampleRate < 2 ^ 32] the
    header holds the sample rate at bytes 24-27 and twice the sample rate,
    the sample rate times the block align 2, at bytes 28-31, whatever the
    data length; in general both fields are taken modulo [2 ^ 32]. *)
Theorem createWavHeader_rate_fields dataLength sampleRate :
  ∃ header, createWavHeader dataLength sampleRate = Normal header
    ∧ getUint32_le header 24 = Some (sampleRate mod 2 ^ 32)
    ∧ getUint32_le header 28 = Some ((sampleRate * 2) mod 2 ^ 32)
    ∧ getUint16_le header 32 = Some 2
    ∧ (0 ≤ sampleRate → sampleRate * 2 < 2 ^ 32 →
       getUint32_le header 24 = Some sampleRate
       ∧ getUint32_le header 28 = Some (sampleRate * 2)).
Proof.
  exists (header_bytes dataLength sampleRate).
  split; [apply createWavHeader_bytes|].
  assert (H24 : getUint32_le (header_bytes dataLength sampleRate) 24
                = Some (ToUint32 sampleRate))
    by exact (getUint32_le_bytes
                (take 24 (header_bytes dataLength sampleRate)) _ sampleRate).
  assert (H28 : getUint32_le (header_bytes dataLength sampleRate) 28
                = Some (ToUint32 (sampleRate * 2)))
    by exact (getUint32_le_bytes
                (take 28 (header_bytes dataLength sampleRate)) _
                (sampleRate * 2)).
  split; [exact H24|]. split; [exact H28|]. split; [reflexivity|].
  intros H0 Hlt. rewrite H24, H28. unfold ToUint32.
  rewrite !Z.mod_small by lia. split; reflexivity.
Qed.

Lemma createWavHeader_rate_fields_witness :
  ∃ header, createWavHeader 0 44100 = Normal header
    ∧ getUint32_le header 24 = Some 44100
    ∧ getUint32_le header 28 = Some 88200.
Proof.
  destruct (createWavHeader_rate_fields 0 44100)
    as (header & Hh & _ & _ & _ & Hfields).
  exists header. split; [exact Hh|]. apply Hfields; lia.
Defined.

(** X3: the data length shows in the header only at bytes 4-7 and 40-43,
    and the sample rate only at bytes 24-31: two headers agree at every
    other byte. *)
Theorem createWavHeader_fixed_bytes N N' rate rate' (i : nat) :
  ∃ header header',
    createWavHeader N rate = Normal header
    ∧ createWavHeader N' rate' = Normal header'
    ∧ (¬ (4 ≤ i < 8)%nat → ¬ (24 ≤ i < 32)%nat → ¬ (40 ≤ i < 44)%nat →
       header !! i = header' !! i).
Proof.
  exists (header_bytes N rate), (header_bytes N' rate').
  split; [apply createWavHeader_bytes|].
  split; [apply createWavHeader_bytes|].
  intros H1 H2 H3.
  do 44 (destruct i as [|i]; [first [reflexivity | lia]|]).
  reflexivity.
Qed.

Lemma createWavHeader_fixed_bytes_witness :
  ∃ header header',
    createWavHeader 10 24000 = Normal header
    ∧ createWavHeader 999 8000 = Normal header'
    ∧ header !! 22%nat = header' !! 22%nat.
Proof.
  destruct (createWavHeader_fixed_bytes 10 999 24000 8000 22)
    as (header & header' & Hh & Hh' & Hsame).
  exists header, header'. split; [exact Hh|]. split; [exact Hh'|].
  apply Hsame; lia.
Defined.

(** ** What [playAudio] does to the page *)

(** X4: [playAudio] only adds to the page: on success it registers one
    blob of type audio/wav and starts the playback of the element it
    returns; when decoding fails it registers nothing and plays nothing,
    and logs the error once. In both cases every element created before
    still plays the bytes it had. *)
Theorem playAudio_effects (atob : jsstring → completion jsstring) base64 w :
  ∃ r w',
    playAudio atob base64 w = (Normal r, w')
    ∧ (∀ earlier, (src earlier < length (object_urls w))%nat →
         audio_bytes w' earlier = audio_bytes w earlier)
    ∧ match r with
      | Some audio =>
          (∃ bytes,
             object_urls w'
             = object_urls w
               ++ [{| blob_bytes := bytes; blob_type := "audio/wav" |}])
          ∧ trace w' = Play (src audio) :: trace w
      | None =>
          object_urls w' = object_urls w
          ∧ ∃ e, atob base64 = Throw e
                 ∧ trace w'
                   = ConsoleError "Audio processing failed:" (Some e)
                     :: trace w
      end.
Proof.
  destruct (atob base64) as [binaryString|e] eqn:Hatob.
  - eexists. eexists. split; [apply playAudio_decoded, Hatob|].
    cbn [object_urls trace]. split.
    + intros earlier Hlt. unfold audio_bytes. cbn [object_urls].
      rewrite lookup_app_l by exact Hlt. reflexivity.
    + split; [eexists; reflexivity | reflexivity].
  - eexists. eexists.
    split; [apply (playAudio_failed atob base64 e), Hatob|].
    cbn [object_urls trace]. split.
    + intros earlier _. reflexivity.
    + split; [reflexivity|]. exists e. split; reflexivity.
Qed.

Lemma playAudio_effects_witness :
  ∃ first second w1 w2,
    playAudio Base64.atob (lit "AAEC") Demo.world0 = (Normal (Some first), w1)
    ∧ playAudio Base64.atob (lit "/w==") w1 = (Normal (Some second), w2)
    ∧ audio_bytes w2 first = audio_bytes w1 first.
Proof.
  destruct (playAudio Base64.atob (lit "AAEC") Demo.world0)
    as [r1 w1] eqn:H1.
  destruct (playAudio_effects Base64.atob (lit "/w==") w1)
    as (r2 & w2 & H2 & Hkeep & _).
  vm_compute in H1. injection H1 as <- <-.
  destruct r2 as [second|]; [|vm_compute in H2; discriminate H2].
  eexists. exists second. eexists. exists w2.
  split; [vm_compute; reflexivity|]. split; [exact H2|].
  apply Hkeep. simpl. lia.
Defined.

(** X5: the header that [playAudio] writes describes the buffer it is in:
    when [36 + N < 2 ^ 32], the RIFF size at bytes 4-7 is the length of the
    whole buffer minus 8 and the data length at bytes 40-43 is the length
    of the buffer minus 44. *)
Theorem playAudio_sizes (atob : jsstring → completion jsstring)
    base64 binaryString w :
  atob base64 = Normal binaryString →
  36 + Z.of_nat (length binaryString) < 2 ^ 32 →
  ∃ audio w' buffer,
    playAudio atob base64 w = (Normal (Some audio), w')
    ∧ audio_bytes w' audio = Some buffer
    ∧ getUint32_le buffer 4 = Some (Z.of_nat (length buffer) - 8)
    ∧ getUint32_le buffer 40 = Some (Z.of_nat (length buffer) - 44).
Proof.
  intros Hatob Hfit.
  set (N := Z.of_nat (length binaryString)) in *.
  eexists. eexists.
  exists (header_bytes N 24000 ++ (byte_of_Z <$> binaryString)).
  split; [apply playAudio_decoded, Hatob|].
  split.
  - unfold audio_bytes. cbn [src Audio object_urls].
    rewrite lookup_app_r by lia.
    replace (length (object_urls w) - length (object_urls w))%nat
      with 0%nat by lia.
    reflexivity.
  - rewrite length_app, length_fmap, header_bytes_length.
    assert (H4 : getUint32_le
                   (header_bytes N 24000 ++ (byte_of_Z <$> binaryString)) 4
                 = Some (ToUint32 (36 + N)))
      by exact (getUint32_le_bytes [x52; x49; x46; x46] _ (36 + N)).
    assert (H40 : getUint32_le
                    (header_bytes N 24000 ++ (byte_of_Z <$> binaryString)) 40
                  = Some (ToUint32 N))
      by exact (getUint32_le_bytes (take 40 (header_bytes N 24000)) _ N).
    rewrite H4, H40. unfold ToUint32.
    rewrite !Z.mod_small by lia.
    split; f_equal; lia.
Qed.

Lemma playAudio_sizes_witness :
  ∃ audio w' buffer,
    playAudio Base64.atob (lit "AAEC/w==") Demo.world0
    = (Normal (Some audio), w')
    ∧ audio_bytes w' audio = Some buffer
    ∧ length buffer = 48%nat
    ∧ getUint32_le buffer 4 = Some 40
    ∧ getUint32_le buffer 40 = Some 4.
Proof.
  destruct (playAudio_sizes Base64.atob (lit "AAEC/w==") [0; 1; 2; 255]
              Demo.world0)
    as (audio & w' & buffer & Hplay & Hbytes & H4 & H40).
  - vm_compute. reflexivity.
  - simpl. lia.
  - exists audio, w', buffer.
    vm_compute in Hplay. injection Hplay as <- <-.
    vm_compute in Hbytes. injection Hbytes as <-.
    repeat split; reflexivity.
Defined.

(** ** The outcomes of [generateDeepfakeAudio] *)

Import Generators.

Lemma text_guard_passes (text : jsstring) :
  ¬ blank text →
  falsy_string (Some text) || bool_decide (length (trim text) = 0%nat)
  = false.
Proof.
  intros Htext. apply orb_false_iff. split.
  - simpl. apply bool_decide_eq_false. intros ->. apply Htext. constructor.
  - apply bool_decide_eq_false. intros Hlen. apply Htext, trim_nil_iff.
    destruct (trim text); [reflexivity | discriminate].
Qed.

Section AudioOutcomes.
Variable GEMINI_API_KEY : option jsstring.
Variable generateContent :
  GenerateContentRequest → completion GenerateContentResponse.

(** What the function does once the key and the text are in order, by the
    answer of the API. *)
Lemma generateDeepfakeAudio_called text w :
  falsy_string GEMINI_API_KEY = false →
  ¬ blank text →
  generateDeepfakeAudio GEMINI_API_KEY generateContent text w
  = let called := {| trace := ApiCall (tts_request text) :: trace w;
                     object_urls := object_urls w |} in
    let failed e rest :=
      (Throw e,
       {| trace := ConsoleError "Deepfake audio generation failed:" (Some e)
                   :: rest;
          object_urls := object_urls w |}) in
    match generateContent (tts_request text) with
    | Throw e => failed e (trace called)
    | Normal response =>
        if falsy_string (first_inline_data response)
        then failed (ErrorMsg "No audio data received from Gemini API")
               (ConsoleError "Gemini TTS returned no audio data. Response:"
                  None :: trace called)
        else (Normal (default [] (first_inline_data response)), called)
    end.
Proof.
  intros Hkey Htext.
  unfold generateDeepfakeAudio, getAI, try_catch, mbind, M_bind, lift.
  rewrite Hkey, (text_guard_passes text Htext).
  unfold models_generateContent, mbind, M_bind, lift, emit, modify.
  fold (tts_request text).
  destruct (generateContent (tts_request text)) as [response|e];
    [|reflexivity].
  cbn [trace object_urls].
  destruct (falsy_string (first_inline_data response)); reflexivity.
Qed.
End AudioOutcomes.

Lemma generateDeepfakeAudio_returns (GEMINI_API_KEY : option jsstring)
    (generateContent :
       GenerateContentRequest → completion GenerateContentResponse)
    text response audio w :
  falsy_string GEMINI_API_KEY = false →
  ¬ blank text →
  generateContent (tts_request text) = Normal response →
  first_inline_data response = Some audio →
  audio ≠ [] →
  generateDeepfakeAudio GEMINI_API_KEY generateContent text w
  = (Normal audio,
     {| trace := ApiCall (tts_request text) :: trace w;
        object_urls := object_urls w |}).
Proof.
  intros Hkey Htext Hapi Hfirst Haudio.
  rewrite generateDeepfakeAudio_called by assumption.
  cbn zeta. rewrite Hapi, Hfirst. cbn [falsy_string default].
  rewrite bool_decide_eq_false_2 by assumption. reflexivity.
Qed.

Lemma generateDeepfakeAudio_returns_nonempty
    (GEMINI_API_KEY : option jsstring)
    (generateContent :
       GenerateContentRequest → completion GenerateContentResponse)
    text audio w w' :
  generateDeepfakeAudio GEMINI_API_KEY generateContent text w
  = (Normal audio, w') →
  audio ≠ [].
Proof.
  intros Hrun.
  destruct (falsy_string GEMINI_API_KEY) eqn:Hkey.
  { unfold generateDeepfakeAudio, getAI, mbind, M_bind, lift in Hrun.
    rewrite Hkey in Hrun. discriminate Hrun. }
  destruct (decide (trim text = [])) as [Hblank|Htext].
  { apply trim_nil_iff in Hblank.
    rewrite generateDeepfakeAudio_blank in Hrun by assumption.
    rewrite Hkey in Hrun. discriminate Hrun. }
  rewrite generateDeepfakeAudio_called in Hrun
    by (try assumption; rewrite <- trim_nil_iff; assumption).
  cbn zeta in Hrun.
  destruct (generateContent (tts_request text)) as [response|e];
    [|discriminate].
  destruct (first_inline_data response) as [[|c d]|]; try discriminate.
  cbn in Hrun. injection Hrun as <- _. discriminate.
Qed.

(** X6: [generateDeepfakeAudio] returns a string exactly when the key is
    set, the text is not blank and the first part of the first candidate of
    the answer carries inline data; the string is then that data, it is
    not empty, and the run made one call of the API, with the text and the
    voice 'Charon', and logged nothing. *)
Theorem generateDeepfakeAudio_returns_iff (GEMINI_API_KEY : option jsstring)
    (generateContent :
       GenerateContentRequest → completion GenerateContentResponse)
    text audio w w' :
  generateDeepfakeAudio GEMINI_API_KEY generateContent text w
  = (Normal audio, w')
  ↔ falsy_string GEMINI_API_KEY = false
    ∧ ¬ blank text
    ∧ audio ≠ []
    ∧ (∃ response,
         generateContent (tts_request text) = Normal response
         ∧ first_inline_data response = Some audio)
    ∧ w' = {| trace := ApiCall (tts_request text) :: trace w;
              object_urls := object_urls w |}.
Proof.
  split.
  - intros Hrun.
    destruct (falsy_string GEMINI_API_KEY) eqn:Hkey.
    { unfold generateDeepfakeAudio, getAI, mbind, M_bind, lift in Hrun.
      rewrite Hkey in Hrun. discriminate Hrun. }
    destruct (decide (trim text = [])) as [Hblank|Htext].
    { apply trim_nil_iff in Hblank.
      rewrite generateDeepfakeAudio_blank in Hrun by assumption.
      rewrite Hkey in Hrun. discriminate Hrun. }
    rewrite <- trim_nil_iff.
    rewrite generateDeepfakeAudio_called in Hrun
      by (try assumption; rewrite <- trim_nil_iff; assumption).
    cbn zeta in Hrun.
    destruct (generateContent (tts_request text)) as [response|e];
      [|discriminate].
    destruct (first_inline_data response) as [[|c d]|] eqn:Hfirst;
      try discriminate.
    cbn in Hrun. injection Hrun as <- <-.
    repeat split; try assumption; try discriminate.
    exists response. auto.
  - intros (Hkey & Htext & Haudio & (response & Hapi & Hfirst) & ->).
    apply generateDeepfakeAudio_returns with response; assumption.
Qed.

Lemma generateDeepfakeAudio_returns_iff_witness :
  generateDeepfakeAudio Demo.key Samples.remote (lit "Hello") Demo.world0
  = (Normal (lit "AAEC/w=="),
     {| trace := [ApiCall (tts_request (lit "Hello"))]; object_urls := [] |}).
Proof.
  apply (generateDeepfakeAudio_returns_iff Demo.key Samples.remote
           (lit "Hello") (lit "AAEC/w==") Demo.world0).
  split; [reflexivity|].
  split; [intros H; inversion H; discriminate|].
  split; [discriminate|].
  split; [exists Samples.spoken; split; reflexivity | reflexivity].
Defined.

(** X7: [generateDeepfakeAudio] looks at the first part of the first
    candidate only: when that part carries no inline data the function
    throws "No audio data received from Gemini API", also when another part
    of the answer carries audio. *)
Theorem generateDeepfakeAudio_first_part_only
    (GEMINI_API_KEY : option jsstring)
    (generateContent :
       GenerateContentRequest → completion GenerateContentResponse)
    text response w :
  falsy_string GEMINI_API_KEY = false →
  ¬ blank text →
  generateContent (tts_request text) = Normal response →
  falsy_string (first_inline_data response) = true →
  ∃ w',
    generateDeepfakeAudio GEMINI_API_KEY generateContent text w
    = (Throw (ErrorMsg "No audio data received from Gemini API"), w')
    ∧ api_calls w' = ApiCall (tts_request text) :: api_calls w.
Proof.
  intros Hkey Htext Hapi Hfirst.
  rewrite generateDeepfakeAudio_called by assumption.
  cbn zeta. rewrite Hapi, Hfirst.
  eexists. split; reflexivity.
Qed.

Lemma generateDeepfakeAudio_first_part_only_witness :
  inline_audio Samples.audio_in_second_part = [lit "AAEC"]
  ∧ ∃ w',
      generateDeepfakeAudio Demo.key
        (λ _, Normal Samples.audio_in_second_part) (lit "Hello") Demo.world0
      = (Throw (ErrorMsg "No audio data received from Gemini API"), w')
      ∧ api_calls w'
        = ApiCall (tts_request (lit "Hello")) :: api_calls Demo.world0.
Proof.
  split; [reflexivity|].
  apply (generateDeepfakeAudio_first_part_only Demo.key
           (λ _, Normal Samples.audio_in_second_part) (lit "Hello")
           Samples.audio_in_second_part Demo.world0).
  - reflexivity.
  - intros H. inversion H. discriminate.
  - reflexivity.
  - reflexivity.
Defined.

(** X8: every error that [generateDeepfakeAudio] throws once it has its
    key is logged with "Deepfake audio generation failed:" just before it
    is thrown, and it is the error of the cause: an error of the API comes
    out unchanged. The error of a missing key is thrown without a log. *)
Theorem generateDeepfakeAudio_logs_and_rethrows
    (GEMINI_API_KEY : option jsstring)
    (generateContent :
       GenerateContentRequest → completion GenerateContentResponse)
    text w e w' :
  generateDeepfakeAudio GEMINI_API_KEY generateContent text w = (Throw e, w') →
  (if falsy_string GEMINI_API_KEY
   then e = ErrorMsg "GEMINI_API_KEY is not set" ∧ w' = w
   else ∃ rest,
          trace w'
          = ConsoleError "Deepfake audio generation failed:" (Some e) :: rest)
  ∧ (∀ cause, falsy_string GEMINI_API_KEY = false → ¬ blank text →
       generateContent (tts_request text) = Throw cause → e = cause).
Proof.
  intros Hrun. split.
  - destruct (falsy_string GEMINI_API_KEY) eqn:Hkey.
    + unfold generateDeepfakeAudio, getAI, mbind, M_bind, lift in Hrun.
      rewrite Hkey in Hrun. injection Hrun as <- <-. auto.
    + destruct (decide (trim text = [])) as [Hblank|Htext].
      * apply trim_nil_iff in Hblank.
        rewrite generateDeepfakeAudio_blank in Hrun by assumption.
        rewrite Hkey in Hrun. injection Hrun as <- <-.
        eexists. reflexivity.
      * rewrite generateDeepfakeAudio_called in Hrun
          by (try assumption; rewrite <- trim_nil_iff; assumption).
        cbn zeta in Hrun.
        destruct (generateContent (tts_request text)) as [response|cause].
        -- destruct (falsy_string (first_inline_data response));
             [|discriminate].
           injection Hrun as <- <-. eexists. reflexivity.
        -- injection Hrun as <- <-. eexists. reflexivity.
  - intros cause Hkey Htext Hapi.
    rewrite generateDeepfakeAudio_called in Hrun by assumption.
    cbn zeta in Hrun. rewrite Hapi in Hrun. injection Hrun as <- _.
    reflexivity.
Qed.

Lemma generateDeepfakeAudio_logs_and_rethrows_witness :
  generateDeepfakeAudio Demo.key Samples.down (lit "Hello") Demo.world0
  = (Throw (ApiError 503),
     {| trace := [ConsoleError "Deepfake audio generation failed:"
                    (Some (ApiError 503));
                  ApiCall (tts_request (lit "Hello"))];
        object_urls := [] |}).
Proof.
  destruct (generateDeepfakeAudio Demo.key Samples.down (lit "Hello")
              Demo.world0) as [[audio|e] w'] eqn:Hrun.
  - vm_compute in Hrun. discriminate Hrun.
  - destruct (generateDeepfakeAudio_logs_and_rethrows Demo.key Samples.down
                (lit "Hello") Demo.world0 e w' Hrun) as [_ Hcause].
    rewrite (Hcause (ApiError 503)).
    + vm_compute in Hrun. injection Hrun as _ <-. reflexivity.
    + reflexivity.
    + intros H. inversion H. discriminate.
    + reflexivity.
Defined.

(** X9: without an API key, undefined or empty, each of the five service
    wrappers throws "GEMINI_API_KEY is not set" before anything else: no
    call of the API, no log, the world as it was. *)
Theorem wrappers_need_key (GEMINI_API_KEY : option jsstring)
    (generateContent :
       GenerateContentRequest → completion GenerateContentResponse)
    (JSON_parse : option jsstring → completion json) w :
  falsy_string GEMINI_API_KEY = true →
  (∀ difficulty,
     generatePhishingEmail GEMINI_API_KEY generateContent JSON_parse
       difficulty w
     = (Throw (ErrorMsg "GEMINI_API_KEY is not set"), w))
  ∧ (∀ message,
       quickSecurityChat GEMINI_API_KEY generateContent message w
       = (Throw (ErrorMsg "GEMINI_API_KEY is not set"), w))
  ∧ (∀ text,
       generateDeepfakeAudio GEMINI_API_KEY generateContent text w
       = (Throw (ErrorMsg "GEMINI_API_KEY is not set"), w))
  ∧ (∀ content flags,
       analyzeSimulationResponse GEMINI_API_KEY generateContent JSON_parse
         content flags w
       = (Throw (ErrorMsg "GEMINI_API_KEY is not set"), w))
  ∧ (∀ difficulty,
       generatePhoneSimulation GEMINI_API_KEY generateContent JSON_parse
         difficulty w
       = (Throw (ErrorMsg "GEMINI_API_KEY is not set"), w)).
Proof.
  intros Hkey.
  repeat split; intros;
    unfold generatePhishingEmail, quickSecurityChat, generateDeepfakeAudio,
      analyzeSimulationResponse, generatePhoneSimulation, getAI,
      mbind, M_bind, lift;
    rewrite Hkey; reflexivity.
Qed.

Lemma wrappers_need_key_witness :
  quickSecurityChat (Some []) Samples.remote (lit "Hi") Demo.world0
  = (Throw (ErrorMsg "GEMINI_API_KEY is not set"), Demo.world0)
  ∧ generatePhoneSimulation None Samples.remote Samples.parse_script 2
      Demo.world0
    = (Throw (ErrorMsg "GEMINI_API_KEY is not set"), Demo.world0).
Proof.
  split.
  - apply (wrappers_need_key (Some []) Samples.remote Samples.parse_script
             Demo.world0). reflexivity.
  - apply (wrappers_need_key None Samples.remote Samples.parse_script
             Demo.world0). reflexivity.
Defined.

(** ** [generatePhoneSimulation] *)

Lemma assoc_app_last k k' v fields :
  assoc k (fields ++ [(k', v)])
  = if String.eqb k k' then Some v else assoc k fields.
Proof.
  induction fields as [|[k0 v0] fields IH]; simpl.
  - reflexivity.
  - rewrite IH. destruct (String.eqb k k'); [reflexivity|].
    reflexivity.
Qed.

Section PhoneSimulation.
Variable GEMINI_API_KEY : option jsstring.
Variable generateContent :
  GenerateContentRequest → completion GenerateContentResponse.
Variable JSON_parse : option jsstring → completion json.

(** The run up to the parsed script: one call of the fast model. *)
Lemma generatePhoneSimulation_script difficulty response data w :
  falsy_string GEMINI_API_KEY = false →
  (∀ req, model req = "gemini-flash-lite-latest" →
          generateContent req = Normal response) →
  JSON_parse (text response) = Normal data →
  ∃ req,
    model req = "gemini-flash-lite-latest"
    ∧ generatePhoneSimulation GEMINI_API_KEY generateContent JSON_parse
        difficulty w
      = (attackerScript ← lift (get data "attackerScript");
         audioBase64 ← generateDeepfakeAudio_any GEMINI_API_KEY
                          generateContent attackerScript;
         mret (JObj (spread data ++ [("audioBase64", JStr audioBase64)])))
          {| trace := ApiCall req :: trace w;
             object_urls := object_urls w |}.
Proof.
  intros Hkey Hscript Hparse.
  unfold generatePhoneSimulation, getAI, models_generateContent.
  unfold mbind at 1 2 3, M_bind at 1 2 3, lift at 1 2.
  rewrite Hkey.
  match goal with
  | |- context [emit (ApiCall ?r)] => exists r
  end.
  split; [reflexivity|].
  unfold emit, modify. rewrite Hscript by reflexivity.
  unfold mbind at 1, M_bind at 1, lift at 1. rewrite Hparse.
  reflexivity.
Qed.
End PhoneSimulation.

(** X10: when the script comes back with a line to speak,
    [generatePhoneSimulation] calls the API exactly twice, for the script
    and then for the speech of [attackerScript], and returns the script
    with one more field, [audioBase64], holding the audio; every other
    field reads as in the script. *)
Theorem generatePhoneSimulation_returns (GEMINI_API_KEY : option jsstring)
    (generateContent :
       GenerateContentRequest → completion GenerateContentResponse)
    (JSON_parse : option jsstring → completion json)
    difficulty response data line spoken audio w :
  falsy_string GEMINI_API_KEY = false →
  (∀ req, model req = "gemini-flash-lite-latest" →
          generateContent req = Normal response) →
  JSON_parse (text response) = Normal data →
  get data "attackerScript" = Normal (Some (JStr line)) →
  ¬ blank line →
  generateContent (tts_request line) = Normal spoken →
  first_inline_data spoken = Some audio →
  audio ≠ [] →
  ∃ result req w',
    generatePhoneSimulation GEMINI_API_KEY generateContent JSON_parse
      difficulty w = (Normal result, w')
    ∧ model req = "gemini-flash-lite-latest"
    ∧ trace w' = ApiCall (tts_request line) :: ApiCall req :: trace w
    ∧ get result "audioBase64" = Normal (Some (JStr audio))
    ∧ ∀ k, k ≠ "audioBase64" → get result k = get data k.
Proof.
  intros Hkey Hscript Hparse Hline Htext Hspeech Hfirst Haudio.
  destruct (generatePhoneSimulation_script GEMINI_API_KEY generateContent
              JSON_parse difficulty response data w Hkey Hscript Hparse)
    as (req & Hmodel & ->).
  unfold mbind at 1, M_bind at 1, lift at 1. rewrite Hline.
  unfold mbind at 1, M_bind at 1. cbn [generateDeepfakeAudio_any].
  rewrite (generateDeepfakeAudio_returns GEMINI_API_KEY generateContent
             line spoken audio) by assumption.
  cbn [trace object_urls].
  eexists. exists req. eexists.
  split; [reflexivity|]. split; [exact Hmodel|]. split; [reflexivity|].
  destruct data as [| | | | |fields]; try discriminate Hline.
  cbn [spread get]. split.
  - rewrite assoc_app_last. reflexivity.
  - intros k Hk. rewrite assoc_app_last.
    destruct (String.eqb_spec k "audioBase64"); [contradiction | reflexivity].
Qed.

Lemma generatePhoneSimulation_returns_witness :
  ∃ result req w',
    generatePhoneSimulation Demo.key Samples.remote Samples.parse_script 2
      Demo.world0 = (Normal result, w')
    ∧ trace w'
      = [ApiCall (tts_request (lit "Hello, this is IT.")); ApiCall req]
    ∧ get result "audioBase64" = Normal (Some (JStr (lit "AAEC/w==")))
    ∧ get result "scenario" = Normal (Some (JStr (lit "IT support"))).
Proof.
  destruct (generatePhoneSimulation_returns Demo.key Samples.remote
              Samples.parse_script 2 Samples.script_answer Samples.script
              (lit "Hello, this is IT.") Samples.spoken (lit "AAEC/w==")
              Demo.world0)
    as (result & req & w' & Hrun & _ & Htrace & Haudio & Hrest).
  - reflexivity.
  - intros req Hmodel. unfold Samples.remote. rewrite Hmodel. reflexivity.
  - reflexivity.
  - reflexivity.
  - intros H. inversion H. discriminate.
  - reflexivity.
  - reflexivity.
  - discriminate.
  - exists result, req, w'.
    split; [exact Hrun|]. split; [exact Htrace|]. split; [exact Haudio|].
    rewrite Hrest by discriminate. reflexivity.
Defined.

(** X11: when the parsed script has no line to speak (the field
    [attackerScript] is missing, is not a string or is blank, or the script
    is [null]), [generatePhoneSimulation] throws after its one call for the
    script: the speech model is never called. *)
Theorem generatePhoneSimulation_no_line (GEMINI_API_KEY : option jsstring)
    (generateContent :
       GenerateContentRequest → completion GenerateContentResponse)
    (JSON_parse : option jsstring → completion json)
    difficulty response data w :
  falsy_string GEMINI_API_KEY = false →
  (∀ req, model req = "gemini-flash-lite-latest" →
          generateContent req = Normal response) →
  JSON_parse (text response) = Normal data →
  (∀ line, get data "attackerScript" = Normal (Some (JStr line)) →
           blank line) →
  ∃ e req w',
    generatePhoneSimulation GEMINI_API_KEY generateContent JSON_parse
      difficulty w = (Throw e, w')
    ∧ model req = "gemini-flash-lite-latest"
    ∧ api_calls w' = ApiCall req :: api_calls w.
Proof.
  intros Hkey Hscript Hparse Hline.
  destruct (generatePhoneSimulation_script GEMINI_API_KEY generateContent
              JSON_parse difficulty response data w Hkey Hscript Hparse)
    as (req & Hmodel & ->).
  unfold mbind at 1, M_bind at 1, lift at 1.
  destruct (get data "attackerScript") as [v|e] eqn:Hget.
  - unfold mbind at 1, M_bind at 1.
    assert (Hthrows : ∃ e w',
      generateDeepfakeAudio_any GEMINI_API_KEY generateContent v
        {| trace := ApiCall req :: trace w; object_urls := object_urls w |}
      = (Throw e, w')
      ∧ api_calls w' = ApiCall req :: api_calls w).
    { destruct v as [[| | |line| |]|]; cbn [generateDeepfakeAudio_any truthy].
      4: { rewrite generateDeepfakeAudio_blank by (apply Hline; reflexivity).
           rewrite Hkey. eexists. eexists. split; reflexivity. }
      all: try (rewrite generateDeepfakeAudio_blank by constructor;
                rewrite Hkey; eexists; eexists; split; reflexivity).
      all: try match goal with
           | |- context [if ?b then _ else _] => destruct b
           end.
      all: try (rewrite generateDeepfakeAudio_blank by constructor;
                rewrite Hkey; eexists; eexists; split; reflexivity).
      all: unfold getAI, try_catch, mbind, M_bind, lift; rewrite Hkey;
        eexists; eexists; split; reflexivity. }
    destruct Hthrows as (e & w' & -> & Hcalls).
    exists e, req, w'. auto.
  - exists e, req. eexists. split; [reflexivity|]. split; [exact Hmodel|].
    reflexivity.
Qed.

Lemma generatePhoneSimulation_no_line_witness :
  ∃ e req w',
    generatePhoneSimulation Demo.key Samples.remote
      Samples.parse_script_without_line 2 Demo.world0 = (Throw e, w')
    ∧ api_calls w' = [ApiCall req].
Proof.
  destruct (generatePhoneSimulation_no_line Demo.key Samples.remote
              Samples.parse_script_without_line 2 Samples.script_answer
              Samples.script_without_line Demo.world0)
    as (e & req & w' & Hrun & _ & Hcalls).
  - reflexivity.
  - intros req Hmodel. unfold Samples.remote. rewrite Hmodel. reflexivity.
  - reflexivity.
  - intros line Hget. vm_compute in Hget. discriminate Hget.
  - exists e, req, w'. split; [exact Hrun | exact Hcalls].
Defined.

(** ** The handlers of the page *)

Import Page Admin Shapes.

(** X12: [handleDeepfakeGuess] does nothing without a stored solution.
    With one, it shows the local outcome and posts exactly one result, with
    [simulation_id] 3, [is_correct] telling whether the guess equals the
    solution and [response_time] 15000; when the POST is rejected the
    handler throws that error (nothing catches it), the outcome is shown
    all the same, and the statistics are not fetched again. *)
Theorem handleDeepfakeGuess_runs
    (fetch : string → json → completion unit) guess st w :
  match deepfakeSolution st with
  | None => handleDeepfakeGuess fetch guess (st, w) = (Normal (), (st, w))
  | Some solution =>
      let isCorrect := bool_decide (guess = solution) in
      let shown := with_feedback (local_result isCorrect) st in
      let post := HttpPost "/api/results" (deepfake_body isCorrect) in
      handleDeepfakeGuess fetch guess (st, w)
      = match fetch "/api/results" (deepfake_body isCorrect) with
        | Normal _ =>
            (Normal (),
             (shown,
              after [HttpGet "/api/reports"; HttpGet "/api/stats"; post] w))
        | Throw e => (Throw e, (shown, after [post] w))
        end
  end.
Proof.
  destruct (deepfakeSolution st) as [solution|] eqn:Hsol.
  - cbn zeta.
    unfold handleDeepfakeGuess, mbind, M_bind, gets. cbn [fst snd].
    rewrite Hsol.
    unfold fetch_POST, setFeedback, fetchStats, fetchReports, on_fst, on_snd,
      modify, emit, lift, mbind, M_bind. cbn [fst snd].
    destruct (bool_decide (guess = solution));
      (destruct (fetch _ _) as [[]|e]; reflexivity).
  - unfold handleDeepfakeGuess, mbind, M_bind, gets. cbn [fst snd].
    rewrite Hsol. reflexivity.
Qed.

Example handleDeepfakeGuess_rejected :
  handleDeepfakeGuess Samples.fetch_down authentic
    (Demo.challenge, Demo.world0)
  = (Throw (ErrorMsg "Failed to fetch"),
     (with_feedback (local_result false) Demo.challenge,
      after [HttpPost "/api/results" (deepfake_body false)] Demo.world0)).
Proof. vm_compute. reflexivity. Qed.

Section PageHandlers.
Variable GEMINI_API_KEY : option jsstring.
Variable generateContent :
  GenerateContentRequest → completion GenerateContentResponse.
Variable JSON_parse : option jsstring → completion json.
Variable JSON_stringify : json → jsstring.
Variable ToNumber : option json → option Q.
Variable fetch : string → json → completion unit.

Lemma startDeepfakeChallenge_run st w :
  startDeepfakeChallenge GEMINI_API_KEY generateContent (st, w)
  = match generateDeepfakeAudio GEMINI_API_KEY generateContent
            challenge_text w with
    | (Normal audio, w1) =>
        (Normal (),
         ({| currentView := deepfake_sim; emailSim := emailSim st;
             phoneSim := phoneSim st;
             deepfakeAudio := if falsy_string (Some audio) then None
                              else Some audio;
             deepfakeSolution := Some synthetic; loading := false;
             selectedFlags := selectedFlags st; feedback := JNull |}, w1))
    | (Throw e, w1) =>
        (Normal (),
         ({| currentView := currentView st; emailSim := emailSim st;
             phoneSim := phoneSim st; deepfakeAudio := deepfakeAudio st;
             deepfakeSolution := deepfakeSolution st; loading := false;
             selectedFlags := selectedFlags st; feedback := JNull |},
          after [Alert "Failed to generate deepfake challenge. Please check your connection.";
                 ConsoleError "" (Some e)] w1))
    end.
Proof.
  unfold startDeepfakeChallenge, try_finally, try_catch.
  unfold mbind at 1 2, M_bind at 1 2.
  unfold setLoading at 1, setFeedback at 1, on_fst, modify. cbn [fst snd].
  unfold mbind at 1, M_bind at 1, on_snd at 1. cbn [fst snd].
  fold challenge_text.
  destruct (generateDeepfakeAudio GEMINI_API_KEY generateContent
              challenge_text w) as [[audio|e] w1]; reflexivity.
Qed.
End PageHandlers.


Section Analysis.
Variable GEMINI_API_KEY : option jsstring.
Variable generateContent :
  GenerateContentRequest → completion GenerateContentResponse.
Variable JSON_parse : option jsstring → completion json.
Variable JSON_stringify : json → jsstring.
Variable ToNumber : option json → option Q.
Variable fetch : string → json → completion unit.



End Analysis.


Example submitAnalysis_posts :
  filter is_HttpPost
    (trace (snd (snd (submitAnalysis Demo.key (λ _, Normal Demo.answer)
                        Demo.parse_verdict (λ _, []) Demo.number_of
                        Demo.fetch_ok (Demo.email, Demo.world0)))))
  = [HttpPost "/api/results"
       (JObj [("simulation_id", JNum 1%Q); ("is_correct", JBool true);
              ("response_time", JNum 45000%Q);
              ("feedback", JStr (lit "Well done."))])].
Proof. vm_compute. reflexivity. Qed.

Section Simulations.
Variable GEMINI_API_KEY : option jsstring.
Variable generateContent :
  GenerateContentRequest → completion GenerateContentResponse.
Variable JSON_parse : option jsstring → completion json.


End Simulations.


(** X16: [handleSendChatMessage] does nothing while the message is blank
    or an answer is awaited. Otherwise it never throws, empties the input,
    ends with the loading flag off, and only appends to the history: the
    message of the user, then the answer of the assistant ("No response"
    for an empty or missing text) or, when the call failed, nothing more
    than a log. *)
Theorem handleSendChatMessage_runs (GEMINI_API_KEY : option jsstring)
    (generateContent :
       GenerateContentRequest → completion GenerateContentResponse) st w :
  (blank (chatMessage st) ∨ isChatLoading st = true →
   handleSendChatMessage GEMINI_API_KEY generateContent (st, w)
   = (Normal (), (st, w)))
  ∧ (¬ blank (chatMessage st) → isChatLoading st = false →
     ∃ st' w',
       handleSendChatMessage GEMINI_API_KEY generateContent (st, w)
       = (Normal (), (st', w'))
       ∧ chatMessage st' = []
       ∧ isChatLoading st' = false
       ∧ match quickSecurityChat GEMINI_API_KEY generateContent
                 (chatMessage st) w with
         | (Normal answer, w1) =>
             chatHistory st'
             = chatHistory st
               ++ [{| role := from_user; entry_text := chatMessage st |};
                   {| role := from_ai;
                      entry_text := if falsy_string answer
                                    then lit "No response"
                                    else default [] answer |}]
             ∧ w' = w1
         | (Throw e, w1) =>
             chatHistory st'
             = chatHistory st
               ++ [{| role := from_user; entry_text := chatMessage st |}]
             ∧ w' = after [ConsoleError "" (Some e)] w1
         end).
Proof.
  split.
  - intros Hskip.
    unfold handleSendChatMessage. unfold mbind at 1, M_bind at 1, gets at 1.
    cbn [fst snd].
    assert (Hguard : falsy_string (Some (trim (chatMessage st)))
                     || isChatLoading st = true).
    { destruct Hskip as [Hblank|Hloading].
      - apply trim_nil_iff in Hblank. rewrite Hblank. reflexivity.
      - rewrite Hloading. apply orb_true_r. }
    rewrite Hguard. reflexivity.
  - intros Htext Hloading.
    unfold handleSendChatMessage. unfold mbind at 1, M_bind at 1, gets at 1.
    cbn [fst snd].
    assert (Hguard : falsy_string (Some (trim (chatMessage st)))
                     || isChatLoading st = false).
    { rewrite Hloading, orb_false_r. simpl. apply bool_decide_eq_false.
      intros Hnil. apply Htext, trim_nil_iff, Hnil. }
    rewrite Hguard.
    unfold try_finally, try_catch.
    unfold mbind at 1 2 3, M_bind at 1 2 3.
    unfold setChatMessage at 1, setChatHistory at 1, setIsChatLoading at 1,
      on_fst, modify. cbn [fst snd chatMessage chatHistory isChatLoading].
    unfold mbind at 1, M_bind at 1, on_snd at 1. cbn [fst snd].
    destruct (quickSecurityChat GEMINI_API_KEY generateContent
                (chatMessage st) w) as [[answer|e] w1].
    + eexists. eexists. split; [reflexivity|].
      cbn [fst snd chatMessage chatHistory isChatLoading].
      rewrite <- app_assoc. repeat split.
    + eexists. eexists. split; [reflexivity|].
      cbn [fst snd chatMessage chatHistory isChatLoading]. repeat split.
Qed.

Lemma handleSendChatMessage_runs_witness :
  ∃ st' w',
    handleSendChatMessage Demo.key Samples.chat_answer
      (Samples.chat, Demo.world0) = (Normal (), (st', w'))
    ∧ chatMessage st' = []
    ∧ chatHistory st'
      = [{| role := from_user; entry_text := lit "Is this link safe?" |};
         {| role := from_ai; entry_text := lit "Check the domain." |}].
Proof.
  destruct (handleSendChatMessage_runs Demo.key Samples.chat_answer
              Samples.chat Demo.world0) as [_ Hsend].
  destruct Hsend as (st' & w' & Hrun & Hmsg & _ & Hhist).
  - intros H. inversion H. discriminate.
  - reflexivity.
  - exists st', w'. split; [exact Hrun|]. split; [exact Hmsg|].
    destruct (quickSecurityChat Demo.key Samples.chat_answer
                (chatMessage Samples.chat) Demo.world0)
      as [[answer|e] w1] eqn:Hq.
    + vm_compute in Hq. injection Hq as <- _.
      destruct Hhist as [Hh _]. rewrite Hh. reflexivity.
    + vm_compute in Hq. discriminate Hq.
Defined.

Lemma handlePlayDeepfake_runs_aux (atob : jsstring → completion jsstring)
    isPlaying st w base64 binaryString :
  deepfakeAudio st = Some base64 →
  atob base64 = Normal binaryString →
  base64 ≠ [] →
  ∃ audio w',
    handlePlayDeepfake atob ((isPlaying, st), w)
    = (Normal (), ((true, st), w'))
    ∧ trace w' = Play (src audio) :: trace w
    ∧ audio_bytes w' audio
      = Some (header_bytes (Z.of_nat (length binaryString)) 24000
              ++ (byte_of_Z <$> binaryString)).
Proof.
  intros Hstored Hatob Hne.
  unfold handlePlayDeepfake.
  unfold mbind at 1, M_bind at 1, gets at 1. cbn [fst snd].
  rewrite Hstored. cbn [falsy_string].
  change (default [] (Some base64)) with base64.
  rewrite bool_decide_eq_false_2 by assumption.
  unfold mbind at 1, M_bind at 1, on_snd at 1. cbn [fst snd].
  rewrite (playAudio_decoded atob base64 binaryString w Hatob).
  cbn zeta. exists (Audio (length (object_urls w))). eexists.
  split; [reflexivity|].
  split; [reflexivity|].
  unfold audio_bytes. cbn [fst snd src Audio object_urls].
  rewrite lookup_app_r by lia.
  replace (length (object_urls w) - length (object_urls w))%nat
    with 0%nat by lia.
  reflexivity.
Qed.

(** X17: [handlePlayDeepfake] does nothing without stored audio. With
    audio it never throws: when the audio decodes it turns the playing
    flag on and plays the header followed by the decoded bytes; when it
    does not decode, the flag stays as it was and only the error is
    logged. *)
Theorem handlePlayDeepfake_runs (atob : jsstring → completion jsstring)
    isPlaying st w :
  match deepfakeAudio st with
  | None | Some [] =>
      handlePlayDeepfake atob ((isPlaying, st), w)
      = (Normal (), ((isPlaying, st), w))
  | Some base64 =>
      match atob base64 with
      | Normal binaryString =>
          ∃ audio w',
            handlePlayDeepfake atob ((isPlaying, st), w)
            = (Normal (), ((true, st), w'))
            ∧ trace w' = Play (src audio) :: trace w
            ∧ audio_bytes w' audio
              = Some (header_bytes (Z.of_nat (length binaryString)) 24000
                      ++ (byte_of_Z <$> binaryString))
      | Throw e =>
          handlePlayDeepfake atob ((isPlaying, st), w)
          = (Normal (),
             ((isPlaying, st),
              after [ConsoleError "Audio processing failed:" (Some e)] w))
      end
  end.
Proof.
  destruct (deepfakeAudio st) as [[|c base64]|] eqn:Hstored.
  - unfold handlePlayDeepfake.
    unfold mbind at 1, M_bind at 1, gets at 1. cbn [fst snd].
    rewrite Hstored. reflexivity.
  - destruct (atob (c :: base64)) as [binaryString|e] eqn:Hatob.
    + apply handlePlayDeepfake_runs_aux with (c :: base64);
        [assumption | assumption | discriminate].
    + unfold handlePlayDeepfake.
      unfold mbind at 1, M_bind at 1, gets at 1. cbn [fst snd].
      rewrite Hstored. cbn [falsy_string].
      change (default [] (Some (c :: base64))) with (c :: base64).
      rewrite bool_decide_eq_false_2 by discriminate.
      unfold mbind at 1, M_bind at 1, on_snd at 1. cbn [fst snd].
      rewrite (playAudio_failed atob (c :: base64) e w Hatob). reflexivity.
  - unfold handlePlayDeepfake.
    unfold mbind at 1, M_bind at 1, gets at 1. cbn [fst snd].
    rewrite Hstored. reflexivity.
Qed.

Example handlePlayDeepfake_plays :
  fst (fst (snd (handlePlayDeepfake Base64.atob
                   ((false, Demo.challenge), Demo.world0))))
  = true.
Proof. vm_compute. reflexivity. Qed.

(** X18: the audio that the API returned is the audio that is played:
    after [startDeepfakeChallenge] has stored the base64 string of the
    answer, [handlePlayDeepfake] plays the WAV header followed by the bytes
    that the string decodes to. *)
Theorem challenge_then_play (GEMINI_API_KEY : option jsstring)
    (generateContent :
       GenerateContentRequest → completion GenerateContentResponse)
    (atob : jsstring → completion jsstring)
    isPlaying st w base64 w1 binaryString :
  generateDeepfakeAudio GEMINI_API_KEY generateContent challenge_text w
  = (Normal base64, w1) →
  atob base64 = Normal binaryString →
  ∃ st1 audio w2,
    startDeepfakeChallenge GEMINI_API_KEY generateContent (st, w)
    = (Normal (), (st1, w1))
    ∧ handlePlayDeepfake atob ((isPlaying, st1), w1)
      = (Normal (), ((true, st1), w2))
    ∧ audio_bytes w2 audio
      = Some (header_bytes (Z.of_nat (length binaryString)) 24000
              ++ (byte_of_Z <$> binaryString)).
Proof.
  intros Hgen Hatob.
  pose proof (generateDeepfakeAudio_returns_nonempty _ _ _ _ _ _ Hgen)
    as Hne.
  rewrite startDeepfakeChallenge_run, Hgen.
  destruct base64 as [|c base64]; [congruence|].
  cbn [falsy_string]. rewrite bool_decide_eq_false_2 by discriminate.
  eexists.
  match goal with
  | |- context [(Normal (), (?s, w1))] =>
      pose proof (handlePlayDeepfake_runs_aux atob isPlaying s w1
                    (c :: base64) binaryString eq_refl Hatob
                    ltac:(discriminate)) as Hplay
  end.
  destruct Hplay as (audio & w2 & Hplay & _ & Hbytes).
  exists audio, w2. split; [reflexivity|]. split; assumption.
Qed.

Lemma challenge_then_play_witness :
  ∃ st1 audio w2,
    startDeepfakeChallenge Demo.key Samples.remote
      (Demo.challenge, Demo.world0)
    = (Normal (),
       (st1, after [ApiCall (tts_request challenge_text)] Demo.world0))
    ∧ handlePlayDeepfake Base64.atob
        ((false, st1),
         after [ApiCall (tts_request challenge_text)] Demo.world0)
      = (Normal (), ((true, st1), w2))
    ∧ audio_bytes w2 audio
      = Some (header_bytes 4 24000 ++ (byte_of_Z <$> [0; 1; 2; 255])).
Proof.
  apply (challenge_then_play Demo.key Samples.remote Base64.atob false
           Demo.challenge Demo.world0 (lit "AAEC/w==")
           (after [ApiCall (tts_request challenge_text)] Demo.world0)
           [0; 1; 2; 255]).
  - vm_compute. reflexivity.
  - vm_compute. reflexivity.
Defined.

(** ** More about the database *)

Import Server Admin Tables.

Lemma keeps_modify {S} (P : S → Prop) (f : S → S) :
  (∀ s, P s → P (f s)) → keeps P (modify f).
Proof. intros Hf s Hs. apply Hf, Hs. Qed.

Lemma insert_row_well_numbered {A} (r : A) (t : table A) :
  well_numbered t → well_numbered (fst (insert_row r t)).
Proof.
  intros [Hseq Hids]. split; cbn; [lia|].
  intros id Hid.
  destruct (decide (seq t + 1 = id)) as [<-|Hne]; [lia|].
  rewrite lookup_insert_ne in Hid by assumption.
  specialize (Hids id Hid). lia.
Qed.

Lemma insert_row_fresh {A} (r : A) (t : table A) :
  well_numbered t → rows t !! (seq t + 1) = None.
Proof.
  intros [_ Hids].
  destruct (rows t !! (seq t + 1)) eqn:Hrow; [|reflexivity].
  specialize (Hids (seq t + 1) (mk_is_Some _ _ Hrow)). lia.
Qed.

Section Numbering.
Variable foreign_keys : bool.
Variable text_to_int : jsstring → option Z.

Ltac numbering H :=
  unfold well_numbered_db; cbn; split_and!; try assumption;
  try apply (insert_row_well_numbered _ _ H).

Lemma keeps_numbering_insert_department n risk :
  keeps well_numbered_db (insert_department n risk).
Proof.
  intros d (H1 & H2 & H3 & H4 & H5). unfold insert_department.
  destruct (bool_decide _); numbering H1.
Qed.

Lemma keeps_numbering_insert_employee n e dept :
  keeps well_numbered_db (insert_employee n e dept).
Proof.
  intros d (H1 & H2 & H3 & H4 & H5). unfold insert_employee.
  destruct (bool_decide _); numbering H2.
Qed.

Lemma keeps_numbering_insert_simulation ty diff :
  keeps well_numbered_db (insert_simulation ty diff).
Proof.
  intros d (H1 & H2 & H3 & H4 & H5). unfold insert_simulation.
  numbering H3.
Qed.

Lemma keeps_numbering_store_result r :
  keeps well_numbered_db (store_result foreign_keys text_to_int r).
Proof.
  intros d (H1 & H2 & H3 & H4 & H5). unfold store_result.
  destruct (_ && _); numbering H5.
Qed.

Lemma keeps_numbering_store_campaign c :
  keeps well_numbered_db (store_campaign foreign_keys text_to_int c).
Proof.
  intros d (H1 & H2 & H3 & H4 & H5). unfold store_campaign.
  destruct (_ && _); numbering H4.
Qed.

Lemma keeps_numbering_update_score f id :
  keeps well_numbered_db (update_score text_to_int f id).
Proof.
  unfold update_score.
  apply keeps_bind; [apply keeps_lift|]. intros target.
  apply keeps_modify. intros d (H1 & [Hseq Hids] & H3 & H4 & H5).
  unfold with_employees, well_numbered_db; cbn. split_and!; try assumption.
  destruct (sql_int text_to_int (parameter 0 target)) as [k|]; [|by split].
  split; [exact Hseq|]. cbn. intros id0 Hid. apply Hids.
  apply lookup_alter_is_Some in Hid. exact Hid.
Qed.
End Numbering.

Ltac numbering_step :=
  first
    [ apply keeps_ret | apply keeps_lift | apply keeps_gets
    | apply keeps_numbering_insert_department
    | apply keeps_numbering_insert_employee
    | apply keeps_numbering_insert_simulation
    | apply keeps_numbering_store_result
    | apply keeps_numbering_store_campaign
    | apply keeps_numbering_update_score
    | apply keeps_if
    | apply keeps_bind; [|intros ?] ].

(** The frame of each statement: what it leaves as it is. *)

Lemma same_staff_refl d : same_staff d d.
Proof. repeat split. Qed.

Section Frame.
Variable foreign_keys : bool.
Variable text_to_int : jsstring → option Z.
Variable d0 : db.

Lemma keeps_staff_insert_simulation ty diff :
  keeps (same_staff d0) (insert_simulation ty diff).
Proof. intros d Hd. exact Hd. Qed.

Lemma keeps_staff_store_result r :
  keeps (same_staff d0) (store_result foreign_keys text_to_int r).
Proof.
  intros d Hd. unfold store_result. destruct (_ && _); exact Hd.
Qed.

Lemma keeps_staff_store_campaign c :
  keeps (same_staff d0) (store_campaign foreign_keys text_to_int c).
Proof.
  intros d Hd. unfold store_campaign. destruct (_ && _); exact Hd.
Qed.

Lemma keeps_staff_update_score f id :
  keeps (same_staff d0) (update_score text_to_int f id).
Proof.
  unfold update_score.
  apply keeps_bind; [apply keeps_lift|]. intros target.
  apply keeps_modify. intros d (Hdep & Hseq & Hrows).
  unfold with_employees, same_staff. cbn.
  destruct (sql_int text_to_int (parameter 0 target)) as [k|];
    [|by split_and!].
  split_and!; [exact Hdep|exact Hseq|]. cbn. intros i. rewrite <- Hrows.
  destruct (decide (k = i)) as [->|Hne].
  - rewrite lookup_alter_eq.
    destruct (rows (employees d) !! i); reflexivity.
  - rewrite lookup_alter_ne by assumption. reflexivity.
Qed.

Lemma keeps_staff_post_results body :
  keeps (same_staff d0) (post_results foreign_keys text_to_int body).
Proof.
  unfold post_results, insert_result.
  repeat first
    [ apply keeps_ret | apply keeps_lift
    | apply keeps_staff_insert_simulation | apply keeps_staff_store_result
    | apply keeps_staff_update_score | apply keeps_if
    | apply keeps_bind; [|intros ?] ].
Qed.

Lemma keeps_staff_post_campaigns body :
  keeps (same_staff d0) (post_campaigns foreign_keys text_to_int body).
Proof.
  unfold post_campaigns, insert_campaign.
  repeat first
    [ apply keeps_ret | apply keeps_lift | apply keeps_staff_store_campaign
    | apply keeps_bind; [|intros ?] ].
Qed.
End Frame.

Section Reachable.
Variable foreign_keys : bool.
Variable text_to_int : jsstring → option Z.

Lemma keeps_numbering_post_results body :
  keeps well_numbered_db (post_results foreign_keys text_to_int body).
Proof. unfold post_results, insert_result. repeat numbering_step. Qed.

Lemma keeps_numbering_post_campaigns body :
  keeps well_numbered_db (post_campaigns foreign_keys text_to_int body).
Proof. unfold post_campaigns, insert_campaign. repeat numbering_step. Qed.

Lemma keeps_numbering_seed random : keeps well_numbered_db (seed random).
Proof. unfold seed. repeat numbering_step. Qed.

Lemma empty_db_well_numbered : well_numbered_db empty_db.
Proof.
  unfold well_numbered_db, well_numbered. cbn.
  split_and!; try lia; intros id; rewrite lookup_empty;
    intros [? H]; discriminate H.
Qed.

Lemma reachable_well_numbered d :
  reachable foreign_keys text_to_int d → well_numbered_db d.
Proof.
  induction 1.
  - apply keeps_numbering_seed, empty_db_well_numbered.
  - apply keeps_numbering_seed. assumption.
  - apply keeps_numbering_post_results. assumption.
  - apply keeps_numbering_post_campaigns. assumption.
Qed.

(** With a department in the table the seed does nothing. *)
Lemma seed_again random d :
  rows (departments d) ≠ ∅ → seed random d = (Normal (), d).
Proof.
  intros Hne. unfold seed, mbind, M_bind, gets.
  rewrite bool_decide_eq_false_2; [reflexivity|].
  intros Hsize. apply Hne. apply map_size_empty_iff. exact Hsize.
Qed.

Lemma seed_departments random :
  rows (departments (snd (seed random empty_db))) ≠ ∅.
Proof.
  intros Hempty.
  assert (Hrow : rows (departments (snd (seed random empty_db))) !! 1
                 = None) by (rewrite Hempty; apply lookup_empty).
  vm_compute in Hrow. discriminate Hrow.
Qed.

Lemma reachable_staff d :
  reachable foreign_keys text_to_int d →
  ∃ random, same_staff (snd (seed random empty_db)) d.
Proof.
  induction 1 as [random|random d Hd [r0 IH]|body d Hd [r0 IH]
                  |body d Hd [r0 IH]].
  - exists random. apply same_staff_refl.
  - exists r0. rewrite (seed_again random d); [exact IH|].
    destruct IH as [-> _]. apply seed_departments.
  - exists r0. apply keeps_staff_post_results, IH.
  - exists r0. apply keeps_staff_post_campaigns, IH.
Qed.

Lemma reachable_departments d :
  reachable foreign_keys text_to_int d → rows (departments d) ≠ ∅.
Proof.
  intros Hreach. destruct (reachable_staff d Hreach) as [r0 [-> _]].
  apply seed_departments.
Qed.
End Reachable.

(** The row that a served request stores. *)

Section StoredRow.
Variable foreign_keys : bool.
Variable text_to_int : jsstring → option Z.

Lemma store_result_Normal row d id d' :
  store_result foreign_keys text_to_int row d = (Normal id, d') →
  id = seq (results d) + 1
  ∧ results d' = fst (insert_row row (results d))
  ∧ simulations d' = simulations d.
Proof.
  unfold store_result. destruct (_ && _); [discriminate|].
  intros [= <- <-]. repeat split.
Qed.

Lemma insert_result_Normal emp sim camp correct time fb d id d' :
  insert_result foreign_keys text_to_int emp sim camp correct time fb d
  = (Normal id, d') →
  ∃ values,
    bind 6 [emp; sim; camp; Some (JNum (inject_Z correct)); time; fb]
    = Normal values
    ∧ store_result foreign_keys text_to_int (result_row values) d
      = (Normal id, d').
Proof.
  unfold insert_result. intros H.
  apply bind_Normal in H as (values & s1 & H1 & H).
  apply lift_Normal in H1 as [H1 ->].
  exists values. split; assumption.
Qed.

Lemma post_results_row body d r d' :
  post_results foreign_keys text_to_int body d = (Normal r, d') →
  ∃ eid sid cid ic rt fb values,
    get body "employee_id" = Normal eid
    ∧ get body "simulation_id" = Normal sid
    ∧ get body "campaign_id" = Normal cid
    ∧ get body "is_correct" = Normal ic
    ∧ get body "response_time" = Normal rt
    ∧ get body "feedback" = Normal fb
    ∧ bind 6 [or_else eid (Some (JNum 1%Q));
              if truthy sid then sid
              else Some (JNum (inject_Z (seq (simulations d) + 1)));
              or_else cid (Some JNull);
              Some (JNum (inject_Z (if truthy ic then 1 else 0)));
              or_else rt (Some (JNum 0%Q));
              or_else fb (Some (JStr []))]
      = Normal values
    ∧ r = JObj [("id", JNum (inject_Z (seq (results d) + 1)))]
    ∧ results d' = fst (insert_row (result_row values) (results d))
    ∧ simulations d'
      = (if truthy sid then simulations d
         else fst (insert_row unknown_simulation (simulations d))).
Proof.
  unfold post_results. intros H.
  apply bind_Normal in H as (eid & s1 & H1 & H).
  apply lift_Normal in H1 as [H1 ->].
  apply bind_Normal in H as (sid & s2 & H2 & H).
  apply lift_Normal in H2 as [H2 ->].
  apply bind_Normal in H as (cid & s3 & H3 & H).
  apply lift_Normal in H3 as [H3 ->].
  apply bind_Normal in H as (ic & s4 & H4 & H).
  apply lift_Normal in H4 as [H4 ->].
  apply bind_Normal in H as (rt & s5 & H5 & H).
  apply lift_Normal in H5 as [H5 ->].
  apply bind_Normal in H as (fb & s6 & H6 & H).
  apply lift_Normal in H6 as [H6 ->].
  apply bind_Normal in H as (simId & d1 & Hsim & H).
  apply bind_Normal in H as (id & d2 & Hins & H).
  apply bind_Normal in H as (u & d3 & Hupd & H).
  apply ret_Normal in H as [-> ->].
  apply insert_result_Normal in Hins as (values & Hvalues & Hstore).
  apply store_result_Normal in Hstore as (-> & Hres & Hsims).
  assert (Hd1 : simId = (if truthy sid then sid
                         else Some (JNum (inject_Z (seq (simulations d) + 1))))
                ∧ results d1 = results d
                ∧ simulations d1
                  = (if truthy sid then simulations d
                     else fst (insert_row unknown_simulation
                                 (simulations d)))).
  { destruct (truthy sid); cbn [negb] in Hsim.
    - apply ret_Normal in Hsim as [-> ->]. repeat split.
    - apply bind_Normal in Hsim as (i & s & Hi & Hsim).
      apply ret_Normal in Hsim as [-> ->].
      unfold insert_simulation in Hi. injection Hi as <- <-.
      repeat split. }
  destruct Hd1 as (-> & Hr1 & Hs1).
  assert (Hd3 : results d3 = results d2 ∧ simulations d3 = simulations d2).
  { destruct (negb (truthy ic));
      apply update_score_Normal in Hupd as (target & _ & ->);
      split; reflexivity. }
  destruct Hd3 as [Hr3 Hs3].
  exists eid, sid, cid, ic, rt, fb, values.
  rewrite Hr3, Hs3, Hres, Hsims, Hr1, Hs1.
  repeat split; assumption.
Qed.
End StoredRow.

(** X19: on a database that the server can reach, a served
    [POST /api/results] adds exactly one row to [results], under an id
    above every id of the table, which the response carries; every earlier
    row stays as it was. *)
Theorem post_results_appends (foreign_keys : bool)
    (text_to_int : jsstring → option Z) (body : json) (d : db) (r : json)
    (d' : db) :
  reachable foreign_keys text_to_int d →
  post_results foreign_keys text_to_int body d = (Normal r, d') →
  ∃ id row,
    r = JObj [("id", JNum (inject_Z id))]
    ∧ (∀ k, is_Some (rows (results d) !! k) → k < id)
    ∧ rows (results d') !! id = Some row
    ∧ (∀ k, k ≠ id → rows (results d') !! k = rows (results d) !! k)
    ∧ size (rows (results d')) = S (size (rows (results d))).
Proof.
  intros Hreach H.
  apply reachable_well_numbered in Hreach as (_ & _ & _ & _ & Hnum).
  apply post_results_row in H
    as (eid & sid & cid & ic & rt & fb & values & _ & _ & _ & _ & _ & _
        & _ & -> & -> & _).
  exists (seq (results d) + 1), (result_row values). cbn.
  split_and!; try done.
  - intros k Hk. apply Hnum in Hk. lia.
  - apply lookup_insert_eq.
  - intros k Hk. apply lookup_insert_ne. congruence.
  - apply map_size_insert_None, insert_row_fresh;
      [exact (result_row values)|exact Hnum].
Qed.

Lemma post_results_appends_witness :
  ∃ id row,
    JObj [("id", JNum 1%Q)] = JObj [("id", JNum (inject_Z id))]
    ∧ (∀ k, is_Some (rows (results Demo.db0) !! k) → k < id)
    ∧ rows (results
              (snd (post_results false (λ _, None) Demo.wrong_answer
                      Demo.db0))) !! id = Some row
    ∧ (∀ k, k ≠ id →
         rows (results
                 (snd (post_results false (λ _, None) Demo.wrong_answer
                         Demo.db0))) !! k
         = rows (results Demo.db0) !! k)
    ∧ size (rows (results
                    (snd (post_results false (λ _, None) Demo.wrong_answer
                            Demo.db0))))
      = S (size (rows (results Demo.db0))).
Proof.
  apply (post_results_appends false (λ _, None) Demo.wrong_answer Demo.db0).
  - apply reach_start.
  - vm_compute. reflexivity.
Defined.

Lemma post_results_campaigns (foreign_keys : bool)
    (text_to_int : jsstring → option Z) (body : json) (d : db) :
  campaigns (snd (post_results foreign_keys text_to_int body d))
  = campaigns d.
Proof.
  assert (Hkeep : keeps (λ d', campaigns d' = campaigns d)
                    (post_results foreign_keys text_to_int body)).
  { unfold post_results, insert_result.
    repeat first
      [ apply keeps_ret | apply keeps_lift | apply keeps_if
      | intros s Hs; exact Hs
      | intros s Hs; unfold store_result; destruct (_ && _); exact Hs
      | apply keeps_bind; [|intros ?] ]. }
  apply Hkeep. reflexivity.
Qed.

Lemma post_campaigns_frame (foreign_keys : bool)
    (text_to_int : jsstring → option Z) (body : json) (d : db) :
  let d' := snd (post_campaigns foreign_keys text_to_int body d) in
  departments d' = departments d ∧ employees d' = employees d
  ∧ simulations d' = simulations d ∧ results d' = results d.
Proof.
  assert (Hkeep : keeps (λ d', departments d' = departments d
                               ∧ employees d' = employees d
                               ∧ simulations d' = simulations d
                               ∧ results d' = results d)
                    (post_campaigns foreign_keys text_to_int body)).
  { unfold post_campaigns, insert_campaign.
    repeat first
      [ apply keeps_ret | apply keeps_lift
      | intros s Hs; unfold store_campaign; destruct (_ && _); exact Hs
      | apply keeps_bind; [|intros ?] ]. }
  apply Hkeep. repeat split.
Qed.

(** X20: whatever it answers, [POST /api/results] leaves the departments
    and the campaigns as they are, adds or removes no employee and changes
    no name, email or department of an employee; and
    [POST /api/admin/campaigns] leaves every table but [campaigns] as it
    is. *)
Theorem posts_frame (foreign_keys : bool)
    (text_to_int : jsstring → option Z) (body : json) (d : db) :
  (let d' := snd (post_results foreign_keys text_to_int body d) in
   same_staff d d' ∧ campaigns d' = campaigns d)
  ∧ (let d' := snd (post_campaigns foreign_keys text_to_int body d) in
     departments d' = departments d ∧ employees d' = employees d
     ∧ simulations d' = simulations d ∧ results d' = results d).
Proof.
  split; cbn zeta.
  - split; [apply keeps_staff_post_results, same_staff_refl|].
    apply post_results_campaigns.
  - apply post_campaigns_frame.
Qed.

(** Arguments that are one value each bind in order, one to a
    parameter. *)

Lemma bind_args_single params bound bound_object v rest :
  single v = true →
  bind_args params bound bound_object (v :: rest)
  = (x ← bind_value v;
     if (length bound <? params)%nat
     then bind_args params (bound ++ [x]) bound_object rest
     else Throw RangeError).
Proof.
  intros Hv.
  destruct v as [[| | | | |]|]; try discriminate Hv;
    cbn [bind_args bind_values bind_value mbind completion_bind];
    destruct (length bound <? params)%nat; reflexivity.
Qed.

Lemma bind_args_singles params bound bound_object args values :
  forallb single args = true →
  bind_args params bound bound_object args = Normal values →
  ∃ xs, values = bound ++ xs
        ∧ Forall2 (λ a x, bind_value a = Normal x) args xs.
Proof.
  revert bound. induction args as [|v args IH]; intros bound Hsingle H.
  - cbn [bind_args] in H. destruct (length bound <? params)%nat;
      [discriminate|].
    injection H as <-. exists []. rewrite app_nil_r. split; constructor.
  - cbn [forallb] in Hsingle. apply andb_true_iff in Hsingle as [Hv Hargs].
    rewrite (bind_args_single _ _ _ _ _ Hv) in H.
    unfold mbind, completion_bind in H.
    destruct (bind_value v) as [x|e] eqn:Hx; [|discriminate].
    destruct (length bound <? params)%nat; [|discriminate].
    destruct (IH _ Hargs H) as (xs & -> & Hxs).
    exists (x :: xs). rewrite <- app_assoc. split; [reflexivity|].
    constructor; assumption.
Qed.

Lemma single_or_else v w :
  single v = true → single w = true → single (or_else v w) = true.
Proof. intros Hv Hw. unfold or_else. destruct (truthy v); assumption. Qed.

(** X21: when each field of the body is one value for the binder, neither
    an array nor an object, the row of a served [POST /api/results] holds
    the verdict as the number 1 or 0 and a default for every falsy field:
    employee 1, no campaign, a response time of 0 and an empty feedback;
    and for a falsy [simulation_id] it names the simulation of type
    'unknown' and difficulty 1 that the request has just created. *)
Theorem post_results_defaults (foreign_keys : bool)
    (text_to_int : jsstring → option Z) (body : json) (d : db) (r : json)
    (d' : db) :
  single_fields body = true →
  post_results foreign_keys text_to_int body d = (Normal r, d') →
  ∃ row,
    rows (results d') !! (seq (results d) + 1) = Some row
    ∧ (∀ v, get body "is_correct" = Normal v →
         is_correct row = SqlNum (inject_Z (if truthy v then 1 else 0)))
    ∧ (∀ v, get body "employee_id" = Normal v → truthy v = false →
         employee_id row = SqlNum 1%Q)
    ∧ (∀ v, get body "campaign_id" = Normal v → truthy v = false →
         campaign_id row = SqlNull)
    ∧ (∀ v, get body "response_time" = Normal v → truthy v = false →
         response_time row = SqlNum 0%Q)
    ∧ (∀ v, get body "feedback" = Normal v → truthy v = false →
         feedback row = SqlText [])
    ∧ (∀ v, get body "simulation_id" = Normal v → truthy v = false →
         simulation_id row = SqlNum (inject_Z (seq (simulations d) + 1))
         ∧ rows (simulations d') !! (seq (simulations d) + 1)
           = Some unknown_simulation).
Proof.
  intros Hsingle H.
  apply post_results_row in H
    as (eid & sid & cid & ic & rt & fb & values & He & Hs & Hc & Hi & Ht
        & Hf & Hvalues & _ & -> & ->).
  unfold single_fields in Hsingle. cbn [forallb] in Hsingle.
  rewrite He, Hs, Hc, Ht, Hf in Hsingle.
  apply andb_true_iff in Hsingle as [Se Hsingle].
  apply andb_true_iff in Hsingle as [Ss Hsingle].
  apply andb_true_iff in Hsingle as [Sc Hsingle].
  apply andb_true_iff in Hsingle as [St Hsingle].
  apply andb_true_iff in Hsingle as [Sf _].
  apply bind_args_singles in Hvalues as (xs & -> & Hxs).
  2: { cbn [forallb].
       rewrite !single_or_else by (assumption || reflexivity).
       destruct (truthy sid); [rewrite Ss|]; reflexivity. }
  cbn [app] in *.
  apply Forall2_cons_inv_l in Hxs as (x1 & xs1 & B1 & Hxs & ->).
  apply Forall2_cons_inv_l in Hxs as (x2 & xs2 & B2 & Hxs & ->).
  apply Forall2_cons_inv_l in Hxs as (x3 & xs3 & B3 & Hxs & ->).
  apply Forall2_cons_inv_l in Hxs as (x4 & xs4 & B4 & Hxs & ->).
  apply Forall2_cons_inv_l in Hxs as (x5 & xs5 & B5 & Hxs & ->).
  apply Forall2_cons_inv_l in Hxs as (x6 & xs6 & B6 & Hxs & ->).
  exists (result_row (x1 :: x2 :: x3 :: x4 :: x5 :: x6 :: xs6)).
  split; [apply lookup_insert_eq|].
  unfold result_row, parameter, or_else in *.
  cbn [nth employee_id simulation_id campaign_id is_correct response_time
       feedback bind_value] in *.
  split_and!; intros v Hv; [|intros Hfalsy..].
  - rewrite Hi in Hv. injection Hv as <-. injection B4 as <-. reflexivity.
  - rewrite He in Hv. injection Hv as <-. rewrite Hfalsy in B1.
    injection B1 as <-. reflexivity.
  - rewrite Hc in Hv. injection Hv as <-. rewrite Hfalsy in B3.
    injection B3 as <-. reflexivity.
  - rewrite Ht in Hv. injection Hv as <-. rewrite Hfalsy in B5.
    injection B5 as <-. reflexivity.
  - rewrite Hf in Hv. injection Hv as <-. rewrite Hfalsy in B6.
    injection B6 as <-. reflexivity.
  - rewrite Hs in Hv. injection Hv as <-. rewrite Hfalsy in B2 |- *.
    injection B2 as <-. split; [reflexivity|apply lookup_insert_eq].
Qed.

Lemma post_results_defaults_witness :
  ∃ row,
    rows (results
            (snd (post_results false (λ _, None) Demo.wrong_answer
                    Demo.db0))) !! (seq (results Demo.db0) + 1)
    = Some row
    ∧ is_correct row = SqlNum 0%Q
    ∧ employee_id row = SqlNum 1%Q
    ∧ feedback row = SqlText [].
Proof.
  destruct (post_results_defaults false (λ _, None) Demo.wrong_answer
              Demo.db0 (JObj [("id", JNum 1%Q)])
              (snd (post_results false (λ _, None) Demo.wrong_answer
                      Demo.db0)))
    as (row & Hrow & Hi & He & _ & _ & Hf & _).
  - reflexivity.
  - vm_compute. reflexivity.
  - exists row. split_and!; [exact Hrow| | |].
    + apply (Hi (Some (JBool false))). reflexivity.
    + apply (He None); reflexivity.
    + apply (Hf None); reflexivity.
Defined.

(** An array in the body is spread over the parameters: here the verdict
    lands in the column of the campaign and the column [is_correct] takes
    NULL; the request is served all the same. *)
Example post_results_shifted :
  ∃ d',
    post_results false (λ _, None)
      (JObj [("simulation_id", JArr []); ("campaign_id", JNum 2%Q);
             ("is_correct", JBool true);
             ("response_time", JArr [JNull; JNum 7%Q])])
      Demo.db0
    = (Normal (JObj [("id", JNum 1%Q)]), d')
    ∧ rows (results d') !! 1
      = Some {| employee_id := SqlNum 1%Q; simulation_id := SqlNum 2%Q;
                campaign_id := SqlNum 1%Q; is_correct := SqlNull;
                response_time := SqlNum 7%Q; feedback := SqlText [] |}.
Proof. eexists. split; vm_compute; reflexivity. Qed.

(** An id in an array names its employee like the id itself. *)
Example post_results_array_id :
  security_score
  <$> rows (employees
              (snd (post_results false (λ _, None)
                      (JObj [("employee_id", JArr [JNum 2%Q])])
                      Demo.db0))) !! 2
  = Some 95.
Proof. vm_compute. reflexivity. Qed.



(** X23: after n served requests that all name employee k and all carry
    the same verdict, the score s of that employee, which lay between 0 and
    100, is max(0, s - 5n) for wrong answers and min(100, s + 2n) for
    correct ones. *)
Theorem repeated_verdicts (foreign_keys : bool)
    (text_to_int : jsstring → option Z) (correct : bool) (k : Z)
    (bodies : list json) (d d' : db) (e : employee) :
  Forall (targets text_to_int k) bodies →
  Forall (verdict correct) bodies →
  serve_all foreign_keys text_to_int bodies d = Some d' →
  rows (employees d) !! k = Some e →
  0 ≤ security_score e ≤ 100 →
  security_score <$> rows (employees d') !! k
  = Some (if correct
          then Z.min 100 (security_score e + 2 * Z.of_nat (length bodies))
          else Z.max 0 (security_score e - 5 * Z.of_nat (length bodies))).
Proof.
  intros Htargets. revert d e.
  induction Htargets as [|body rest Hbody Hrest IH];
    intros d e Hverdicts Hserve He Hrange.
  - injection Hserve as <-. rewrite He. cbn.
    destruct correct; f_equal; lia.
  - apply Forall_cons in Hverdicts as [Hverdict Hverdicts].
    cbn [serve_all] in Hserve.
    destruct (post_results foreign_keys text_to_int body d)
      as [[r|err] d1] eqn:Hpost; [|discriminate].
    apply post_results_employees in Hpost
      as (eid & ic & target & Heid & Hic & Hbind & Hemployees).
    destruct Hbody as (eid' & target' & Heid' & Hbind' & Hint).
    rewrite Heid in Heid'. injection Heid' as <-.
    rewrite Hbind in Hbind'. injection Hbind' as <-.
    destruct Hverdict as (ic' & Hic' & Htruthy).
    rewrite Hic in Hic'. injection Hic' as <-.
    rewrite Hint, Htruthy in Hemployees.
    assert (He1 : rows (employees d1) !! k
                  = Some (with_score (new_score correct (security_score e))
                            e)).
    { rewrite Hemployees. cbn [rows]. rewrite lookup_alter_eq, He.
      reflexivity. }
    rewrite (IH d1 _ Hverdicts Hserve He1);
      cbn [length security_score with_score]; unfold new_score;
      destruct correct; try f_equal; lia.
Qed.

Lemma repeated_verdicts_witness :
  security_score
  <$> rows (employees
              (default Demo.db0
                 (serve_all false (λ _, None)
                    (replicate 3 Demo.wrong_answer) Demo.db0))) !! 1
  = Some 85.
Proof.
  destruct (serve_all false (λ _, None) (replicate 3 Demo.wrong_answer)
              Demo.db0) as [d'|] eqn:Hserve; [|vm_compute in Hserve; discriminate].
  cbn [default from_option id].
  rewrite (repeated_verdicts false (λ _, None) false 1
             (replicate 3 Demo.wrong_answer) Demo.db0 d'
             {| name := lit "Alice Chen"; email := lit "alice@corp.com";
                dept_id := Some 1; security_score := 100 |}).
  - reflexivity.
  - repeat constructor;
      exists None, (SqlNum 1%Q); repeat split; reflexivity.
  - repeat constructor;
      exists (Some (JBool false)); split; reflexivity.
  - exact Hserve.
  - vm_compute. reflexivity.
  - cbn. lia.
Defined.

(** X24: the first start fills an empty database with the five
    departments, under the ids 1 to 5 and with a risk score of 60 plus the
    random number drawn for each, and with three employees, each linked to
    the department of its name and holding the default score of 100; it
    stores no simulation, campaign or result. *)
Theorem seed_first_start (random : nat → Z) :
  ∃ d,
    seed random empty_db = (Normal (), d)
    ∧ rows (departments d)
      = list_to_map
          (imap (λ i n, (Z.of_nat i + 1,
                         {| dept_name := n; risk_score := random i + 60 |}))
             seeded_departments)
    ∧ card <$> rows (employees d)
      = list_to_map
          [(1, (lit "Alice Chen", lit "alice@corp.com", Some 1, 100));
           (2, (lit "Bob Smith", lit "bob@corp.com", Some 2, 100));
           (3, (lit "Charlie Day", lit "charlie@corp.com", Some 3, 100))]
    ∧ simulations d = empty_table
    ∧ campaigns d = empty_table
    ∧ results d = empty_table.
Proof.
  exists (snd (seed random empty_db)).
  split_and!; vm_compute; reflexivity.
Qed.

(** X25: every database that the server can reach holds the departments of
    the first start and the employees of the first start, up to their
    scores; so the seed at a restart finds departments and changes
    nothing. *)
Theorem seed_only_once (foreign_keys : bool)
    (text_to_int : jsstring → option Z) (d : db) :
  reachable foreign_keys text_to_int d →
  (∃ random, same_staff (snd (seed random empty_db)) d)
  ∧ ∀ random, seed random d = (Normal (), d).
Proof.
  intros Hreach.
  destruct (reachable_staff _ _ _ Hreach) as [r0 Hstaff].
  split; [exists r0; exact Hstaff|].
  intros random. apply seed_again.
  apply (reachable_departments _ _ _ Hreach).
Qed.

Lemma seed_only_once_witness :
  seed (λ _, 3)
    (snd (post_results false (λ _, None) Demo.wrong_answer Demo.db0))
  = (Normal (),
     snd (post_results false (λ _, None) Demo.wrong_answer Demo.db0)).
Proof.
  apply (seed_only_once false (λ _, None)).
  apply reach_results, reach_start.
Defined.

(** X26: the result that the deepfake page posts names simulation 3 and,
    by default, employee 1. Where foreign keys are enforced and one of the
    two rows is missing, the request fails and the database stays as it
    is; in every other case it is served, and the score of employee 1
    goes up by 2 for a right guess and down by 5 for a wrong one, within 0
    and 100. *)
Theorem deepfake_result (foreign_keys : bool)
    (text_to_int : jsstring → option Z) (isCorrect : bool) (d : db) :
  if foreign_keys
     && negb (bool_decide (is_Some (rows (employees d) !! 1))
              && bool_decide (is_Some (rows (simulations d) !! 3)))
  then
    post_results foreign_keys text_to_int (deepfake_body isCorrect) d
    = (Throw (ErrorMsg "FOREIGN KEY constraint failed"), d)
  else
    ∃ d',
      post_results foreign_keys text_to_int (deepfake_body isCorrect) d
      = (Normal (JObj [("id", JNum (inject_Z (seq (results d) + 1)))]), d')
      ∧ simulations d' = simulations d
      ∧ ∀ id,
          security_score <$> rows (employees d') !! id
          = (λ e, if bool_decide (id = 1)
                  then new_score isCorrect (security_score e)
                  else security_score e)
            <$> rows (employees d) !! id.
Proof.
  unfold post_results, deepfake_body.
  cbn [get assoc String.eqb Ascii.eqb Bool.eqb].
  unfold mbind, M_bind, lift, mret, M_ret, or_else. cbv beta iota.
  destruct isCorrect;
    repeat match goal with
    | |- context [truthy ?x] =>
        let v := eval vm_compute in (truthy x) in
        change (truthy x) with v; cbv iota
    end;
    cbn [negb];
    unfold insert_result, update_score, mbind, M_bind, lift, modify;
    repeat match goal with
    | |- context [bind ?p ?x] =>
        let v := eval vm_compute in (bind p x) in
        change (bind p x) with v; cbv beta iota
    end;
    unfold store_result, result_row, parameter;
    cbn [nth employee_id simulation_id campaign_id references];
    change (sql_int text_to_int (SqlNum 1%Q)) with (Some 1);
    change (sql_int text_to_int (SqlNum 3%Q)) with (Some 3);
    rewrite andb_true_r;
    (destruct (foreign_keys && negb _); [reflexivity|]);
    cbn [insert_row];
    (eexists; split; [reflexivity|]; split; [reflexivity|]);
    intros id; unfold with_employees; cbn [employees rows];
    (destruct (decide (1 = id)) as [<-|Hne];
     [rewrite lookup_alter_eq, bool_decide_eq_true_2 by reflexivity;
      destruct (rows (employees d) !! 1); reflexivity
     |rewrite lookup_alter_ne by assumption;
      rewrite bool_decide_eq_false_2 by congruence; reflexivity]).
Qed.

(** ** The admin endpoints *)

Lemma verdict_counts (text_to_int : jsstring → option Z) (rs : list result) :
  let reports :=
    foldr Z.add 0
      ((λ r, if equals text_to_int (is_correct r) 1 then 1 else 0) <$> rs) in
  let compromises :=
    foldr Z.add 0
      ((λ r, if equals text_to_int (is_correct r) 0 then 1 else 0) <$> rs) in
  0 ≤ reports ∧ 0 ≤ compromises
  ∧ reports + compromises ≤ Z.of_nat (length rs)
  ∧ (Forall (is_verdict text_to_int) rs →
     reports + compromises = Z.of_nat (length rs)).
Proof.
  cbn zeta. induction rs as [|r rs (IH1 & IH0 & IHle & IHeq)].
  - cbn. split_and!; lia.
  - cbn [fmap list_fmap foldr length]. unfold equals at 1 3 5 7 9 11.
    destruct (sql_int text_to_int (is_correct r)) as [k|] eqn:Hk.
    + destruct (decide (k = 1)) as [->|H1];
        [|destruct (decide (k = 0)) as [->|H0]].
      * rewrite bool_decide_eq_true_2 by reflexivity.
        rewrite bool_decide_eq_false_2 by discriminate.
        split_and!; try lia. intros Hall.
        apply Forall_cons in Hall as [_ Hall]. specialize (IHeq Hall). lia.
      * rewrite bool_decide_eq_false_2 by discriminate.
        rewrite bool_decide_eq_true_2 by reflexivity.
        split_and!; try lia. intros Hall.
        apply Forall_cons in Hall as [_ Hall]. specialize (IHeq Hall). lia.
      * rewrite !bool_decide_eq_false_2 by congruence.
        split_and!; try lia. intros Hall.
        apply Forall_cons in Hall as [[Hr|Hr] _]; unfold is_verdict in Hr;
          rewrite Hk in Hr; congruence.
    + rewrite !bool_decide_eq_false_2 by discriminate.
      split_and!; try lia. intros Hall.
      apply Forall_cons in Hall as [[Hr|Hr] _]; rewrite Hk in Hr;
        discriminate Hr.
Qed.

(** X27: [GET /api/admin/overview] always answers with the aggregates,
    never with its fallback of zeros: [total_sims] is the number of
    results; without results the two sums are null; with results they are
    numbers, not negative, that add up to [total_sims] at most, and to
    [total_sims] when every stored verdict counts as 1 or as 0. *)
Theorem overview_sums (text_to_int : jsstring → option Z) (d : db) :
  ∃ reports compromises,
    get_admin_overview text_to_int d
    = JObj [("total_sims",
             JNum (inject_Z (Z.of_nat (size (rows (results d))))));
            ("total_reports", json_of_int reports);
            ("total_compromises", json_of_int compromises)]
    ∧ match reports, compromises with
      | Some r, Some c =>
          rows (results d) ≠ ∅ ∧ 0 ≤ r ∧ 0 ≤ c
          ∧ r + c ≤ Z.of_nat (size (rows (results d)))
          ∧ (every_result (is_verdict text_to_int) d →
             r + c = Z.of_nat (size (rows (results d))))
      | None, None => rows (results d) = ∅
      | _, _ => False
      end.
Proof.
  unfold get_admin_overview, overview_counts.
  assert (Hall : every_result (is_verdict text_to_int) d →
                 Forall (is_verdict text_to_int)
                   (snd <$> map_to_list (rows (results d)))).
  { intros Hd. apply Forall_forall. intros r Hr.
    apply list_elem_of_fmap in Hr as [[i r'] [-> Hr]].
    apply elem_of_map_to_list in Hr. apply (Hd i r' Hr). }
  revert Hall.
  set (rs := snd <$> map_to_list (rows (results d))). intros Hall.
  assert (Hlen : length rs = size (rows (results d))).
  { unfold rs. rewrite length_fmap. apply length_map_to_list. }
  destruct (verdict_counts text_to_int rs) as (Hr1 & Hr0 & Hle & Heq).
  rewrite <- Hlen.
  destruct rs as [|r rs'] eqn:Hrows.
  - exists None, None. split; [reflexivity|].
    apply map_size_empty_iff. rewrite <- Hlen. reflexivity.
  - eexists (Some _), (Some _). split; [reflexivity|].
    split_and!; try eassumption.
    + intros Hempty. apply map_size_empty_iff in Hempty.
      rewrite <- Hlen in Hempty. discriminate Hempty.
    + intros Hd. apply Heq, Hall, Hd.
Qed.

(** After one wrong answer the overview counts one compromise; after a
    request whose array moved NULL into [is_correct] it counts a result
    that is neither a report nor a compromise. *)
Example overview_after_wrong_answer :
  get_admin_overview (λ _, None)
    (snd (post_results false (λ _, None) Demo.wrong_answer Demo.db0))
  = JObj [("total_sims", JNum 1%Q); ("total_reports", JNum 0%Q);
          ("total_compromises", JNum 1%Q)].
Proof. vm_compute. reflexivity. Qed.

Example overview_after_shifted_verdict :
  get_admin_overview (λ _, None)
    (snd (post_results false (λ _, None)
            (JObj [("simulation_id", JArr []); ("campaign_id", JNum 2%Q);
                   ("is_correct", JBool true);
                   ("response_time", JArr [JNull; JNum 7%Q])])
            Demo.db0))
  = JObj [("total_sims", JNum 1%Q); ("total_reports", JNum 0%Q);
          ("total_compromises", JNum 0%Q)].
Proof. vm_compute. reflexivity. Qed.





Example post_campaigns_empty_body :
  fst (post_campaigns true (λ _, None) (JObj []) Demo.db0)
  = Normal (JObj [("id", JNum 1%Q)]).
Proof. vm_compute. reflexivity. Qed.
